(** * Notebook analysis engine, interface renderer and transport adapter

    A shallow embedding of [core/notebook_parser.py],
    [core/gui_generator.py] ([_generate_param_collection_js]) and
    [core/colab_manager.py] ([check_connection], [generate]), with the
    properties of the specification stated and settled against it.

    Text is a list of 8-bit characters read as the code points U+0000 to
    U+00FF; the character classes and case mappings below are Python's on
    that range (two letters whose title case lies outside it are left as
    they are by [title_char]). *)

From Stdlib Require Import String Ascii Numbers.DecimalString.
From Stdlib Require Import Bool Arith ZArith QArith Lia List.
Import ListNotations.
Open Scope nat_scope.
Open Scope list_scope.

(** ** Python values, exceptions and text primitives *)

Module Py.

Definition text := list ascii.

Definition txt (s : string) : text := list_ascii_of_string s.

Definition chr (n : nat) : ascii := ascii_of_nat n.
Definition ord (c : ascii) : nat := nat_of_ascii c.

Definition text_eqb (a b : text) : bool :=
  if list_eq_dec ascii_dec a b then true else false.

(** The exceptions the modelled code can raise. *)
Inductive exc :=
| AttributeError
| TypeError
| ValueError.

Inductive result (A : Type) :=
| Ok (a : A)
| Raise (e : exc).
Arguments Ok {A} a.
Arguments Raise {A} e.

Definition bind {A B} (r : result A) (k : A -> result B) : result B :=
  match r with
  | Ok a => k a
  | Raise e => Raise e
  end.

(** A value as [json.load] builds it. A float is kept as the rational its
    literal denotes. A dict is kept as its items in insertion order. *)
#[local] Unset Elimination Schemes.
Inductive value :=
| VNone
| VBool (b : bool)
| VInt (z : Z)
| VFloat (q : Q)
| VStr (s : text)
| VList (l : list value)
| VDict (items : list (text * value)).
#[local] Set Elimination Schemes.

(** [d.get(key)], [None] standing for an absent key. *)
Fixpoint dict_get (key : text) (items : list (text * value)) : option value :=
  match items with
  | [] => None
  | (k, v) :: items' => if text_eqb k key then Some v else dict_get key items'
  end.

(** Character tests: [str.isspace] (also the class [\s]) and [\d]. *)
Definition between (lo hi n : nat) : bool := (lo <=? n) && (n <=? hi).

Definition isspace (c : ascii) : bool :=
  let n := ord c in
  between 9 13 n || between 28 32 n || (n =? 133) || (n =? 160).

Definition isdigit (c : ascii) : bool := between 48 57 (ord c).

Definition is_upper (c : ascii) : bool :=
  let n := ord c in
  between 65 90 n || (between 192 222 n && negb (n =? 215)).

(** Lower-case letters that have an upper-case partner below U+0100. *)
Definition is_lower_paired (c : ascii) : bool :=
  let n := ord c in
  between 97 122 n || (between 224 254 n && negb (n =? 247)).

(** A cased character, as [str.title] tests it: [c.isupper() or
    c.islower()]. *)
Definition is_cased (c : ascii) : bool :=
  let n := ord c in
  is_upper c || is_lower_paired c
  || (n =? 170) || (n =? 181) || (n =? 186) || (n =? 223) || (n =? 255).

Definition lower_char (c : ascii) : ascii :=
  if is_upper c then chr (ord c + 32) else c.

(** The upper-case partner of a character, when it is one character of the
    modelled range. *)
Definition upper_char (c : ascii) : ascii :=
  if is_lower_paired c then chr (ord c - 32) else c.

(** The title-case form of a character, as [str.title] writes it at the
    start of a word: the upper-case partner, and for U+00DF the two
    letters [Ss]. The title-case forms of U+00B5 and U+00FF (U+039C and
    U+0178) lie outside the modelled range; these two characters are left
    as they are. *)
Definition title_char (c : ascii) : text :=
  if ord c =? 223 then txt "Ss" else [upper_char c].

(** [s.lower()] *)
Definition lower (s : text) : text := map lower_char s.

(** [s.lstrip(chars)], [s.rstrip(chars)] and [s.strip(chars)], the set of
    characters given as a test. *)
Fixpoint lstrip_by (p : ascii -> bool) (s : text) : text :=
  match s with
  | c :: s' => if p c then lstrip_by p s' else s
  | [] => []
  end.

Definition rstrip_by (p : ascii -> bool) (s : text) : text :=
  rev (lstrip_by p (rev s)).

Definition strip_by (p : ascii -> bool) (s : text) : text :=
  rstrip_by p (lstrip_by p s).

(** [s.strip()] *)
Definition strip (s : text) : text := strip_by isspace s.

(** [s.startswith(prefix)] *)
Fixpoint startswith (prefix s : text) : bool :=
  match prefix, s with
  | [], _ => true
  | p :: prefix', c :: s' => if ascii_dec p c then startswith prefix' s' else false
  | _ :: _, [] => false
  end.

(** [needle in s] *)
Fixpoint contains (needle s : text) : bool :=
  startswith needle s
  || match s with
     | [] => false
     | _ :: s' => contains needle s'
     end.

(** [s.replace(old, new)] for a non-empty [old]: occurrences are taken from
    left to right without overlap. [skip] counts the characters of the
    occurrence just replaced that are still to be passed over. *)
Fixpoint replace_from (old new : text) (skip : nat) (s : text) : text :=
  match s with
  | [] => []
  | c :: s' =>
      match skip with
      | S k => replace_from old new k s'
      | O =>
          if startswith old s
          then new ++ replace_from old new (length old - 1) s'
          else c :: replace_from old new 0 s'
      end
  end.

Definition replace (old new s : text) : text := replace_from old new 0 s.

(** [sep.join(parts)] *)
Fixpoint join (sep : text) (parts : list text) : text :=
  match parts with
  | [] => []
  | [p] => p
  | p :: parts' => p ++ sep ++ join sep parts'
  end.

(** [s.title()]: a cased character is title-cased when the character
    before it is not cased, and lower-cased otherwise. *)
Fixpoint title_from (previous_is_cased : bool) (s : text) : text :=
  match s with
  | [] => []
  | c :: s' =>
      (if previous_is_cased then [lower_char c] else title_char c)
        ++ title_from (is_cased c) s'
  end.

Definition title (s : text) : text := title_from false s.

(** The value of a run of decimal digits. *)
Definition digit_val (c : ascii) : Z := Z.of_nat (ord c - 48).

Definition digits_val (s : text) : Z :=
  fold_left (fun acc c => 10 * acc + digit_val c)%Z s 0%Z.

(** [sys.get_int_max_str_digits()] as the interpreter sets it. *)
Definition int_max_str_digits : nat := 4300.

(** [int(s)] on the texts the program passes to it, which are runs of
    decimal digits; anything else is a [ValueError], and so is a run of
    more digits than the interpreter converts. *)
Definition int (s : text) : result Z :=
  match s with
  | [] => Raise ValueError
  | _ =>
      if forallb isdigit s
      then if length s <=? int_max_str_digits
           then Ok (digits_val s)
           else Raise ValueError
      else Raise ValueError
  end.

Definition is_dot (c : ascii) : bool := ord c =? 46.

(** [float(s)] on the texts the program passes to it, which are made of
    decimal digits and dots: the text must hold one dot at most and one
    digit at least. The result is the rational the literal denotes. *)
Definition float (s : text) : result Q :=
  let digits := filter isdigit s in
  let dots := filter is_dot s in
  if forallb (fun c => isdigit c || is_dot c) s
     && (length dots <=? 1) && negb (length digits =? 0)
  then
    let frac := length (lstrip_by isdigit s) - length dots in
    Ok (Qmake (digits_val digits) (Z.to_pos (10 ^ Z.of_nat frac)))
  else Raise ValueError.

(** [str(n)] for an integer. *)
Definition str_of_Z (z : Z) : text :=
  txt (NilZero.string_of_int (Z.to_int z)).

End Py.

Export Py.

Declare Scope py_scope.
Delimit Scope py_scope with py.
Notation "x <- e ;; k" := (bind e (fun x => k))
  (at level 61, e at next level, right associativity) : py_scope.
Notation "' pat <- e ;; k" := (bind e (fun x => match x with pat => k end))
  (at level 61, pat pattern, e at next level, right associativity) : py_scope.
Open Scope py_scope.
Open Scope bool_scope.

(** ** Regular expressions

    The fragment of Python's [re] the program uses: literals, character
    classes, sequence, ordered alternation, greedy repetition of a class,
    capturing groups and the line anchors of [re.MULTILINE]. Matching is
    by backtracking; [match_at] lists the ways a pattern can match at a
    position in the order the backtracking matcher tries them, so the match
    [re] reports is the head of the list. *)

Module Re.

Inductive regex :=
| Eps                                  (* the empty pattern *)
| Chr (c : ascii)                      (* a literal character *)
| Cls (p : ascii -> bool)              (* a character class *)
| Seq (a b : regex)
| Alt (a b : regex)                    (* a|b, a tried first *)
| Rep (lo : nat) (p : ascii -> bool)   (* greedy class{lo,} *)
| Grp (n : nat) (r : regex)            (* capturing group number n *)
| Bol                                  (* ^ under re.MULTILINE *)
| Eol.                                 (* $ under re.MULTILINE *)

(** A position in the subject: the characters before it (nearest first),
    the characters after it, and the groups captured so far. *)
Record cursor := Cursor {
  seen : text;
  rest : text;
  groups : list (nat * text)
}.

Definition newline : ascii := chr 10.
Definition is_newline (c : ascii) : bool := ord c =? 10.

Definition at_bol (c : cursor) : bool :=
  match seen c with
  | [] => true
  | x :: _ => is_newline x
  end.

Definition at_eol (c : cursor) : bool :=
  match rest c with
  | [] => true
  | x :: _ => is_newline x
  end.

(** Literal comparison; under [re.IGNORECASE] both sides are case-folded. *)
Definition chr_eqb (ignorecase : bool) (a b : ascii) : bool :=
  if ignorecase
  then if ascii_dec (lower_char a) (lower_char b) then true else false
  else if ascii_dec a b then true else false.

Definition step1 (ok : ascii -> bool) (c : cursor) : list cursor :=
  match rest c with
  | x :: rest' => if ok x then [Cursor (x :: seen c) rest' (groups c)] else []
  | [] => []
  end.

(** Greedy repetition: the longest run first, then one character less, down
    to no character at all. *)
Fixpoint rep_run (p : ascii -> bool) (sn rs : text) : list (text * text) :=
  match rs with
  | x :: rs' => if p x then rep_run p (x :: sn) rs' ++ [(sn, rs)] else [(sn, rs)]
  | [] => [(sn, rs)]
  end.

Fixpoint rep (lo : nat) (p : ascii -> bool) (sn rs : text) : list (text * text) :=
  match lo with
  | O => rep_run p sn rs
  | S lo' =>
      match rs with
      | x :: rs' => if p x then rep lo' p (x :: sn) rs' else []
      | [] => []
      end
  end.

(** The text between two positions of the same subject. *)
Definition consumed (from to : cursor) : text :=
  firstn (length (rest from) - length (rest to)) (rest from).

(** No class of the program's patterns is matched under [re.IGNORECASE],
    so classes are tested as they are. *)
Fixpoint match_at (ignorecase : bool) (r : regex) (c : cursor) : list cursor :=
  match r with
  | Eps => [c]
  | Chr x => step1 (chr_eqb ignorecase x) c
  | Cls p => step1 p c
  | Seq a b => flat_map (match_at ignorecase b) (match_at ignorecase a c)
  | Alt a b => match_at ignorecase a c ++ match_at ignorecase b c
  | Rep lo p =>
      map (fun sr => Cursor (fst sr) (snd sr) (groups c)) (rep lo p (seen c) (rest c))
  | Grp n r' =>
      map (fun c' => Cursor (seen c') (rest c') ((n, consumed c c') :: groups c'))
          (match_at ignorecase r' c)
  | Bol => if at_bol c then [c] else []
  | Eol => if at_eol c then [c] else []
  end.

(** A match object: where it starts, what it spans and its groups. *)
Record rmatch := Match {
  m_start : nat;
  m_text : text;
  m_groups : list (nat * text)
}.

Fixpoint lookup_group (n : nat) (gs : list (nat * text)) : option text :=
  match gs with
  | [] => None
  | (k, s) :: gs' => if k =? n then Some s else lookup_group n gs'
  end.

(** [m.group(n)] for [n >= 1]; a group that took no part reads as empty. *)
Definition group (n : nat) (m : rmatch) : text :=
  match lookup_group n (m_groups m) with
  | Some s => s
  | None => []
  end.

Definition try_at (ignorecase : bool) (r : regex) (sn rs : text) : option rmatch :=
  match match_at ignorecase r (Cursor sn rs []) with
  | c' :: _ => Some (Match (length sn) (consumed (Cursor sn rs []) c') (groups c'))
  | [] => None
  end.

(** [re.search]: the first position, from the left, where the pattern
    matches. *)
Fixpoint search_from (ignorecase : bool) (r : regex) (sn rs : text) : option rmatch :=
  match try_at ignorecase r sn rs with
  | Some m => Some m
  | None =>
      match rs with
      | x :: rs' => search_from ignorecase r (x :: sn) rs'
      | [] => None
      end
  end.

Definition search (ignorecase : bool) (r : regex) (s : text) : option rmatch :=
  search_from ignorecase r [] s.

Definition found (ignorecase : bool) (r : regex) (s : text) : bool :=
  match search ignorecase r s with
  | Some _ => true
  | None => false
  end.

(** [re.finditer]: the matches from left to right without overlap. [skip]
    counts the characters of the last match still to be passed over. The
    patterns of the program never match the empty text, so the scan resumes
    where a match ends. *)
Fixpoint finditer_from (ignorecase : bool) (r : regex) (skip : nat) (sn rs : text)
  : list rmatch :=
  match skip with
  | S k =>
      match rs with
      | x :: rs' => finditer_from ignorecase r k (x :: sn) rs'
      | [] => []
      end
  | O =>
      match try_at ignorecase r sn rs with
      | Some m =>
          m :: match rs with
               | x :: rs' =>
                   finditer_from ignorecase r (length (m_text m) - 1) (x :: sn) rs'
               | [] => []
               end
      | None =>
          match rs with
          | x :: rs' => finditer_from ignorecase r 0 (x :: sn) rs'
          | [] => []
          end
      end
  end.

Definition finditer (ignorecase : bool) (r : regex) (s : text) : list rmatch :=
  finditer_from ignorecase r 0 [] s.

(** [re.sub(r, repl, s)] for a replacement text without group references. *)
Fixpoint sub_from (ignorecase : bool) (r : regex) (repl : text) (skip : nat)
  (sn rs : text) : text :=
  match skip with
  | S k =>
      match rs with
      | x :: rs' => sub_from ignorecase r repl k (x :: sn) rs'
      | [] => []
      end
  | O =>
      match try_at ignorecase r sn rs with
      | Some m =>
          match m_text m, rs with
          | _ :: _, x :: rs' =>
              repl ++ sub_from ignorecase r repl (length (m_text m) - 1) (x :: sn) rs'
          | [], x :: rs' => repl ++ x :: sub_from ignorecase r repl 0 (x :: sn) rs'
          | _, [] => repl
          end
      | None =>
          match rs with
          | x :: rs' => x :: sub_from ignorecase r repl 0 (x :: sn) rs'
          | [] => []
          end
      end
  end.

Definition sub (ignorecase : bool) (r : regex) (repl s : text) : text :=
  sub_from ignorecase r repl 0 [] s.

(** Pattern builders. *)
Fixpoint lit_text (s : text) : regex :=
  match s with
  | [] => Eps
  | [c] => Chr c
  | c :: s' => Seq (Chr c) (lit_text s')
  end.

Definition lit (s : string) : regex := lit_text (txt s).

Fixpoint seq (rs : list regex) : regex :=
  match rs with
  | [] => Eps
  | [r] => r
  | r :: rs' => Seq r (seq rs')
  end.

Fixpoint alt (rs : list regex) : regex :=
  match rs with
  | [] => Eps
  | [r] => r
  | r :: rs' => Alt r (alt rs')
  end.

Definition in_set (s : string) (c : ascii) : bool :=
  existsb (fun x => if ascii_dec x c then true else false) (txt s).

Definition not_in_set (s : string) (c : ascii) : bool := negb (in_set s c).

(** [.] without [re.DOTALL] *)
Definition any_char (c : ascii) : bool := negb (is_newline c).

End Re.

(** ** core/notebook_parser.py *)

Module NotebookParser.

Import Re.

Inductive ParameterType :=
| TEXT | TEXTAREA | NUMBER | SLIDER | CHECKBOX | DROPDOWN | FILE | IMAGE | COLOR.

Definition ParameterType_value (t : ParameterType) : text :=
  match t with
  | TEXT => txt "text"
  | TEXTAREA => txt "textarea"
  | NUMBER => txt "number"
  | SLIDER => txt "slider"
  | CHECKBOX => txt "checkbox"
  | DROPDOWN => txt "dropdown"
  | FILE => txt "file"
  | IMAGE => txt "image"
  | COLOR => txt "color"
  end.

Definition ParameterType_eqb (a b : ParameterType) : bool :=
  text_eqb (ParameterType_value a) (ParameterType_value b).

Inductive OutputType :=
| OUT_IMAGE | OUT_TEXT | OUT_FILE | OUT_AUDIO | OUT_VIDEO.

Definition OutputType_value (t : OutputType) : text :=
  match t with
  | OUT_IMAGE => txt "image"
  | OUT_TEXT => txt "text"
  | OUT_FILE => txt "file"
  | OUT_AUDIO => txt "audio"
  | OUT_VIDEO => txt "video"
  end.

(** The dataclass [Parameter]. *)
Record Param := mkParam {
  name : text;
  param_type : ParameterType;
  label : text;
  default_value : value;
  min_value : value;
  max_value : value;
  step : value;
  options : list text;
  description : text;
  required : bool
}.

(** [Parameter(name=..., param_type=..., label=...)] with the dataclass
    defaults for the other fields. *)
Definition Param_new (n : text) (t : ParameterType) (l : text) : Param :=
  mkParam n t l VNone VNone VNone VNone [] [] true.

Definition with_default (v : value) (p : Param) : Param :=
  mkParam (name p) (param_type p) (label p) v (min_value p) (max_value p)
          (step p) (options p) (description p) (required p).

Definition with_range (lo hi : value) (p : Param) : Param :=
  mkParam (name p) (param_type p) (label p) (default_value p) lo hi
          (step p) (options p) (description p) (required p).

Definition with_step (v : value) (p : Param) : Param :=
  mkParam (name p) (param_type p) (label p) (default_value p) (min_value p)
          (max_value p) v (options p) (description p) (required p).

Definition with_description (d : text) (p : Param) : Param :=
  mkParam (name p) (param_type p) (label p) (default_value p) (min_value p)
          (max_value p) (step p) (options p) d (required p).

Definition with_required (b : bool) (p : Param) : Param :=
  mkParam (name p) (param_type p) (label p) (default_value p) (min_value p)
          (max_value p) (step p) (options p) (description p) b.

(** The dataclass [Output]. *)
Record Output := mkOutput {
  output_name : text;
  output_type : OutputType;
  output_description : text
}.

(** The dataclass [NotebookAnalysis]. [required_packages] (a set turned
    into a list, in no fixed order) and [api_code] (the stub text) are
    computed by [_detect_packages] and [_generate_api_code], which cannot
    raise and which no property below reads; they are left out. *)
Record NotebookAnalysis := mkAnalysis {
  title : text;
  analysis_description : text;
  parameters : list Param;
  outputs : list Output;
  has_gradio : bool;
  has_flask : bool;
  has_fastapi : bool;
  model_type : text;
  raw_cells : value
}.

(** *** PATTERNS *)

Definition is_quote (c : ascii) : bool := (ord c =? 34) || (ord c =? 39).
Definition not_quote (c : ascii) : bool := negb (is_quote c).
Definition not_rparen (c : ascii) : bool := not_in_set ")" c.
Definition not_rbracket (c : ascii) : bool := not_in_set "]" c.
Definition digit_or_dot (c : ascii) : bool := isdigit c || is_dot c.
Definition is_minus (c : ascii) : bool := in_set "-" c.

Definition ws : regex := Rep 0 isspace.                  (* \s* *)
Definition digits : regex := Rep 1 isdigit.              (* \d+ *)
Definition args : regex := Rep 0 not_rparen.             (* [^)]* *)
(** A quoted text, group [n] holding what is between the quotes: the class
    of the two quote characters, then the captured run of other characters,
    then the class again. *)
Definition quoted (n : nat) (lo : nat) : regex :=
  seq [Cls is_quote; Grp n (Rep lo not_quote); Cls is_quote].
Definition eq_sign : regex := seq [ws; Chr "="; ws].     (* \s*=\s* *)

(** [<call>\s*\([^)]*<key>\s*=\s*<quoted 1>] *)
Definition labelled_call (call : regex) (key : string) : regex :=
  seq [call; ws; Chr "("; args; lit key; eq_sign; quoted 1 1].

(** [<call>\s*\([^)]*<lo>\s*=\s*(\d+)[^)]*<hi>\s*=\s*(\d+)[^)]*<key>\s*=\s*<quoted 3>] *)
Definition ranged_call (call : regex) (lo hi key : string) : regex :=
  seq [call; ws; Chr "("; args; lit lo; eq_sign; Grp 1 digits;
       args; lit hi; eq_sign; Grp 2 digits;
       args; lit key; eq_sign; quoted 3 1].

(** [<call>\s*\([^)]*<items>\s*=\s*\[([^\]]+)\][^)]*<key>\s*=\s*<quoted 2>] *)
Definition choice_call (call : regex) (items key : string) : regex :=
  seq [call; ws; Chr "("; args; lit items; eq_sign;
       Chr "["; Grp 1 (Rep 1 not_rbracket); Chr "]";
       args; lit key; eq_sign; quoted 2 1].

(** [(?:<names>)\s*=\s*(<literal>)] *)
Definition assignment (names : list string) (literal : regex) : regex :=
  seq [alt (map lit names); eq_sign; Grp 1 literal].

Definition gradio_textbox := labelled_call (lit "gr.Textbox") "label".
Definition gradio_slider := ranged_call (lit "gr.Slider") "minimum" "maximum" "label".
Definition gradio_number := labelled_call (lit "gr.Number") "label".
Definition gradio_checkbox := labelled_call (lit "gr.Checkbox") "label".
Definition gradio_dropdown := choice_call (lit "gr.Dropdown") "choices" "label".
Definition gradio_image := labelled_call (lit "gr.Image") "label".
Definition gradio_file := labelled_call (lit "gr.File") "label".

Definition prompt_var :=
  seq [alt (map lit ["prompt"; "text"; "input_text"]%string); eq_sign; quoted 1 0].
(** The entry ['negative_prompt'] of the table. *)
Definition negative_prompt_var := seq [lit "negative_prompt"; eq_sign; quoted 1 0].
Definition width_var := assignment ["width"; "w"]%string digits.
Definition height_var := assignment ["height"; "h"]%string digits.
Definition steps_var :=
  assignment ["steps"; "num_inference_steps"; "inference_steps"]%string digits.
Definition cfg_var :=
  assignment ["cfg_scale"; "guidance_scale"; "cfg"]%string (Rep 1 digit_or_dot).
Definition seed_var :=
  assignment ["seed"]%string (Seq (Alt (Cls is_minus) Eps) digits).
Definition strength_var := assignment ["strength"]%string (Rep 1 digit_or_dot).

Definition input_func :=
  seq [lit "input"; ws; Chr "("; ws; quoted 1 1; ws; Chr ")"].

Definition widget_text := labelled_call (lit "widgets.Text") "description".
Definition widget_slider :=
  ranged_call (seq [lit "widgets."; Alt (lit "Int") (lit "Float"); lit "Slider"])
              "min" "max" "description".
Definition widget_dropdown :=
  choice_call (lit "widgets.Dropdown") "options" "description".

Definition stable_diffusion :=
  alt (map lit ["StableDiffusion"; "stable-diffusion"; "runwayml"; "CompVis"]%string).
Definition controlnet := alt (map lit ["ControlNet"; "controlnet"]%string).
Definition sdxl := alt (map lit ["SDXL"; "sdxl"; "stable-diffusion-xl"]%string).
Definition flux := alt (map lit ["FLUX"; "flux"]%string).

(** [!pip\s+install\s+([^\n]+)] and the same for [pip3]. *)
Definition install_line (tool : string) : regex :=
  seq [lit tool; Rep 1 isspace; lit "install"; Rep 1 isspace; Grp 1 (Rep 1 any_char)].
Definition pip_install := install_line "!pip".
Definition pip3_install := install_line "!pip3".

(** *** _sanitize_name *)

Definition is_name_char (c : ascii) : bool :=
  between 97 122 (ord c) || isdigit c || in_set "_" c.

Definition is_underscore (c : ascii) : bool := in_set "_" c.

Definition _sanitize_name (name : text) : text :=
  let name := lower name in
  let name := sub false (Cls (fun c => negb (is_name_char c))) (txt "_") name in
  let name := sub false (Rep 1 is_underscore) (txt "_") name in
  strip_by is_underscore name.

(** *** Standard parameters *)

Definition uuml : ascii := chr 252.
Definition ouml : ascii := chr 246.
Definition auml : ascii := chr 228.

Definition prompt_param : Param :=
  with_description (txt "Beschreibung des gew" ++ uuml :: txt "nschten Bildes")
    (with_default (VStr []) (Param_new (txt "prompt") TEXTAREA (txt "Prompt"))).

Definition negative_prompt_param : Param :=
  with_required false
    (with_description (txt "Was NICHT im Bild erscheinen soll")
       (with_default (VStr [])
          (Param_new (txt "negative_prompt") TEXTAREA (txt "Negative Prompt")))).

Definition slider_param (n l : text) (default lo hi st : value) : Param :=
  with_step st (with_range lo hi (with_default default (Param_new n SLIDER l))).

Definition width_param (default : value) : Param :=
  slider_param (txt "width") (txt "Breite") default (VInt 256) (VInt 1024) (VInt 64).

Definition height_param (default : value) : Param :=
  slider_param (txt "height") (txt "H" ++ ouml :: txt "he") default
               (VInt 256) (VInt 1024) (VInt 64).

Definition steps_param (default : value) : Param :=
  slider_param (txt "steps") (txt "Schritte") default (VInt 10) (VInt 150) (VInt 1).

Definition cfg_scale_param (default : value) : Param :=
  with_description (txt "Wie stark der Prompt befolgt wird")
    (slider_param (txt "cfg_scale") (txt "CFG Scale") default
                  (VFloat 1) (VFloat 20) (VFloat 0.5)).

Definition seed_param : Param :=
  with_description
    (txt "Zufallszahl f" ++ uuml :: txt "r Reproduzierbarkeit (-1 = zuf"
         ++ auml :: txt "llig)")
    (with_default (VInt (-1)) (Param_new (txt "seed") NUMBER (txt "Seed"))).

Definition strength_param (default : value) : Param :=
  with_description (txt "St" ++ auml :: txt "rke der Bildbearbeitung")
    (slider_param (txt "strength") (txt "St" ++ auml :: txt "rke") default
                  (VFloat 0) (VFloat 1) (VFloat 0.05)).

Definition input_image_param : Param :=
  with_required false
    (with_description (txt "Bild f" ++ uuml :: txt "r img2img Bearbeitung")
       (Param_new (txt "input_image") IMAGE (txt "Eingabebild"))).

(** [re.search(r'...', code, re.IGNORECASE)] used as a test. *)
Definition mentions (keywords : list string) (code : text) : bool :=
  found true (alt (map lit keywords)) code.

(** One step of the checklist: the parameter is appended when its assignment
    pattern matches or one of its keywords occurs; the matched literal,
    converted, is its default, else the fallback. *)
Definition detect_assigned (pattern : regex) (keywords : list string)
    (convert : text -> result value) (fallback : value)
    (make : value -> Param) (code : text) (params : list Param)
  : result (list Param) :=
  let var_match := search false pattern code in
  match var_match with
  | Some m =>
      default <- convert (group 1 m) ;;
      Ok (params ++ [make default])
  | None =>
      if mentions keywords code
      then Ok (params ++ [make fallback])
      else Ok params
  end.

Definition detect_fixed (keywords : list string) (p : Param) (code : text)
    (params : list Param) : list Param :=
  if mentions keywords code then params ++ [p] else params.

Definition int_value (s : text) : result value := z <- int s ;; Ok (VInt z).
Definition float_value (s : text) : result value := q <- float s ;; Ok (VFloat q).

Definition _detect_standard_image_params (code : text) : result (list Param) :=
  let params := [] in
  let params := detect_fixed ["prompt"]%string prompt_param code params in
  let params :=
    detect_fixed ["negative_prompt"]%string negative_prompt_param code params in
  params <- detect_assigned width_var ["width"]%string int_value (VInt 512)
              (fun d => with_description (txt "Bildbreite in Pixeln") (width_param d))
              code params ;;
  params <- detect_assigned height_var ["height"]%string int_value (VInt 512)
              (fun d => with_description (txt "Bildh" ++ ouml :: txt "he in Pixeln")
                                         (height_param d))
              code params ;;
  params <- detect_assigned steps_var ["steps"; "inference"]%string int_value (VInt 50)
              (fun d => with_description (txt "Anzahl der Inferenz-Schritte")
                                         (steps_param d))
              code params ;;
  params <- detect_assigned cfg_var ["cfg"; "guidance"]%string float_value (VFloat 7.5)
              cfg_scale_param code params ;;
  let params := detect_fixed ["seed"]%string seed_param code params in
  params <- detect_assigned strength_var ["img2img"; "strength"]%string float_value
              (VFloat 0.75) strength_param code params ;;
  let params :=
    detect_fixed ["img2img"; "init_image"; "input_image"]%string input_image_param
                 code params in
  Ok params.

(** *** Widget constructors *)

Definition labelled_param (t : ParameterType) (m : rmatch) : Param :=
  Param_new (_sanitize_name (group 1 m)) t (group 1 m).

(** [float(m.group(n))] on a group captured by [\d+]. *)
Definition float_of_digits (s : text) : value := VFloat (inject_Z (digits_val s)).

Definition ranged_param (m : rmatch) : Param :=
  with_range (float_of_digits (group 1 m)) (float_of_digits (group 2 m))
    (Param_new (_sanitize_name (group 3 m)) SLIDER (group 3 m)).

Definition _detect_gradio_params (code : text) : list Param :=
  let params := [] in
  let params := params ++ map (labelled_param TEXT) (finditer false gradio_textbox code) in
  let params := params ++ map ranged_param (finditer false gradio_slider code) in
  let params := params ++ map (labelled_param IMAGE) (finditer false gradio_image code) in
  params.

Definition _detect_widget_params (code : text) : list Param :=
  let params := [] in
  let params := params ++ map (labelled_param TEXT) (finditer false widget_text code) in
  let params := params ++ map ranged_param (finditer false widget_slider code) in
  params.

Definition _get_default_image_params : list Param :=
  [ prompt_param;
    negative_prompt_param;
    width_param (VInt 512);
    height_param (VInt 512);
    steps_param (VInt 50) ].

(** *** _detect_parameters *)

Definition name_in (n : text) (found_names : list text) : bool :=
  existsb (text_eqb n) found_names.

(** [for param in new: if param.name not in found_names: ...] *)
Fixpoint add_params (new : list Param) (acc : list Param * list text)
  : list Param * list text :=
  match new with
  | [] => acc
  | param :: new' =>
      let '(parameters, found_names) := acc in
      if name_in (name param) found_names
      then add_params new' acc
      else add_params new' (parameters ++ [param], name param :: found_names)
  end.

Definition _detect_parameters (code : text) : result (list Param) :=
  let acc := ([], []) in
  standard_params <- _detect_standard_image_params code ;;
  let acc := add_params standard_params acc in
  let acc := add_params (_detect_gradio_params code) acc in
  let acc := add_params (_detect_widget_params code) acc in
  let parameters := fst acc in
  match parameters with
  | [] => Ok _get_default_image_params
  | _ => Ok parameters
  end.

(** *** _detect_outputs *)

Definition image_output : Output :=
  mkOutput (txt "generated_image") OUT_IMAGE (txt "Generiertes Bild").
Definition audio_output : Output :=
  mkOutput (txt "generated_audio") OUT_AUDIO (txt "Generiertes Audio").
Definition video_output : Output :=
  mkOutput (txt "generated_video") OUT_VIDEO (txt "Generiertes Video").

Definition _detect_outputs (code : text) : list Output :=
  let outputs := [] in
  let outputs :=
    if mentions [".save("; "Image."; "PIL"; "cv2"; "plt.show"; "display("]%string code
    then outputs ++ [image_output] else outputs in
  let outputs :=
    if mentions ["audio"; "wav"; "mp3"; "tts"; "speech"]%string code
    then outputs ++ [audio_output] else outputs in
  let outputs :=
    if mentions ["video"; "mp4"; "avi"; "animate"]%string code
    then outputs ++ [video_output] else outputs in
  match outputs with
  | [] => [image_output]
  | _ => outputs
  end.

(** *** _detect_model_type *)

Definition _detect_model_type (code : text) : text :=
  let code_lower := lower code in
  if found true flux code then txt "flux"
  else if found true sdxl code then txt "sdxl"
  else if found true controlnet code then txt "controlnet"
  else if found true stable_diffusion code then txt "stable_diffusion"
  else if contains (txt "diffusers") code_lower then txt "diffusers"
  else if contains (txt "transformers") code_lower then txt "transformers"
  else txt "unknown".

(** *** Cells *)

(** [c.get(key)] on a cell: only a dict has [get]. *)
Definition cell_get (key : string) (c : value) : result (option value) :=
  match c with
  | VDict items => Ok (dict_get (txt key) items)
  | _ => Raise AttributeError
  end.

(** [''.join(c.get('source', [])) if isinstance(c.get('source'), list)
     else c.get('source', '')] *)
Fixpoint join_lines (lines : list value) : result text :=
  match lines with
  | [] => Ok []
  | VStr s :: lines' => tl <- join_lines lines' ;; Ok (s ++ tl)
  | _ :: _ => Raise TypeError
  end.

Definition cell_source (c : value) : result value :=
  source <- cell_get "source" c ;;
  match source with
  | Some (VList lines) => s <- join_lines lines ;; Ok (VStr s)
  | Some v => Ok v
  | None => Ok (VStr [])
  end.

(** Where the code needs a [str]: anything else is a [TypeError]. *)
Definition as_str (v : value) : result text :=
  match v with
  | VStr s => Ok s
  | _ => Raise TypeError
  end.

(** [for c in cells]: a list gives its elements, a str its characters, a
    dict its keys; nothing else can be iterated. *)
Definition iterate (cells : value) : result (list value) :=
  match cells with
  | VList l => Ok l
  | VStr s => Ok (map (fun c => VStr [c]) s)
  | VDict items => Ok (map (fun kv => VStr (fst kv)) items)
  | _ => Raise TypeError
  end.

(** [[c for c in cells if c.get('cell_type') == kind]] *)
Fixpoint cells_of_type (kind : string) (cells : list value) : result (list value) :=
  match cells with
  | [] => Ok []
  | c :: cells' =>
      cell_type <- cell_get "cell_type" c ;;
      tl <- cells_of_type kind cells' ;;
      match cell_type with
      | Some (VStr s) => if text_eqb s (txt kind) then Ok (c :: tl) else Ok tl
      | _ => Ok tl
      end
  end.

Fixpoint map_result {A B} (f : A -> result B) (l : list A) : result (list B) :=
  match l with
  | [] => Ok []
  | a :: l' => b <- f a ;; tl <- map_result f l' ;; Ok (b :: tl)
  end.

(** *** _extract_metadata *)

Definition is_hash (c : ascii) : bool := in_set "#" c.

(** [^#\s+(.+)$] and [^#+.*$], both under [re.MULTILINE]. *)
Definition h1_line : regex :=
  seq [Bol; Chr "#"; Rep 1 isspace; Grp 1 (Rep 1 any_char); Eol].
Definition heading_line : regex :=
  seq [Bol; Rep 1 is_hash; Rep 0 any_char; Eol].

Definition filename_title (filename : text) : text :=
  Py.title (replace (txt "-") (txt " ")
              (replace (txt "_") (txt " ")
                 (replace (txt ".ipynb") [] filename))).

(** The heading of a cell, if it has one, and its text without headings. *)
Definition h1_of (source : text) : option text :=
  match search false h1_line source with
  | Some h1_match => Some (strip (group 1 h1_match))
  | None => None
  end.

Definition prose_of (source : text) : text :=
  strip (sub false heading_line [] source).

(** The loop over the markdown cells; it is left by [break] as soon as a
    description is set. *)
Fixpoint metadata_loop (markdown_cells : list value) (title description : text)
  : result (text * text) :=
  match markdown_cells with
  | [] => Ok (title, description)
  | cell :: markdown_cells' =>
      v <- cell_source cell ;;
      source <- as_str v ;;
      let title :=
        match h1_of source with
        | Some h => h
        | None => title
        end in
      match description with
      | [] =>
          let text := prose_of source in
          match text with
          | _ :: _ => Ok (title, firstn 500 text)
          | [] => metadata_loop markdown_cells' title description
          end
      | _ :: _ => metadata_loop markdown_cells' title description
      end
  end.

Definition _extract_metadata (markdown_cells : list value) (filename : text)
  : result (text * text) :=
  metadata_loop markdown_cells (filename_title filename) [].

(** *** _analyze_notebook *)

Definition _analyze_notebook (notebook : value) (filename : text)
  : result NotebookAnalysis :=
  cells <- match notebook with
           | VDict items =>
               match dict_get (txt "cells") items with
               | Some v => Ok v
               | None => Ok (VList [])
               end
           | _ => Raise AttributeError
           end ;;
  cell_list <- iterate cells ;;
  code_cells <- cells_of_type "code" cell_list ;;
  markdown_cells <- cells_of_type "markdown" cell_list ;;
  sources <- map_result cell_source code_cells ;;
  lines <- map_result as_str sources ;;
  let all_code := join [newline] lines in
  '(title, description) <- _extract_metadata markdown_cells filename ;;
  parameters <- _detect_parameters all_code ;;
  let outputs := _detect_outputs all_code in
  let has_gradio :=
    contains (txt "gradio") (lower all_code) || contains (txt "import gr") all_code in
  let has_flask := contains (txt "flask") (lower all_code) in
  let has_fastapi := contains (txt "fastapi") (lower all_code) in
  let model_type := _detect_model_type all_code in
  Ok (mkAnalysis title description parameters outputs
                 has_gradio has_flask has_fastapi model_type cells).

(** [parse_json] *)
Definition parse_json (notebook_json : value) (filename : text)
  : result NotebookAnalysis :=
  _analyze_notebook notebook_json filename.

End NotebookParser.

(** ** core/gui_generator.py: the collection of the parameters *)

Module GuiGenerator.

Import NotebookParser.

(** One line of [_generate_param_collection_js], as the f-strings build it. *)
Definition collection_line (param : Param) : text :=
  match param_type param with
  | CHECKBOX =>
      txt "params['" ++ name param ++ txt "'] = document.getElementById('"
          ++ name param ++ txt "')?.checked || false;"
  | IMAGE =>
      txt "params['" ++ name param ++ txt "'] = await getImageBase64('"
          ++ name param ++ txt "_input');"
  | SLIDER | NUMBER =>
      txt "params['" ++ name param ++ txt "'] = parseFloat(document.getElementById('"
          ++ name param ++ txt "')?.value || 0);"
  | TEXTAREA =>
      txt "params['" ++ name param ++ txt "'] = document.getElementById('"
          ++ name param ++ txt "')?.value || '';"
  | _ =>
      txt "params['" ++ name param ++ txt "'] = document.getElementById('"
          ++ name param ++ txt "')?.value || '';"
  end.

Definition _generate_param_collection_js (analysis : NotebookAnalysis) : text :=
  let lines := map collection_line (parameters analysis) in
  join (Re.newline :: txt "            ") lines.

(** *** What an emitted line computes

    The right-hand sides the renderer emits have three forms of JavaScript
    expression. They are given here as syntax, with the text they print as
    and the value they compute in a document. *)

Inductive literal :=
| LitFalse                                    (* false *)
| LitZero                                     (* 0 *)
| LitEmpty.                                   (* '' *)

Inductive jsexpr :=
| PropertyOr (id : text) (prop : string) (default : literal)
                          (* document.getElementById('id')?.prop || default *)
| ParseFloat (e : jsexpr)                     (* parseFloat(e) *)
| AwaitImageBase64 (input_id : text).         (* await getImageBase64('input_id') *)

Definition literal_print (l : literal) : text :=
  match l with
  | LitFalse => txt "false"
  | LitZero => txt "0"
  | LitEmpty => txt "''"
  end.

Fixpoint js_print (e : jsexpr) : text :=
  match e with
  | PropertyOr id prop default =>
      txt "document.getElementById('" ++ id ++ txt "')?." ++ txt prop
          ++ txt " || " ++ literal_print default
  | ParseFloat e => txt "parseFloat(" ++ js_print e ++ txt ")"
  | AwaitImageBase64 input_id =>
      txt "await getImageBase64('" ++ input_id ++ txt "')"
  end.

(** A form control of the host page, and the page as a map from element
    ids to controls. *)
Record control := mkControl {
  checked : bool;
  control_value : text
}.

Definition document := text -> option control.

(** JavaScript values. The number [parseFloat] gives for an argument and
    the text the asynchronous encoder resolves to are kept symbolic. *)
Inductive jsvalue :=
| JsBool (b : bool)
| JsZero
| JsString (s : text)
| JsParsedFloat (argument : jsvalue)
| JsImageBase64 (input_id : text).

Definition literal_value (l : literal) : jsvalue :=
  match l with
  | LitFalse => JsBool false
  | LitZero => JsZero
  | LitEmpty => JsString []
  end.

(** [document.getElementById(id)?.prop]: [None] is [undefined], read from
    an absent control. *)
Definition read_property (doc : document) (id : text) (prop : string)
  : option jsvalue :=
  match doc id with
  | None => None
  | Some el =>
      if String.eqb prop "checked" then Some (JsBool (checked el))
      else if String.eqb prop "value" then Some (JsString (control_value el))
      else None
  end.

(** Truthiness of what a property read gives, as [||] tests it: [undefined],
    [false] and the empty string are falsy. *)
Definition truthy (v : option jsvalue) : bool :=
  match v with
  | Some (JsBool b) => b
  | Some (JsString (_ :: _)) => true
  | _ => false
  end.

Fixpoint js_eval (doc : document) (e : jsexpr) : jsvalue :=
  match e with
  | PropertyOr id prop default =>
      match read_property doc id prop with
      | Some v => if truthy (Some v) then v else literal_value default
      | None => literal_value default
      end
  | ParseFloat e => JsParsedFloat (js_eval doc e)
  | AwaitImageBase64 input_id => JsImageBase64 input_id
  end.

(** The expression on the right-hand side of a parameter's line. *)
Definition collection_rule (t : ParameterType) (id : text) : jsexpr :=
  match t with
  | CHECKBOX => PropertyOr id "checked" LitFalse
  | IMAGE => AwaitImageBase64 (id ++ txt "_input")
  | SLIDER | NUMBER => ParseFloat (PropertyOr id "value" LitZero)
  | _ => PropertyOr id "value" LitEmpty
  end.

(** What the host collects for a parameter in a document. *)
Definition collect (doc : document) (param : Param) : jsvalue :=
  js_eval doc (collection_rule (param_type param) (name param)).

(** [String.prototype.trim] on the modelled characters: it removes white
    space and line terminators from both ends. *)
Definition js_isspace (c : ascii) : bool :=
  let n := ord c in between 9 13 n || (n =? 32) || (n =? 160).

Definition js_trim (s : text) : text := strip_by js_isspace s.

End GuiGenerator.

(** ** core/colab_manager.py: the calls to the backend *)

Module ColabManager.

(** What can be raised inside the adapter: the two [requests] exceptions
    the code names, and any other [Exception], each with its [str(e)]. *)
Inductive exception :=
| Timeout (msg : text)
| ConnectionError (msg : text)
| OtherException (msg : text).

Definition str_of_exception (e : exception) : text :=
  match e with
  | Timeout msg | ConnectionError msg | OtherException msg => msg
  end.

(** A computation that returns or raises, with [try ... except]. *)
Definition comp (A : Type) := (exception + A)%type.

Definition try_except {A} (body : comp A) (handler : exception -> comp A) : comp A :=
  match body with
  | inl e => handler e
  | inr a => inr a
  end.

(** The response of the backend: its status code and what [response.json()]
    does, which is to return a value or to raise. *)
Record response := mkResponse {
  status_code : Z;
  json : comp value
}.

Definition failure (message : text) : value :=
  VDict [(txt "success", VBool false); (txt "message", VStr message)].

Definition uuml : ascii := chr 252.

Section Adapter.

(** [requests.get(url, timeout=...)] and [requests.post(url, json=...,
    timeout=...)]: the network decides what they do. *)
Variable requests_get : text -> Z -> comp response.
Variable requests_post : text -> value -> Z -> comp response.

(** [self.api_url] *)
Variable api_url : text.

(** [type(v).__name__] *)
Definition type_name (v : value) : text :=
  match v with
  | VNone => txt "NoneType"
  | VBool _ => txt "bool"
  | VInt _ => txt "int"
  | VFloat _ => txt "float"
  | VStr _ => txt "str"
  | VList _ => txt "list"
  | VDict _ => txt "dict"
  end.

(** [data.get(key, default)] on the decoded body; only a dict has [get],
    on anything else the attribute lookup raises [AttributeError]. *)
Definition data_get (data : value) (key : string) (default : text) : comp value :=
  match data with
  | VDict items =>
      match dict_get (txt key) items with
      | Some v => inr v
      | None => inr (VStr default)
      end
  | _ =>
      inl (OtherException
             (txt "'" ++ type_name data ++ txt "' object has no attribute 'get'"))
  end.

Definition check_connection : comp value :=
  match api_url with
  | [] => inr (failure (txt "Keine API-URL konfiguriert"))
  | _ :: _ =>
      try_except
        (match requests_get (api_url ++ txt "/health") 10 with
         | inl e => inl e
         | inr response =>
             if (status_code response =? 200)%Z then
               match json response with
               | inl e => inl e
               | inr data =>
                   match data_get data "message" (txt "Verbindung erfolgreich!"),
                         data_get data "status" (txt "online") with
                   | inr message, inr status =>
                       inr (VDict [(txt "success", VBool true);
                                   (txt "message", message);
                                   (txt "status", status)])
                   | inl e, _ | _, inl e => inl e
                   end
               end
             else
               inr (failure (txt "Server-Fehler: Status "
                                 ++ str_of_Z (status_code response)))
         end)
        (fun e =>
           match e with
           | Timeout _ =>
               inr (failure (txt "Zeit" ++ uuml
                               :: txt "berschreitung - Server antwortet nicht"))
           | ConnectionError _ =>
               inr (failure (txt "Verbindungsfehler - URL pr" ++ uuml :: txt "fen"))
           | OtherException _ =>
               inr (failure (txt "Fehler: " ++ str_of_exception e))
           end)
  end.

Definition generate (params : value) : comp value :=
  match api_url with
  | [] => inr (failure (txt "Keine API-URL konfiguriert"))
  | _ :: _ =>
      try_except
        (match requests_post (api_url ++ txt "/generate") params 300 with
         | inl e => inl e
         | inr response =>
             if (status_code response =? 200)%Z then json response
             else inr (failure (txt "Server-Fehler: "
                                    ++ str_of_Z (status_code response)))
         end)
        (fun e =>
           match e with
           | Timeout _ =>
               inr (failure (txt "Zeit" ++ uuml
                               :: txt "berschreitung bei der Generierung"))
           | _ => inr (failure (txt "Fehler: " ++ str_of_exception e))
           end)
  end.

End Adapter.

End ColabManager.

(** ** More text primitives *)

Module PyText.

(** [s.split(sep)] for a non-empty [sep]: the pieces between the
    occurrences of [sep], taken from left to right without overlap. [cur]
    holds the piece under way (last character first), [skip] the characters
    of the separator just met that are still to be passed over. *)
Fixpoint split_from (sep : text) (skip : nat) (cur : text) (s : text) : list text :=
  match s with
  | [] => [rev cur]
  | c :: s' =>
      match skip with
      | S k => split_from sep k cur s'
      | O =>
          if startswith sep s
          then rev cur :: split_from sep (length sep - 1) [] s'
          else split_from sep 0 (c :: cur) s'
      end
  end.

Definition split (sep s : text) : list text := split_from sep 0 [] s.

(** [s.split()]: the pieces between runs of white space, none of them
    empty. *)
Fixpoint split_ws_from (cur : text) (s : text) : list text :=
  match s with
  | [] =>
      match cur with
      | [] => []
      | _ :: _ => [rev cur]
      end
  | c :: s' =>
      if isspace c
      then match cur with
           | [] => split_ws_from [] s'
           | _ :: _ => rev cur :: split_ws_from [] s'
           end
      else split_ws_from (c :: cur) s'
  end.

Definition split_ws (s : text) : list text := split_ws_from [] s.

(** [l[-1]] of a list that is not empty, [l[0]] likewise. *)
Definition last_piece (l : list text) : text := last l [].
Definition first_piece (l : list text) : text := hd [] l.

(** The truth value of a value, as [if], [and] and [or] test it. *)
Definition truthy (v : value) : bool :=
  match v with
  | VNone => false
  | VBool b => b
  | VInt z => negb (z =? 0)%Z
  | VFloat q => negb (Qeq_bool q 0)
  | VStr s => negb (length s =? 0)
  | VList l => negb (length l =? 0)
  | VDict items => negb (length items =? 0)
  end.

(** The class [\w] on the modelled characters. *)
Definition isword (c : ascii) : bool :=
  let n := ord c in
  isdigit c || between 65 90 n || (n =? 95) || between 97 122 n
  || (n =? 170) || (n =? 178) || (n =? 179) || (n =? 181) || (n =? 185) || (n =? 186)
  || between 188 190 n || between 192 214 n || between 216 246 n || between 248 255 n.

End PyText.

(** ** core/colab_manager.py: accounts, addresses and notebooks *)

Module ColabManagerState.

Import PyText.

(** The dataclass [GoogleAccount]. *)
Record GoogleAccount := mkAccount {
  email : text;
  name : text;
  profile_picture : option text;
  is_default : bool
}.

Definition with_is_default (b : bool) (acc : GoogleAccount) : GoogleAccount :=
  mkAccount (email acc) (name acc) (profile_picture acc) b.

Definition COLAB_BASE_URL : text := txt "https://colab.research.google.com".

Definition at_sign : text := txt "@".
Definition slash : text := txt "/".
Definition is_slash (c : ascii) : bool := Re.in_set "/" c.

(** [add_account]: [self.accounts] after the call. The list is changed
    before [_save_accounts] runs, so this is the list whatever happens to
    the file. *)
Definition add_account (accounts : list GoogleAccount)
    (email' name' : text) (is_default' : bool) : list GoogleAccount :=
  if existsb (fun acc => text_eqb (email acc) email') accounts
  then accounts
  else
    let accounts :=
      if is_default' then map (with_is_default false) accounts else accounts in
    accounts
      ++ [mkAccount email'
                    match name' with
                    | [] => first_piece (split at_sign email')
                    | _ :: _ => name'
                    end
                    None is_default'].

(** [get_default_account] *)
Definition get_default_account (accounts : list GoogleAccount) : option GoogleAccount :=
  match find is_default accounts with
  | Some acc => Some acc
  | None => hd_error accounts
  end.

(** [set_default_account]: [self.accounts] after the call. *)
Definition set_default_account (accounts : list GoogleAccount) (email' : text)
  : list GoogleAccount :=
  map (fun acc => with_is_default (text_eqb (email acc) email') acc) accounts.

(** [generate_colab_url]; [None] and the empty text are both false for
    [if github_url]. *)
Definition generate_colab_url (notebook_path github_url : option text) : text :=
  match github_url with
  | Some (c :: u) =>
      let github_url := c :: u in
      if contains (txt "github.com") github_url
      then replace (txt "https://github.com") (COLAB_BASE_URL ++ txt "/github") github_url
      else COLAB_BASE_URL ++ txt "/#create=true"
  | _ => COLAB_BASE_URL ++ txt "/#create=true"
  end.

(** The loop of [open_colab_in_browser] over [enumerate(self.accounts)],
    left by [break] at the first account with the address. *)
Fixpoint with_authuser (url account_email : text) (i : nat)
    (accounts : list GoogleAccount) : text :=
  match accounts with
  | [] => url
  | acc :: accounts' =>
      if text_eqb (email acc) account_email
      then
        let separator := if contains (txt "?") url then txt "&" else txt "?" in
        url ++ separator ++ txt "authuser=" ++ str_of_Z (Z.of_nat i)
      else with_authuser url account_email (S i) accounts'
  end.

(** [open_colab_in_browser]: the address handed to [webbrowser.open]. *)
Definition open_colab_in_browser (accounts : list GoogleAccount)
    (url : text) (account_email : option text) : text :=
  match account_email with
  | Some (c :: e) => with_authuser url (c :: e) 0 accounts
  | _ => url
  end.

(** [set_api_url]: the new [self.api_url] and the dict returned. *)
Definition set_api_url (url : text) : text * value :=
  let api_url := rstrip_by is_slash url in
  (api_url,
   VDict [(txt "success", VBool true);
          (txt "message", VStr (txt "API-URL gesetzt: " ++ api_url))]).

(** What [inject_api_code] can raise. *)
Inductive error :=
| KeyError
| TypeError
| AttributeError.

(** The cell [inject_api_code] builds. *)
Definition api_cell (api_code : text) : value :=
  VDict [ (txt "cell_type", VStr (txt "code"));
          (txt "execution_count", VNone);
          (txt "metadata", VDict []);
          (txt "outputs", VList []);
          (txt "source", VList (map VStr (split [Re.newline] api_code))) ].

(** The items of a dict after the value of a key it holds is replaced. *)
Fixpoint dict_replace (key : text) (v : value) (items : list (text * value))
  : list (text * value) :=
  match items with
  | [] => []
  | (k, v0) :: items' =>
      if text_eqb k key then (k, v) :: items'
      else (k, v0) :: dict_replace key v items'
  end.

(** [inject_api_code]: [notebook_json['cells'].append(api_cell)] changes the
    list the notebook holds, and the notebook is returned. Only a dict can
    be indexed by a key, and only a list has [append]. *)
Definition inject_api_code (notebook_json : value) (api_code : text)
  : error + value :=
  match notebook_json with
  | VDict items =>
      match dict_get (txt "cells") items with
      | None => inl KeyError
      | Some (VList cells) =>
          inr (VDict (dict_replace (txt "cells")
                                   (VList (cells ++ [api_cell api_code])) items))
      | Some _ => inl AttributeError
      end
  | _ => inl TypeError
  end.

(** The address [download_notebook_from_github] fetches. *)
Definition raw_url (github_url : text) : text :=
  if contains (txt "github.com") github_url && contains (txt "/blob/") github_url
  then
    let raw_url := replace (txt "github.com") (txt "raw.githubusercontent.com")
                           github_url in
    replace (txt "/blob/") (txt "/") raw_url
  else github_url.

(** What [download_notebook_from_github] can raise: what [requests.get] or
    [response.json()] raise, and the [HTTPError] of [raise_for_status] for a
    status from 400 to 599. *)
Inductive download_error :=
| Network (e : ColabManager.exception)
| HTTPError (status : Z).

Definition raise_for_status (r : ColabManager.response) : bool :=
  (400 <=? ColabManager.status_code r)%Z && (ColabManager.status_code r <? 600)%Z.

Definition download_notebook_from_github
    (requests_get : text -> Z -> ColabManager.comp ColabManager.response)
    (github_url : text) : download_error + value :=
  match requests_get (raw_url github_url) 30%Z with
  | inl e => inl (Network e)
  | inr response =>
      if raise_for_status response
      then inl (HTTPError (ColabManager.status_code response))
      else match ColabManager.json response with
           | inl e => inl (Network e)
           | inr notebook => inr notebook
           end
  end.

End ColabManagerState.

(** ** core/colab_manager.py: the class ColabAPI *)

Module ColabAPI.

Import PyText ColabManager.

Definition bytes := list ascii.

(** [result.get(key)] on what the manager returned; on anything but a dict
    the attribute lookup raises. *)
Definition result_get (result : value) (key : string) : comp (option value) :=
  match result with
  | VDict items => inr (dict_get (txt key) items)
  | _ =>
      inl (OtherException
             (txt "'" ++ type_name result ++ txt "' object has no attribute 'get'"))
  end.

Definition option_truthy (v : option value) : bool :=
  match v with
  | Some v => truthy v
  | None => false
  end.

Section Generate.

(** [base64.b64decode] on a text, which returns bytes or raises; on a value
    that is not a text it raises. *)
Variable b64decode : text -> comp bytes.

Definition decode_image (image : value) : comp bytes :=
  match image with
  | VStr s => b64decode s
  | _ =>
      inl (OtherException
             (txt "argument should be a bytes-like object or ASCII string, not '"
                  ++ type_name image ++ txt "'"))
  end.

(** [ColabAPI.generate], given what [self.manager.generate(params)] did and
    [self.last_image_data]: the dict returned and the new
    [last_image_data], or what is raised. *)
Definition generate (manager_generate : comp value) (last_image_data : option bytes)
  : comp (value * option bytes) :=
  match manager_generate with
  | inl e => inl e
  | inr result =>
      match result_get result "success" with
      | inl e => inl e
      | inr success =>
          if option_truthy success
          then
            match result_get result "image" with
            | inl e => inl e
            | inr (Some image) =>
                if truthy image
                then match decode_image image with
                     | inl e => inl e
                     | inr data => inr (result, Some data)
                     end
                else inr (result, last_image_data)
            | inr None => inr (result, last_image_data)
            end
          else inr (result, last_image_data)
      end
  end.

End Generate.

End ColabAPI.

(** ** core/theme_manager.py: the mode and the effective theme *)

Module ThemeManager.

Inductive ThemeMode := LIGHT | DARK | AUTO.

Definition ThemeMode_value (m : ThemeMode) : text :=
  match m with
  | LIGHT => txt "light"
  | DARK => txt "dark"
  | AUTO => txt "auto"
  end.

(** What the system says when asked: the platform, and the registry value
    [AppsUseLightTheme] or [None] when reading it raises. *)
Record system := mkSystem {
  is_win32 : bool;
  apps_use_light_theme : option Z
}.

(** [detect_system_theme] *)
Definition detect_system_theme (sys : system) : ThemeMode :=
  if is_win32 sys then
    match apps_use_light_theme sys with
    | Some value => if (value =? 1)%Z then LIGHT else DARK
    | None => DARK
    end
  else DARK.

(** [get_current_theme] *)
Definition get_current_theme (sys : system) (current_mode : ThemeMode) : ThemeMode :=
  match current_mode with
  | AUTO => detect_system_theme sys
  | _ => current_mode
  end.

(** [set_mode]: the new [current_mode]. The mode is assigned before the
    preferences are saved and the listeners told, so this is the mode
    whatever happens then. *)
Definition set_mode (mode : ThemeMode) : ThemeMode := mode.

(** [toggle]: the new [current_mode]. *)
Definition toggle (sys : system) (current_mode : ThemeMode) : ThemeMode :=
  let current := get_current_theme sys current_mode in
  match current with
  | DARK => set_mode LIGHT
  | _ => set_mode DARK
  end.

(** [get_colors]: whether the colours are those of [DARK_THEME]. *)
Definition uses_dark_colors (sys : system) (current_mode : ThemeMode) : bool :=
  match get_current_theme sys current_mode with
  | DARK => true
  | _ => false
  end.

(** [EnhancedColabAPI.set_theme] of main.py: the new mode and the dict
    returned. [save_error] is the text of the exception [set_mode] raises
    while it saves, if it raises one. *)
Definition api_set_theme (save_error : option text) (theme : text)
  : ThemeMode * value :=
  let mode :=
    if text_eqb theme (txt "dark") then set_mode DARK
    else if text_eqb theme (txt "light") then set_mode LIGHT
    else set_mode AUTO in
  (mode,
   match save_error with
   | None => VDict [(txt "success", VBool true); (txt "theme", VStr theme)]
   | Some message =>
       VDict [(txt "success", VBool false); (txt "message", VStr message)]
   end).

(** [EnhancedColabAPI.get_theme] of main.py *)
Definition api_get_theme (sys : system) (current_mode : ThemeMode) : text :=
  ThemeMode_value (get_current_theme sys current_mode).

End ThemeManager.

(** ** core/notebook_parser.py: packages and notebooks from an address *)

Module NotebookLoading.

Import Re PyText NotebookParser.

Definition is_version_mark (c : ascii) : bool := in_set "<>=!" c.

(** [[<>=!].*] and [^import\s+(\w+)|^from\s+(\w+)], the second one under
    [re.MULTILINE]. *)
Definition version_tail : regex := Seq (Cls is_version_mark) (Rep 0 any_char).
Definition import_line : regex :=
  Alt (seq [Bol; lit "import"; Rep 1 isspace; Grp 1 (Rep 1 isword)])
      (seq [Bol; lit "from"; Rep 1 isspace; Grp 2 (Rep 1 isword)]).

(** One word of an install line, cleaned. *)
Definition clean_package (pkg : text) : text :=
  let pkg := sub false version_tail [] pkg in
  strip pkg.

(** The packages an install line adds to the set. *)
Definition line_packages (m : rmatch) : list text :=
  filter (fun pkg => negb (length pkg =? 0) && negb (startswith (txt "-") pkg))
         (map clean_package (split_ws (group 1 m))).

(** [match.group(1) or match.group(2)], kept when it is not empty. *)
Definition import_packages (m : rmatch) : list text :=
  let pkg := match group 1 m with
             | [] => group 2 m
             | _ :: _ => group 1 m
             end in
  match pkg with
  | [] => []
  | _ :: _ => [pkg]
  end.

(** The calls of [packages.add], in order. *)
Definition packages_added (code : text) : list text :=
  flat_map line_packages (finditer false pip_install code)
  ++ flat_map line_packages (finditer false pip3_install code)
  ++ flat_map import_packages (finditer false import_line code).

Section Packages.

(** [list(packages)]: the elements of the set, each once, in the order in
    which Python walks the set. *)
Variable list_of_set : list text -> list text.

(** [_detect_packages] *)
Definition _detect_packages (code : text) : list text :=
  list_of_set (packages_added code).

End Packages.

(** What [parse_url] can raise: what the download raises, and what the
    analysis raises. *)
Inductive parse_url_error :=
| Download (e : ColabManagerState.download_error)
| Analysis (e : exc).

(** [parse_url], [requests.get] given. *)
Definition parse_url
    (requests_get : text -> Z -> ColabManager.comp ColabManager.response)
    (url : text) : parse_url_error + NotebookAnalysis :=
  let url :=
    if contains (txt "github.com") url && contains (txt "/blob/") url
    then replace (txt "/blob/") (txt "/")
                 (replace (txt "github.com") (txt "raw.githubusercontent.com") url)
    else url in
  match requests_get url 30%Z with
  | inl e => inl (Download (ColabManagerState.Network e))
  | inr response =>
      if ColabManagerState.raise_for_status response
      then inl (Download (ColabManagerState.HTTPError (ColabManager.status_code response)))
      else
        match ColabManager.json response with
        | inl e => inl (Download (ColabManagerState.Network e))
        | inr notebook =>
            let filename := last_piece (split (txt "/") url) in
            match _analyze_notebook notebook filename with
            | Ok analysis => inr analysis
            | Raise e => inl (Analysis e)
            end
        end
  end.

End NotebookLoading.

(** ** core/gui_generator.py: the badge of the model *)

Module GuiGeneratorBadge.

Import NotebookParser.

Definition badges : list (text * text) :=
  [ (txt "stable_diffusion", txt "Stable Diffusion");
    (txt "sdxl", txt "SDXL");
    (txt "flux", txt "FLUX");
    (txt "controlnet", txt "ControlNet");
    (txt "diffusers", txt "Diffusers");
    (txt "transformers", txt "Transformers") ].

Fixpoint badges_get (key : text) (table : list (text * text)) (default : text) : text :=
  match table with
  | [] => default
  | (k, v) :: table' => if text_eqb k key then v else badges_get key table' default
  end.

Definition _get_model_badge (analysis : NotebookAnalysis) : text :=
  badges_get (model_type analysis) badges (txt "KI-Modell").

End GuiGeneratorBadge.

(** * Properties *)

(** ** The primitives on sample inputs *)

Section Samples.

Import Re NotebookParser.

Definition lines (ls : list string) : text := join [newline] (map txt ls).

Example sanitize_label :
  _sanitize_name (txt "  My  Prompt!! (v2) ") = txt "my_prompt_v2"
  /\ _sanitize_name (txt "Guidance Scale (CFG)") = txt "guidance_scale_cfg"
  /\ _sanitize_name (txt "__a__b__") = txt "a_b"
  /\ _sanitize_name (txt "H" ++ ouml :: txt "he") = txt "h_he"
  /\ _sanitize_name (txt "!!!") = [].
Proof. repeat split; reflexivity. Qed.

Example title_of_file_name :
  filename_title (txt "my_cool-notebook.ipynb") = txt "My Cool Notebook"
  /\ filename_title (txt "it's a 3d-model x2y.ipynb") = txt "It'S A 3D Model X2Y".
Proof. split; reflexivity. Qed.

Example heading_and_prose :
  h1_of (lines ["intro"; "# Title here  "; "more"]%string) = Some (txt "Title here")
  /\ h1_of (lines ["#"; EmptyString; "foo"]%string) = Some (txt "foo")
  /\ h1_of (txt "#  ") = Some []
  /\ h1_of (txt "## Section") = None
  /\ prose_of (lines ["# T"; EmptyString; "Some text"; "## Sub"; "more"]%string)
     = lines ["Some text"; EmptyString; "more"]%string.
Proof. repeat split; reflexivity. Qed.

Example assignment_matches :
  option_map (group 1) (search false height_var (txt "width = 768")) = Some (txt "768")
  /\ option_map m_text (search false width_var (txt "show = 3 width = 768"))
     = Some (txt "w = 3")
  /\ option_map (group 1) (search false seed_var (txt "seed = -42")) = Some (txt "-42")
  /\ search false width_var (txt "Width = 768") = None.
Proof. repeat split; reflexivity. Qed.

Example constructor_matches :
  map (fun m => (m_start m, group 1 m, group 2 m, group 3 m))
      (finditer false gradio_slider
         (txt "gr.Slider(minimum=1, maximum=10, label='A b') gr.Slider(minimum=2,maximum=30,value=3,label='C')"))
  = [ (0, txt "1", txt "10", txt "A b"); (46, txt "2", txt "30", txt "C") ]
  /\ map (group 1)
         (finditer false gradio_textbox
            (lines ["gr.Textbox(label='a') x gr.Textbox (lines=3,";
                    " label = 'b c')"]%string))
     = [txt "a"; txt "b c"].
Proof. split; vm_compute; reflexivity. Qed.

Example conversions :
  float (txt "7.5") = Ok 7.5%Q /\ float (txt ".5") = Ok 0.5%Q
  /\ float (txt ".") = Raise ValueError /\ float (txt "1.2.3") = Raise ValueError
  /\ int (txt "768") = Ok 768%Z /\ str_of_Z 404 = txt "404".
Proof. repeat split; reflexivity. Qed.

End Samples.

(** ** Text *)

Lemma text_eqb_eq a b : text_eqb a b = true <-> a = b.
Proof.
  unfold text_eqb. destruct (list_eq_dec ascii_dec a b); split; congruence.
Qed.

Lemma text_eqb_refl a : text_eqb a a = true.
Proof. now apply text_eqb_eq. Qed.

Lemma text_eqb_neq a b : text_eqb a b = false <-> a <> b.
Proof.
  unfold text_eqb. destruct (list_eq_dec ascii_dec a b); split; congruence.
Qed.

Section Strip.

Variable p : ascii -> bool.

(** What [lstrip_by] removes is a run of characters of the set, and what it
    leaves does not start with one. *)
Lemma lstrip_by_split s :
  exists pre, s = pre ++ lstrip_by p s /\ forallb p pre = true.
Proof.
  induction s as [|c s IH]; simpl.
  - exists []. auto.
  - destruct (p c) eqn:Hc.
    + destruct IH as [pre [E F]]. exists (c :: pre). simpl.
      rewrite Hc, F. split; [now f_equal|reflexivity].
    + exists []. auto.
Qed.

Definition starts_clean (s : text) : Prop :=
  match s with
  | [] => True
  | c :: _ => p c = false
  end.

Definition ends_clean (s : text) : Prop := starts_clean (rev s).

Lemma lstrip_by_clean s : starts_clean (lstrip_by p s).
Proof.
  induction s as [|c s IH]; simpl; auto.
  destruct (p c) eqn:Hc; simpl; auto.
Qed.

Lemma lstrip_by_id s : starts_clean s -> lstrip_by p s = s.
Proof. destruct s as [|c s]; simpl; auto. now intros ->. Qed.

Lemma rstrip_by_split s :
  exists suf, s = rstrip_by p s ++ suf /\ forallb p suf = true.
Proof.
  unfold rstrip_by. destruct (lstrip_by_split (rev s)) as [pre [E F]].
  exists (rev pre). split.
  - rewrite <- rev_app_distr, <- E. now rewrite rev_involutive.
  - rewrite forallb_forall in *. intros x Hx. apply F. now apply in_rev.
Qed.

Lemma rstrip_by_clean s : ends_clean (rstrip_by p s).
Proof.
  unfold ends_clean, rstrip_by. rewrite rev_involutive. apply lstrip_by_clean.
Qed.

Lemma rstrip_by_id s : ends_clean s -> rstrip_by p s = s.
Proof.
  unfold ends_clean, rstrip_by. intros H.
  rewrite lstrip_by_id by assumption. apply rev_involutive.
Qed.

(** Removing a suffix keeps a clean start. *)
Lemma rstrip_by_keeps_start s : starts_clean s -> starts_clean (rstrip_by p s).
Proof.
  intros H. destruct (rstrip_by_split s) as [suf [E F]].
  destruct (rstrip_by p s) as [|c r] eqn:R; simpl; auto.
  destruct s as [|c' s']; [discriminate|].
  simpl in E. injection E as -> _. exact H.
Qed.

Lemma strip_by_clean s : starts_clean (strip_by p s) /\ ends_clean (strip_by p s).
Proof.
  unfold strip_by. split.
  - apply rstrip_by_keeps_start, lstrip_by_clean.
  - apply rstrip_by_clean.
Qed.

Lemma strip_by_id s : starts_clean s -> ends_clean s -> strip_by p s = s.
Proof.
  intros H1 H2. unfold strip_by. rewrite lstrip_by_id by assumption.
  now apply rstrip_by_id.
Qed.

(** What [strip_by] returns lies inside its argument. *)
Lemma strip_by_split s :
  exists pre suf, s = pre ++ strip_by p s ++ suf.
Proof.
  unfold strip_by.
  destruct (lstrip_by_split s) as [pre [E _]].
  destruct (rstrip_by_split (lstrip_by p s)) as [suf [E' _]].
  exists pre, suf. now rewrite <- E', <- E.
Qed.

End Strip.

(** ** The matcher on single classes *)

Section ClassPatterns.

Import Re.

Variable ignorecase : bool.
Variable p : ascii -> bool.

Lemma lstrip_by_length s : length (lstrip_by p s) <= length s.
Proof.
  induction s as [|c s IH]; simpl; auto.
  destruct (p c); simpl; lia.
Qed.

(** The length of the run of class characters a text starts with. *)
Definition run_length (s : text) : nat := length s - length (lstrip_by p s).

Lemma run_length_cons_in c s : p c = true -> run_length (c :: s) = S (run_length s).
Proof.
  intros H. unfold run_length. cbn [lstrip_by]. rewrite H. cbn [length].
  pose proof (lstrip_by_length s). lia.
Qed.

Lemma run_length_cons_out c s : p c = false -> run_length (c :: s) = 0.
Proof. intros H. unfold run_length. cbn [lstrip_by]. rewrite H. lia. Qed.

Lemma try_at_Cls sn rs :
  try_at ignorecase (Cls p) sn rs =
  match rs with
  | x :: _ => if p x then Some (Match (length sn) [x] []) else None
  | [] => None
  end.
Proof.
  unfold try_at. simpl. unfold step1. simpl.
  destruct rs as [|x rs]; [reflexivity|].
  destruct (p x); [|reflexivity].
  unfold consumed. simpl rest.
  replace (length (x :: rs) - length rs) with 1 by (cbn [length]; lia).
  reflexivity.
Qed.

(** The greedy run is tried first. *)
Lemma rep_run_head rs : forall sn,
  exists sn' tl, rep_run p sn rs = (sn', lstrip_by p rs) :: tl.
Proof.
  induction rs as [|x rs IH]; intros sn; simpl.
  - now exists sn, [].
  - destruct (p x).
    + destruct (IH (x :: sn)) as [sn' [tl E]]. rewrite E.
      now exists sn', (tl ++ [(sn, x :: rs)]).
    + now exists sn, [].
Qed.

Lemma try_at_Rep1 sn rs :
  try_at ignorecase (Rep 1 p) sn rs =
  match rs with
  | x :: _ =>
      if p x then Some (Match (length sn) (firstn (run_length rs) rs) []) else None
  | [] => None
  end.
Proof.
  unfold try_at. simpl.
  destruct rs as [|x rs]; [reflexivity|].
  destruct (p x) eqn:Hx; [|reflexivity].
  destruct (rep_run_head rs (x :: sn)) as [sn' [tl E]]. rewrite E. simpl.
  unfold consumed, run_length. simpl. now rewrite Hx.
Qed.

(** [re.sub] of a class by one character maps the text. *)
Lemma sub_from_Cls u rs : forall sn,
  sub_from ignorecase (Cls p) [u] 0 sn rs = map (fun c => if p c then u else c) rs.
Proof.
  induction rs as [|x rs IH]; intros sn.
  - reflexivity.
  - simpl sub_from. rewrite try_at_Cls.
    destruct (p x) eqn:Hx; simpl; rewrite ?Hx, IH; reflexivity.
Qed.

(** [re.sub] of the runs of a class by one character: [squeeze false]
    rewrites a text, [squeeze true] what follows a character of the class. *)
Fixpoint squeeze (u : ascii) (in_run : bool) (s : text) : text :=
  match s with
  | [] => []
  | c :: s' =>
      if p c
      then if in_run then squeeze u true s' else u :: squeeze u true s'
      else c :: squeeze u false s'
  end.

Lemma sub_from_Rep1 u rs : forall sn,
  sub_from ignorecase (Rep 1 p) [u] 0 sn rs = squeeze u false rs
  /\ sub_from ignorecase (Rep 1 p) [u] (run_length rs) sn rs = squeeze u true rs.
Proof.
  induction rs as [|x rs IH]; intros sn.
  - split; reflexivity.
  - destruct (IH (x :: sn)) as [IH0 IHk].
    destruct (p x) eqn:Hx.
    + split.
      * simpl sub_from. rewrite try_at_Rep1, Hx. simpl m_text.
        rewrite (run_length_cons_in _ _ Hx). simpl firstn.
        rewrite length_cons, firstn_length_le.
        2:{ unfold run_length. lia. }
        simpl. rewrite Hx. replace (run_length rs - 0) with (run_length rs) by lia.
        now rewrite IHk.
      * rewrite (run_length_cons_in _ _ Hx). simpl. now rewrite Hx, IHk.
    + assert (E : sub_from ignorecase (Rep 1 p) [u] 0 sn (x :: rs)
                  = squeeze u false (x :: rs)).
      { simpl sub_from. rewrite try_at_Rep1, Hx. simpl. now rewrite Hx, IH0. }
      split; [exact E|].
      rewrite (run_length_cons_out _ _ Hx), E. simpl. now rewrite Hx.
Qed.

End ClassPatterns.

(** ** Squeezed texts *)

Section Squeeze.

Variable p : ascii -> bool.
Variable u : ascii.
Hypothesis p_is_u : forall c, p c = true -> c = u.

(** No two characters of the class in a row. *)
Fixpoint no_double (s : text) : Prop :=
  match s with
  | [] => True
  | c :: s' => (p c = true -> starts_clean p s') /\ no_double s'
  end.

Lemma no_double_app_r a b : no_double (a ++ b) -> no_double b.
Proof. induction a as [|c a IH]; simpl; [auto|]. intros [_ H]. auto. Qed.

Lemma no_double_app_l a b : no_double (a ++ b) -> no_double a.
Proof.
  induction a as [|c a IH]; simpl; [auto|].
  intros [H1 H2]. split; [|auto].
  intros Hc. specialize (H1 Hc). destruct a; simpl in *; auto.
Qed.

Lemma squeeze_no_double s :
  no_double (squeeze p u false s)
  /\ no_double (squeeze p u true s) /\ starts_clean p (squeeze p u true s).
Proof.
  induction s as [|c s [IH0 [IH1 IH2]]]; simpl; [auto|].
  destruct (p c) eqn:Hc; simpl; repeat split; auto.
  all: intros H; congruence.
Qed.

Lemma squeeze_id s :
  no_double s ->
  squeeze p u false s = s /\ (starts_clean p s -> squeeze p u true s = s).
Proof.
  induction s as [|c s IH]; simpl; [auto|].
  intros [H1 H2]. destruct (IH H2) as [IH0 IH1].
  destruct (p c) eqn:Hc.
  - split; [|congruence].
    rewrite (p_is_u _ Hc) in *. f_equal. auto.
  - split; intros; now rewrite IH0.
Qed.

End Squeeze.

(** ** C9: the sanitizer *)

Section Sanitizer.

Import NotebookParser.

Definition to_name_char (c : ascii) : ascii :=
  if negb (is_name_char c) then "_"%char else c.

(** [_sanitize_name] stage by stage. *)
Lemma sanitize_name_stages label :
  _sanitize_name label =
  strip_by is_underscore
    (squeeze is_underscore "_" false (map to_name_char (lower label))).
Proof.
  unfold _sanitize_name, Re.sub.
  change (txt "_") with ["_"%char].
  rewrite sub_from_Cls.
  destruct (sub_from_Rep1 false is_underscore "_"%char
              (map to_name_char (lower label)) []) as [E _].
  unfold to_name_char in *. now rewrite E.
Qed.

Lemma is_underscore_eq c : is_underscore c = true -> c = "_"%char.
Proof.
  destruct c as [[] [] [] [] [] [] [] []]; vm_compute; congruence.
Qed.

Lemma name_char_lower c : is_name_char c = true -> lower_char c = c.
Proof.
  destruct c as [[] [] [] [] [] [] [] []]; vm_compute; congruence.
Qed.

Lemma to_name_char_ok c : is_name_char (to_name_char c) = true.
Proof.
  unfold to_name_char. destruct (is_name_char c) eqn:H; simpl; auto.
Qed.

Lemma to_name_char_id c : is_name_char c = true -> to_name_char c = c.
Proof. unfold to_name_char. now intros ->. Qed.

Lemma squeeze_name_chars b s :
  forallb is_name_char s = true ->
  forallb is_name_char (squeeze is_underscore "_" b s) = true.
Proof.
  revert b. induction s as [|c s IH]; simpl; intros b H; [auto|].
  apply andb_true_iff in H as [Hc Hs].
  destruct (is_underscore c), b; simpl; rewrite ?Hc, IH; auto.
Qed.

(** A sanitized name: name characters only, no two underscores in a row,
    no underscore at either end. *)
Definition sanitized (s : text) : Prop :=
  forallb is_name_char s = true
  /\ no_double is_underscore s
  /\ starts_clean is_underscore s
  /\ ends_clean is_underscore s.

Lemma sanitize_name_sanitized label : sanitized (_sanitize_name label).
Proof.
  rewrite sanitize_name_stages.
  set (mapped := map to_name_char (lower label)).
  set (squeezed := squeeze is_underscore "_" false mapped).
  assert (Hm : forallb is_name_char mapped = true).
  { apply forallb_forall. intros x Hx. apply in_map_iff in Hx as [y [<- _]].
    apply to_name_char_ok. }
  assert (Hq : forallb is_name_char squeezed = true)
    by now apply squeeze_name_chars.
  assert (Hd : no_double is_underscore squeezed)
    by apply (squeeze_no_double is_underscore "_" mapped).
  destruct (strip_by_split is_underscore squeezed) as [pre [suf E]].
  destruct (strip_by_clean is_underscore squeezed) as [Hs He].
  repeat split; auto.
  - rewrite E, !forallb_app in Hq.
    apply andb_true_iff in Hq as [_ Hq]. now apply andb_true_iff in Hq as [Hq _].
  - rewrite E in Hd. apply no_double_app_r in Hd. now apply no_double_app_l in Hd.
Qed.

(** A sanitized name is a fixed point of the sanitizer. *)
Lemma sanitize_name_fixed s : sanitized s -> _sanitize_name s = s.
Proof.
  intros [Hc [Hd [Hs He]]]. rewrite sanitize_name_stages.
  assert (El : lower s = s).
  { unfold lower. rewrite <- (map_id s) at 2. apply map_ext_in.
    intros c Hin. apply name_char_lower.
    rewrite forallb_forall in Hc. auto. }
  assert (Em : map to_name_char s = s).
  { rewrite <- (map_id s) at 2. apply map_ext_in.
    intros c Hin. apply to_name_char_id.
    rewrite forallb_forall in Hc. auto. }
  rewrite El, Em.
  destruct (squeeze_id is_underscore "_"%char is_underscore_eq s Hd) as [-> _].
  now apply strip_by_id.
Qed.

(** C9. The name sanitizer is idempotent: sanitizing a sanitized name gives
    it back unchanged, for every label. *)
Theorem sanitize_name_idempotent (label : text) :
  NotebookParser._sanitize_name (NotebookParser._sanitize_name label)
  = NotebookParser._sanitize_name label.
Proof. apply sanitize_name_fixed, sanitize_name_sanitized. Qed.

End Sanitizer.

(** ** C7: model-family classification *)

Section ModelFamily.

Import NotebookParser.

(** The closed enumeration of model families. *)
Definition model_families : list text :=
  map txt ["stable_diffusion"; "sdxl"; "flux"; "controlnet"; "diffusers";
           "transformers"; "unknown"]%string.

(** The ladder, as a list of tests in the order of their priority. *)
Definition family_ladder : list ((text -> bool) * text) :=
  [ (Re.found true flux, txt "flux");
    (Re.found true sdxl, txt "sdxl");
    (Re.found true controlnet, txt "controlnet");
    (Re.found true stable_diffusion, txt "stable_diffusion");
    (fun code => contains (txt "diffusers") (lower code), txt "diffusers");
    (fun code => contains (txt "transformers") (lower code), txt "transformers") ].

Fixpoint first_family (ladder : list ((text -> bool) * text)) (code : text) : text :=
  match ladder with
  | [] => txt "unknown"
  | (test, family) :: ladder' =>
      if test code then family else first_family ladder' code
  end.

Lemma first_family_in ladder code :
  In (first_family ladder code) (txt "unknown" :: map snd ladder).
Proof.
  induction ladder as [|[test family] ladder IH]; simpl; [auto|].
  destruct (test code); [auto|].
  destruct IH as [IH|IH]; auto.
Qed.

(** C7. For every text the classification is defined and is the family of
    the first rung of the ladder whose test holds, [unknown] when none
    does; it is one of the seven enumerated values, which are distinct. *)
Theorem detect_model_type_total (code : text) :
  NotebookParser._detect_model_type code = first_family family_ladder code
  /\ In (NotebookParser._detect_model_type code) model_families
  /\ NoDup model_families
  /\ length model_families = 7.
Proof.
  assert (E : _detect_model_type code = first_family family_ladder code)
    by reflexivity.
  split; [exact E|]. split; [|split].
  - rewrite E.
    pose proof (first_family_in family_ladder code) as H.
    simpl in H. unfold model_families. simpl.
    intuition.
  - unfold model_families.
    repeat (constructor; [vm_compute; intuition discriminate|]).
    constructor.
  - reflexivity.
Qed.

Example family_priority :
  _detect_model_type (txt "pipe = FluxPipeline(...)  # not sdxl") = txt "flux"
  /\ _detect_model_type (txt "stabilityai/Stable-Diffusion-XL-base-1.0") = txt "sdxl"
  /\ _detect_model_type (txt "ControlNetModel with runwayml weights") = txt "controlnet"
  /\ _detect_model_type (txt "from diffusers import CompVis") = txt "stable_diffusion"
  /\ _detect_model_type (txt "from Diffusers import DDPMPipeline") = txt "diffusers"
  /\ _detect_model_type (txt "import transformers") = txt "transformers"
  /\ _detect_model_type (txt "import numpy") = txt "unknown".
Proof. repeat split; reflexivity. Qed.

End ModelFamily.

(** ** C8: the transport adapter *)

Section Transport.

Import ColabManager.

(** The failures of the transport: a timeout, a failed connection, or a
    response whose status is not 2xx. *)
Definition transport_failure (outcome : comp response) : bool :=
  match outcome with
  | inl (Timeout _) => true
  | inl (ConnectionError _) => true
  | inl (OtherException _) => false
  | inr r => negb ((200 <=? status_code r)%Z && (status_code r <? 300)%Z)
  end.

(** Whatever the network does, [generate] returns a value: every exception
    raised inside the [try] is handled. *)
Lemma generate_returns requests_post api_url params :
  exists v, generate requests_post api_url params = inr v.
Proof.
  unfold generate. destruct api_url as [|c url]; [eauto|].
  destruct (requests_post _ _ _) as [[m|m|m]|r]; simpl; eauto.
  destruct (status_code r =? 200)%Z; simpl; eauto.
  destruct (json r) as [[m|m|m]|v]; simpl; eauto.
Qed.

Lemma check_connection_returns requests_get api_url :
  exists v, check_connection requests_get api_url = inr v.
Proof.
  unfold check_connection. destruct api_url as [|c url]; [eauto|].
  destruct (requests_get _ _) as [[m|m|m]|r]; simpl; eauto.
  destruct (status_code r =? 200)%Z; simpl; eauto.
  destruct (json r) as [[m|m|m]|v]; simpl; eauto.
  destruct (data_get v "message" _) as [[m|m|m]|v1]; simpl; eauto;
    destruct (data_get v "status" _) as [[m'|m'|m']|v2]; simpl; eauto.
Qed.

(** C8. When the call to the backend times out, cannot connect, or is
    answered with a status that is not 2xx, [generate] returns the
    structured failure [{success: False, message: m}] with [m] not empty;
    it returns, and raises nothing. *)
Theorem generate_transport_failure
    (requests_post : text -> value -> Z -> comp response)
    (api_url : text) (params : value) :
  transport_failure (requests_post (api_url ++ txt "/generate") params 300%Z) = true ->
  exists message,
    ColabManager.generate requests_post api_url params = inr (failure message)
    /\ message <> [].
Proof.
  intros H. unfold generate. destruct api_url as [|c url].
  - eexists. split; [reflexivity|discriminate].
  - destruct (requests_post _ _ _) as [[m|m|m]|r]; simpl in *.
    + eexists. split; [reflexivity|discriminate].
    + eexists. split; [reflexivity|discriminate].
    + discriminate.
    + destruct (status_code r =? 200)%Z eqn:E.
      * apply Z.eqb_eq in E. rewrite E in H. discriminate.
      * eexists. split; [reflexivity|discriminate].
Qed.

(** The health check fails in the same way, with its own messages. *)
Lemma check_connection_transport_failure
    (requests_get : text -> Z -> comp response) (api_url : text) :
  transport_failure (requests_get (api_url ++ txt "/health") 10%Z) = true ->
  exists message,
    check_connection requests_get api_url = inr (failure message) /\ message <> [].
Proof.
  intros H. unfold check_connection. destruct api_url as [|c url].
  - eexists. split; [reflexivity|discriminate].
  - destruct (requests_get _ _) as [[m|m|m]|r]; simpl in *.
    + eexists. split; [reflexivity|discriminate].
    + eexists. split; [reflexivity|discriminate].
    + discriminate.
    + destruct (status_code r =? 200)%Z eqn:E.
      * apply Z.eqb_eq in E. rewrite E in H. discriminate.
      * eexists. split; [reflexivity|discriminate].
Qed.

(** A backend that never answers in time. *)
Definition timing_out (_ : text) (_ : value) (_ : Z) : comp response :=
  inl (Timeout (txt "Read timed out."))%type.

Lemma generate_transport_failure_witness :
  transport_failure
    (timing_out (txt "https://example.ngrok.io" ++ txt "/generate") (VDict []) 300%Z)
  = true
  /\ exists message,
       ColabManager.generate timing_out (txt "https://example.ngrok.io") (VDict [])
       = inr (failure message)
       /\ message <> [].
Proof.
  split; [reflexivity|].
  apply (generate_transport_failure timing_out (txt "https://example.ngrok.io")
                                    (VDict [])).
  reflexivity.
Defined.

End Transport.

(** ** C5: the collection mapping of the renderer *)

Section Collection.

Import NotebookParser GuiGenerator.

(** The assignment [params['id'] = e;] as text. *)
Definition assignment_text (id : text) (e : jsexpr) : text :=
  txt "params['" ++ id ++ txt "'] = " ++ js_print e ++ txt ";".

Lemma collection_line_rule param :
  collection_line param =
  assignment_text (name param) (collection_rule (param_type param) (name param)).
Proof.
  unfold collection_line, assignment_text.
  destruct (param_type param); cbn; rewrite <- ?app_assoc; reflexivity.
Qed.

(** What is collected for a parameter, kind by kind: the checked state for a
    checkbox, [false] without the control; the parsed value for a number or
    a slider, the parsed [0] without the control or with an empty value; the
    awaited encoding of the file input for an image; for every other kind
    the value as it stands, the empty text without the control. *)
Definition collected_by_kind (doc : document) (param : Param) : jsvalue :=
  let control := doc (name param) in
  match param_type param with
  | CHECKBOX =>
      JsBool match control with
             | Some el => checked el
             | None => false
             end
  | IMAGE => JsImageBase64 (name param ++ txt "_input")
  | SLIDER | NUMBER =>
      JsParsedFloat match control with
                    | Some el =>
                        match control_value el with
                        | [] => JsZero
                        | _ :: _ => JsString (control_value el)
                        end
                    | None => JsZero
                    end
  | _ =>
      JsString match control with
               | Some el => control_value el
               | None => []
               end
  end.

(** C5, amended. The emitted text is one assignment per parameter, in
    order, whose right-hand side is chosen by the kind alone; a checkbox
    reads the checked state and gives [false] without its control, a number
    or slider parses the value and parses [0] when it is empty, an image
    awaits the base64 encoder, and every other kind reads the value as it
    is, not trimmed, and gives the empty text by default. *)
Theorem collection_mapping_by_kind (analysis : NotebookAnalysis) :
  GuiGenerator._generate_param_collection_js analysis =
    join (Re.newline :: txt "            ")
         (map (fun param =>
                 assignment_text (name param)
                                 (collection_rule (param_type param) (name param)))
              (parameters analysis))
  /\ forall (doc : document) (param : Param),
       collect doc param = collected_by_kind doc param.
Proof.
  split.
  - unfold _generate_param_collection_js. f_equal.
    apply map_ext. intros param. apply collection_line_rule.
  - intros doc param. unfold collect, collected_by_kind.
    destruct (param_type param); simpl; unfold read_property;
      destruct (doc (name param)) as [el|]; simpl; try reflexivity;
      destruct el as [[] [|c v]]; reflexivity.
Qed.

(** A page whose prompt field holds a text with blanks around it. *)
Definition padded_document : document :=
  fun id =>
    if text_eqb id (txt "prompt")
    then Some (mkControl false (txt "  a red fox  "))
    else None.

Definition text_prompt : Param := Param_new (txt "prompt") TEXT (txt "Prompt").

(** C5 as stated fails: the value collected for a text field is the value
    of the control, blanks included, not the trimmed value. *)
Lemma collected_text_not_trimmed :
  collection_line text_prompt
  = txt "params['prompt'] = document.getElementById('prompt')?.value || '';"
  /\ collect padded_document text_prompt = JsString (txt "  a red fox  ")
  /\ js_trim (txt "  a red fox  ") = txt "a red fox"
  /\ collect padded_document text_prompt <> JsString (js_trim (txt "  a red fox  ")).
Proof.
  repeat split; try reflexivity.
  vm_compute. discriminate.
Qed.

End Collection.

(** ** Notebooks and their cells *)

Lemma bind_Ok {A B} (r : result A) (k : A -> result B) (b : B) :
  bind r k = Ok b -> exists a, r = Ok a /\ k a = Ok b.
Proof. destruct r as [a|e]; simpl; [eauto|discriminate]. Qed.

Ltac bind_inv H :=
  let a := fresh "a" in
  let E := fresh "E" in
  apply bind_Ok in H; destruct H as [a [E H]].

Section Cells.

Import NotebookParser.

(** The cell list of a notebook that has one. *)
Definition notebook_cells (notebook : value) : option (list value) :=
  match notebook with
  | VDict items =>
      match dict_get (txt "cells") items with
      | Some (VList cells) => Some cells
      | _ => None
      end
  | _ => None
  end.

Definition is_str (v : value) : bool :=
  match v with
  | VStr _ => true
  | _ => false
  end.

(** A cell as the ingestion boundary describes it: a dict whose source, if
    it has one, is a text or a list of texts. *)
Definition well_formed_cell (c : value) : bool :=
  match c with
  | VDict items =>
      match dict_get (txt "source") items with
      | None => true
      | Some (VStr _) => true
      | Some (VList lines) => forallb is_str lines
      | Some _ => false
      end
  | _ => false
  end.

Definition has_cell_type (kind : string) (c : value) : bool :=
  match c with
  | VDict items =>
      match dict_get (txt "cell_type") items with
      | Some (VStr s) => text_eqb s (txt kind)
      | _ => false
      end
  | _ => false
  end.

(** The text of a well-formed cell. *)
Definition line_text (v : value) : text :=
  match v with
  | VStr s => s
  | _ => []
  end.

Definition cell_text (c : value) : text :=
  match c with
  | VDict items =>
      match dict_get (txt "source") items with
      | Some (VStr s) => s
      | Some (VList lines) => concat (map line_text lines)
      | _ => []
      end
  | _ => []
  end.

Lemma join_lines_ok lines :
  forallb is_str lines = true -> join_lines lines = Ok (concat (map line_text lines)).
Proof.
  induction lines as [|v lines IH]; simpl; [reflexivity|].
  destruct v; simpl; try discriminate. intros H. now rewrite IH.
Qed.

Lemma cell_source_ok c :
  well_formed_cell c = true -> cell_source c = Ok (VStr (cell_text c)).
Proof.
  destruct c as [| | | | |l|items]; try discriminate.
  unfold cell_source, well_formed_cell, cell_text.
  cbn [cell_get bind].
  destruct (dict_get (txt "source") items) as [[| | | |s|lines|d]|];
    cbn [bind]; try discriminate; try reflexivity.
  intros H. rewrite join_lines_ok by exact H. reflexivity.
Qed.

Lemma cells_of_type_ok kind cells :
  forallb well_formed_cell cells = true ->
  cells_of_type kind cells = Ok (filter (has_cell_type kind) cells).
Proof.
  induction cells as [|c cells IH]; [reflexivity|].
  cbn [forallb cells_of_type filter].
  intros H. apply andb_true_iff in H as [Hc Hs]. rewrite (IH Hs).
  destruct c as [| | | | |l|items]; try discriminate.
  cbn [cell_get bind has_cell_type].
  destruct (dict_get (txt "cell_type") items) as [[| | | |s|lines|d]|];
    try reflexivity.
  destruct (text_eqb s (txt kind)); reflexivity.
Qed.

Lemma filter_well_formed f cells :
  forallb well_formed_cell cells = true ->
  forallb well_formed_cell (filter f cells) = true.
Proof.
  rewrite !forallb_forall. intros H c Hc. apply filter_In in Hc as [Hc _]. auto.
Qed.

Lemma code_sources_ok cells :
  forallb well_formed_cell cells = true ->
  (sources <- map_result cell_source cells ;; map_result as_str sources)
  = Ok (map cell_text cells).
Proof.
  induction cells as [|c cells IH]; [reflexivity|].
  cbn [forallb map_result map].
  intros H. apply andb_true_iff in H as [Hc Hs].
  rewrite (cell_source_ok c Hc). cbn [bind].
  specialize (IH Hs).
  destruct (map_result cell_source cells) as [vs|e]; cbn [bind] in *;
    [|discriminate].
  cbn [map_result as_str bind]. now rewrite IH.
Qed.

(** *** The metadata pass *)

(** The title after one more cell: its heading, when it has one. *)
Definition pick_title (title source : text) : text :=
  match h1_of source with
  | Some h => h
  | None => title
  end.

(** The cells the loop visits: those up to the first one with prose, that
    one included. *)
Fixpoint scanned (sources : list text) : list text :=
  match sources with
  | [] => []
  | s :: sources' =>
      match prose_of s with
      | [] => s :: scanned sources'
      | _ :: _ => [s]
      end
  end.

(** The description: the prose of the first cell that has some, cut at 500
    characters. *)
Fixpoint description_of (sources : list text) : text :=
  match sources with
  | [] => []
  | s :: sources' =>
      match prose_of s with
      | [] => description_of sources'
      | _ :: _ => firstn 500 (prose_of s)
      end
  end.

Lemma metadata_loop_spec cells : forall title,
  forallb well_formed_cell cells = true ->
  metadata_loop cells title []
  = Ok (fold_left pick_title (scanned (map cell_text cells)) title,
        description_of (map cell_text cells)).
Proof.
  induction cells as [|c cells IH]; intros title; [reflexivity|].
  cbn [forallb metadata_loop map scanned description_of].
  intros H. apply andb_true_iff in H as [Hc Hs].
  rewrite (cell_source_ok c Hc). cbn [bind as_str].
  fold (pick_title title (cell_text c)).
  destruct (prose_of (cell_text c)) as [|x prose] eqn:E.
  - rewrite (IH _ Hs). reflexivity.
  - reflexivity.
Qed.

(** The parts of [_analyze_notebook] on a notebook of well-formed cells. *)
Definition all_code_of (cells : list value) : text :=
  join [Re.newline] (map cell_text (filter (has_cell_type "code") cells)).

Definition markdown_sources (cells : list value) : list text :=
  map cell_text (filter (has_cell_type "markdown") cells).

Lemma analyze_notebook_well_formed notebook filename cells :
  notebook_cells notebook = Some cells ->
  forallb well_formed_cell cells = true ->
  parse_json notebook filename =
  (parameters <- _detect_parameters (all_code_of cells) ;;
   Ok (mkAnalysis
         (fold_left pick_title (scanned (markdown_sources cells))
                    (filename_title filename))
         (description_of (markdown_sources cells))
         parameters
         (_detect_outputs (all_code_of cells))
         (contains (txt "gradio") (lower (all_code_of cells))
          || contains (txt "import gr") (all_code_of cells))
         (contains (txt "flask") (lower (all_code_of cells)))
         (contains (txt "fastapi") (lower (all_code_of cells)))
         (_detect_model_type (all_code_of cells))
         (VList cells))).
Proof.
  intros Hn Hw. unfold parse_json, _analyze_notebook.
  destruct notebook as [| | | | |l|items]; try discriminate.
  unfold notebook_cells in Hn.
  destruct (dict_get (txt "cells") items) as [[| | | |s|lines|d]|];
    try discriminate.
  injection Hn as ->.
  cbn [bind iterate].
  rewrite !cells_of_type_ok by assumption. cbn [bind].
  pose proof (code_sources_ok _ (filter_well_formed (has_cell_type "code") _ Hw)) as E.
  destruct (map_result cell_source (filter (has_cell_type "code") cells))
    as [sources|e]; cbn [bind] in *; [|discriminate].
  rewrite E. cbn [bind].
  unfold _extract_metadata.
  rewrite metadata_loop_spec by now apply filter_well_formed.
  reflexivity.
Qed.

(** *** The blob of a notebook without code *)

Lemma detect_parameters_nil :
  _detect_parameters [] = Ok _get_default_image_params.
Proof. reflexivity. Qed.

Lemma detect_outputs_nil : _detect_outputs [] = [image_output].
Proof. reflexivity. Qed.

Lemma detect_model_type_nil : _detect_model_type [] = txt "unknown".
Proof. reflexivity. Qed.

End Cells.

(** ** C1, C3, C4: notebooks without code, without cells, with headings *)

Section Notebooks.

Import NotebookParser.

(** Sample cells and notebooks. *)
Definition cell (kind : string) (lines : list text) : value :=
  VDict [(txt "cell_type", VStr (txt kind)); (txt "source", VList (map VStr lines))].

Definition markdown_cell := cell "markdown".
Definition code_cell := cell "code".

Definition notebook_of (cells : list value) : value :=
  VDict [(txt "cells", VList cells)].

Definition line (s : string) : text := txt s ++ [Re.newline].

Lemma filter_none {A} (f : A -> bool) l : existsb f l = false -> filter f l = [].
Proof.
  induction l as [|a l IH]; simpl; [reflexivity|].
  destruct (f a); simpl; [discriminate|auto].
Qed.

(** C1. A notebook of well-formed cells none of which is a code cell, the
    empty notebook included, is analysed without error; the parameters of
    the analysis are the fallback set, named prompt, negative_prompt, width,
    height and steps in this order, and its outputs are the one image
    output. *)
Theorem analyze_without_code_cells
    (notebook : value) (filename : text) (cells : list value) :
  notebook_cells notebook = Some cells ->
  forallb well_formed_cell cells = true ->
  existsb (has_cell_type "code") cells = false ->
  exists analysis,
    NotebookParser.parse_json notebook filename = Ok analysis
    /\ parameters analysis = _get_default_image_params
    /\ map name (parameters analysis)
       = map txt ["prompt"; "negative_prompt"; "width"; "height"; "steps"]%string
    /\ outputs analysis = [image_output]
    /\ map output_type (outputs analysis) = [OUT_IMAGE].
Proof.
  intros Hn Hw Hc.
  rewrite (analyze_notebook_well_formed _ _ _ Hn Hw).
  unfold all_code_of. rewrite (filter_none _ _ Hc).
  cbn [map join]. rewrite detect_parameters_nil. cbn [bind].
  eexists. split; [reflexivity|]. repeat split.
Qed.

Definition notes_only : value :=
  notebook_of [markdown_cell [line "# Notes"; txt "Nothing to run here."]].

Lemma analyze_without_code_cells_witness :
  (notebook_cells notes_only
   = Some [markdown_cell [line "# Notes"; txt "Nothing to run here."]]
   /\ forallb well_formed_cell
              [markdown_cell [line "# Notes"; txt "Nothing to run here."]] = true
   /\ existsb (has_cell_type "code")
              [markdown_cell [line "# Notes"; txt "Nothing to run here."]] = false)
  /\ exists analysis,
       NotebookParser.parse_json notes_only (txt "notes.ipynb") = Ok analysis
       /\ parameters analysis = _get_default_image_params
       /\ map name (parameters analysis)
          = map txt ["prompt"; "negative_prompt"; "width"; "height"; "steps"]%string
       /\ outputs analysis = [image_output]
       /\ map output_type (outputs analysis) = [OUT_IMAGE].
Proof.
  split; [repeat split|].
  apply (analyze_without_code_cells notes_only (txt "notes.ipynb")
           [markdown_cell [line "# Notes"; txt "Nothing to run here."]]);
    reflexivity.
Defined.

(** The analysis of a notebook in which nothing is detected. *)
Definition default_analysis (filename : text) : NotebookAnalysis :=
  mkAnalysis (filename_title filename) [] _get_default_image_params [image_output]
             false false false (txt "unknown") (VList []).

(** C3, amended. A notebook structure without a cells entry is not an
    error: it is analysed as the notebook with no cells, which gives the
    title of the file name, no description, the fallback parameters and the
    one image output. *)
Theorem analyze_without_cells_entry (items : list (text * value)) (filename : text) :
  dict_get (txt "cells") items = None ->
  NotebookParser.parse_json (VDict items) filename = Ok (default_analysis filename)
  /\ NotebookParser.parse_json (VDict items) filename
     = NotebookParser.parse_json (notebook_of []) filename.
Proof.
  intros H. unfold parse_json, _analyze_notebook. rewrite H. split; reflexivity.
Qed.

Lemma analyze_without_cells_entry_witness :
  dict_get (txt "cells") [(txt "nbformat", VInt 4)] = None
  /\ NotebookParser.parse_json (VDict [(txt "nbformat", VInt 4)]) (txt "demo.ipynb")
     = Ok (default_analysis (txt "demo.ipynb"))
  /\ NotebookParser.parse_json (VDict [(txt "nbformat", VInt 4)]) (txt "demo.ipynb")
     = NotebookParser.parse_json (notebook_of []) (txt "demo.ipynb").
Proof.
  split; [reflexivity|].
  apply (analyze_without_cells_entry [(txt "nbformat", VInt 4)] (txt "demo.ipynb")).
  reflexivity.
Defined.

(** C3 as stated fails: the analysis of a structure without cells returns
    an analysis and raises nothing. *)
Lemma missing_cells_not_an_error :
  NotebookParser.parse_json (VDict [(txt "nbformat", VInt 4)]) (txt "demo.ipynb")
  = Ok (mkAnalysis (txt "Demo") [] _get_default_image_params [image_output]
                   false false false (txt "unknown") (VList [])).
Proof. reflexivity. Qed.

(** C4, amended. The markdown cells are visited in order up to the first one
    that has prose besides its headings; every visited cell that has a
    heading line replaces the title by its first heading, so the title is
    the heading of the last visited cell that has one, and the title of the
    file name when there is none. *)
Theorem title_of_scanned_cells
    (notebook : value) (filename : text) (cells : list value)
    (analysis : NotebookAnalysis) :
  notebook_cells notebook = Some cells ->
  forallb well_formed_cell cells = true ->
  NotebookParser.parse_json notebook filename = Ok analysis ->
  title analysis
  = fold_left pick_title (scanned (markdown_sources cells)) (filename_title filename).
Proof.
  intros Hn Hw H.
  rewrite (analyze_notebook_well_formed _ _ _ Hn Hw) in H.
  bind_inv H. injection H as <-. reflexivity.
Qed.

Definition three_headings : list value :=
  [ markdown_cell [txt "# First"];
    markdown_cell [line "# Second"; txt "About this notebook."];
    markdown_cell [txt "# Third"] ].

Lemma title_of_scanned_cells_witness :
  (notebook_cells (notebook_of three_headings) = Some three_headings
   /\ forallb well_formed_cell three_headings = true
   /\ NotebookParser.parse_json (notebook_of three_headings) (txt "demo.ipynb")
      = Ok (mkAnalysis (txt "Second") (txt "About this notebook.")
                       _get_default_image_params [image_output]
                       false false false (txt "unknown") (VList three_headings)))
  /\ txt "Second"
     = fold_left pick_title (scanned (markdown_sources three_headings))
                 (filename_title (txt "demo.ipynb")).
Proof.
  split; [repeat split|].
  apply (title_of_scanned_cells (notebook_of three_headings) (txt "demo.ipynb")
           three_headings
           (mkAnalysis (txt "Second") (txt "About this notebook.")
                       _get_default_image_params [image_output]
                       false false false (txt "unknown") (VList three_headings)));
    reflexivity.
Defined.

Definition two_headings : list value :=
  [markdown_cell [txt "# First"]; markdown_cell [txt "# Second"]].

(** C4 as stated fails: of two documentation cells that each hold a heading,
    the later one gives the title. *)
Lemma later_heading_overrides :
  map h1_of (markdown_sources two_headings) = [Some (txt "First"); Some (txt "Second")]
  /\ exists analysis,
       NotebookParser.parse_json (notebook_of two_headings) (txt "demo.ipynb")
       = Ok analysis
       /\ title analysis = txt "Second"
       /\ title analysis <> txt "First".
Proof.
  split; [reflexivity|].
  eexists. split; [reflexivity|]. split; [reflexivity|discriminate].
Qed.

End Notebooks.

(** ** The detected parameters *)

Section Detection.

Import NotebookParser.

(** *** The checklist *)

Definition optional (b : bool) (p : Param) : list Param := if b then [p] else [].

(** How a step of the checklist with an assignment pattern decides: whether
    it adds its parameter, and with which default. *)
Definition assigned_default (pattern : Re.regex) (keywords : list string)
    (convert : text -> result value) (fallback : value) (code : text)
    (b : bool) (d : value) : Prop :=
  match Re.search false pattern code with
  | Some m => b = true /\ convert (Re.group 1 m) = Ok d
  | None => b = mentions keywords code /\ d = fallback
  end.

Lemma detect_fixed_shape keywords p code params :
  detect_fixed keywords p code params = params ++ optional (mentions keywords code) p.
Proof.
  unfold detect_fixed, optional. destruct (mentions keywords code); [reflexivity|].
  now rewrite app_nil_r.
Qed.

Lemma detect_assigned_shape pattern keywords convert fallback make code params ps :
  detect_assigned pattern keywords convert fallback make code params = Ok ps ->
  exists b d,
    ps = params ++ optional b (make d)
    /\ assigned_default pattern keywords convert fallback code b d.
Proof.
  unfold detect_assigned, assigned_default.
  destruct (Re.search false pattern code) as [m|].
  - intros H. bind_inv H. injection H as <-. exists true, a. auto.
  - destruct (mentions keywords code) eqn:E; intros H; injection H as <-.
    + exists true, fallback. auto.
    + exists false, fallback. rewrite app_nil_r. auto.
Qed.

Definition standard_width (d : value) : Param :=
  with_description (txt "Bildbreite in Pixeln") (width_param d).
Definition standard_height (d : value) : Param :=
  with_description (txt "Bildh" ++ ouml :: txt "he in Pixeln") (height_param d).
Definition standard_steps (d : value) : Param :=
  with_description (txt "Anzahl der Inferenz-Schritte") (steps_param d).

(** The checklist gives its nine parameters in a fixed order, each present
    or not. *)
Definition checklist (code : text)
    (bw bh bs bc bt : bool) (dw dh ds dc dt : value) : list Param :=
  optional (mentions ["prompt"]%string code) prompt_param
  ++ optional (mentions ["negative_prompt"]%string code) negative_prompt_param
  ++ optional bw (standard_width dw)
  ++ optional bh (standard_height dh)
  ++ optional bs (standard_steps ds)
  ++ optional bc (cfg_scale_param dc)
  ++ optional (mentions ["seed"]%string code) seed_param
  ++ optional bt (strength_param dt)
  ++ optional (mentions ["img2img"; "init_image"; "input_image"]%string code)
              input_image_param.

Lemma standard_params_shape code ps :
  _detect_standard_image_params code = Ok ps ->
  exists bw bh bs bc bt dw dh ds dc dt,
    ps = checklist code bw bh bs bc bt dw dh ds dc dt
    /\ assigned_default width_var ["width"]%string int_value (VInt 512) code bw dw
    /\ assigned_default height_var ["height"]%string int_value (VInt 512) code bh dh
    /\ assigned_default steps_var ["steps"; "inference"]%string int_value (VInt 50)
                        code bs ds
    /\ assigned_default cfg_var ["cfg"; "guidance"]%string float_value (VFloat 7.5)
                        code bc dc
    /\ assigned_default strength_var ["img2img"; "strength"]%string float_value
                        (VFloat 0.75) code bt dt.
Proof.
  unfold _detect_standard_image_params. intros H.
  rewrite !detect_fixed_shape in H. cbn [app] in H.
  apply bind_Ok in H as [p1 [E1 H]]. apply detect_assigned_shape in E1 as [bw [dw [-> Aw]]].
  apply bind_Ok in H as [p2 [E2 H]]. apply detect_assigned_shape in E2 as [bh [dh [-> Ah]]].
  apply bind_Ok in H as [p3 [E3 H]]. apply detect_assigned_shape in E3 as [bs [ds [-> As]]].
  apply bind_Ok in H as [p4 [E4 H]]. apply detect_assigned_shape in E4 as [bc [dc [-> Ac]]].
  rewrite detect_fixed_shape in H.
  apply bind_Ok in H as [p5 [E5 H]]. apply detect_assigned_shape in E5 as [bt [dt [-> At]]].
  rewrite detect_fixed_shape in H. injection H as <-.
  exists bw, bh, bs, bc, bt, dw, dh, ds, dc, dt.
  split; [|now repeat split].
  unfold checklist, standard_width, standard_height, standard_steps.
  rewrite <- !app_assoc. reflexivity.
Qed.

(** *** De-duplication *)

Lemma add_params_app l1 l2 acc :
  add_params (l1 ++ l2) acc = add_params l2 (add_params l1 acc).
Proof.
  revert acc. induction l1 as [|p l1 IH]; intros [ps found]; simpl; [reflexivity|].
  destruct (name_in (name p) found); apply IH.
Qed.

Lemma name_in_In n found : name_in n found = true <-> In n found.
Proof.
  unfold name_in. rewrite existsb_exists. split.
  - intros [x [Hx E]]. apply text_eqb_eq in E. now subst.
  - intros H. exists n. split; [assumption|apply text_eqb_refl].
Qed.

(** The names found so far are the names of the parameters kept so far,
    and no name is kept twice. *)
Definition deduplicated (acc : list Param * list text) : Prop :=
  NoDup (map name (fst acc))
  /\ forall n, In n (snd acc) <-> In n (map name (fst acc)).

Lemma add_params_deduplicated new : forall acc,
  deduplicated acc -> deduplicated (add_params new acc).
Proof.
  induction new as [|p new IH]; intros [ps found] [Hn Hf]; simpl; [now split|].
  destruct (name_in (name p) found) eqn:E; apply IH; [now split|].
  unfold deduplicated. simpl in *. split.
  - rewrite map_app. simpl. apply NoDup_app; [assumption|repeat constructor; auto|].
    intros n H1 [<-|[]].
    apply Hf, name_in_In in H1. congruence.
  - intros n. rewrite map_app, in_app_iff. simpl. rewrite <- Hf. tauto.
Qed.

(** What is kept is kept at the front, in order; what is added comes from
    the new parameters. *)
Lemma add_params_extends new : forall acc,
  exists extra, fst (add_params new acc) = fst acc ++ extra /\ incl extra new.
Proof.
  induction new as [|p new IH]; intros [ps found]; simpl.
  - exists []. split; [now rewrite app_nil_r|apply incl_refl].
  - destruct (name_in (name p) found).
    + destruct (IH (ps, found)) as [extra [E I]].
      exists extra. split; [exact E|now apply incl_tl].
    + destruct (IH (ps ++ [p], name p :: found)) as [extra [E I]].
      exists (p :: extra). simpl in *. rewrite E, <- app_assoc. split; [reflexivity|].
      intros x [<-|Hx]; [now left|right; now apply I].
Qed.

(** Parameters with distinct names, none of them found before, are all
    kept. *)
Lemma add_params_distinct new : forall acc,
  deduplicated acc ->
  NoDup (map name new) ->
  (forall n, In n (map name new) -> ~ In n (snd acc)) ->
  fst (add_params new acc) = fst acc ++ new.
Proof.
  induction new as [|p new IH]; intros [ps found] D Hn Hd; simpl.
  - now rewrite app_nil_r.
  - simpl in Hn. inversion Hn as [|? ? Hp Hn']; subst.
    destruct (name_in (name p) found) eqn:E.
    + apply name_in_In in E. exfalso. apply (Hd (name p)); simpl; auto.
    + rewrite IH; simpl.
      * now rewrite <- app_assoc.
      * apply (add_params_deduplicated [p] (ps, found)) in D. simpl in D.
        now rewrite E in D.
      * assumption.
      * intros n Hin [<-|Hf]; [contradiction|]. apply (Hd n); simpl; auto.
Qed.

End Detection.

(** ** C10 and C2: kinds and names of the parameters *)

Section KindsAndNames.

Import NotebookParser.

Lemma Forall_optional (P : Param -> Prop) b p : P p -> Forall P (optional b p).
Proof. destruct b; simpl; auto. Qed.

Lemma add_params_Forall (P : Param -> Prop) new acc :
  Forall P (fst acc) -> Forall P new -> Forall P (fst (add_params new acc)).
Proof.
  intros Ha Hn. destruct (add_params_extends new acc) as [extra [-> I]].
  apply Forall_app. split; [assumption|].
  rewrite Forall_forall in *. auto.
Qed.

(** What [_detect_parameters] returns: the parameters kept from the three
    detections in order, or the fallback set when nothing is kept. *)
Lemma detect_parameters_shape code ps :
  _detect_parameters code = Ok ps ->
  exists standard,
    _detect_standard_image_params code = Ok standard
    /\ let kept := fst (add_params
                          (standard ++ _detect_gradio_params code
                                    ++ _detect_widget_params code) ([], [])) in
       ps = match kept with
            | [] => _get_default_image_params
            | _ :: _ => kept
            end.
Proof.
  unfold _detect_parameters. intros H. bind_inv H. exists a. split; [assumption|].
  rewrite !add_params_app. cbv zeta.
  destruct (fst _); injection H as <-; reflexivity.
Qed.

Lemma analysis_parameters notebook filename analysis :
  parse_json notebook filename = Ok analysis ->
  exists code, _detect_parameters code = Ok (parameters analysis).
Proof.
  unfold parse_json, _analyze_notebook. intros H.
  do 6 bind_inv H. apply bind_Ok in H as [[t d] [_ H]].
  bind_inv H. injection H as <-. eauto.
Qed.

(** The kinds the engine gives to parameters. *)
Definition emitted_kinds : list ParameterType := [TEXTAREA; TEXT; NUMBER; SLIDER; IMAGE].

Definition kind_emitted (p : Param) : Prop := In (param_type p) emitted_kinds.

Lemma widget_kinds code :
  Forall kind_emitted (_detect_gradio_params code ++ _detect_widget_params code).
Proof.
  unfold _detect_gradio_params, _detect_widget_params. cbn [app].
  repeat (apply Forall_app; split);
    apply Forall_forall; intros p Hp; apply in_map_iff in Hp as [m [<- _]];
    unfold kind_emitted, emitted_kinds; simpl; auto 10.
Qed.

Lemma detect_parameters_kinds code ps :
  _detect_parameters code = Ok ps -> Forall kind_emitted ps.
Proof.
  intros H. apply detect_parameters_shape in H as [standard [Hs ->]].
  apply standard_params_shape in Hs
    as [bw [bh [bs [bc [bt [dw [dh [ds [dc [dt [-> _]]]]]]]]]]].
  cbv zeta.
  match goal with
  | |- context [add_params ?new ?acc] =>
      assert (F : Forall kind_emitted (fst (add_params new acc)))
  end.
  { apply add_params_Forall; [constructor|].
    apply Forall_app. split; [|apply widget_kinds].
    unfold checklist.
    repeat (apply Forall_app; split); apply Forall_optional;
      unfold kind_emitted, emitted_kinds; simpl; auto 10. }
  destruct (fst _); [|assumption].
  unfold _get_default_image_params, kind_emitted, emitted_kinds.
  repeat (apply Forall_cons; [simpl; auto 10|]). constructor.
Qed.

(** C10. Every parameter of an analysis that [analyze] returns has one of
    the five kinds textarea, text, number, slider and image; no parameter is
    a checkbox, a dropdown, a file or a color. *)
Theorem analysis_parameter_kinds
    (notebook : value) (filename : text) (analysis : NotebookAnalysis) :
  NotebookParser.parse_json notebook filename = Ok analysis ->
  Forall (fun p => In (param_type p) [TEXTAREA; TEXT; NUMBER; SLIDER; IMAGE]
                   /\ ~ In (param_type p) [CHECKBOX; DROPDOWN; FILE; COLOR])
         (parameters analysis).
Proof.
  intros H. apply analysis_parameters in H as [code H].
  apply detect_parameters_kinds in H.
  eapply Forall_impl; [|exact H].
  intros p Hp. split; [exact Hp|].
  unfold kind_emitted, emitted_kinds in Hp. simpl in *.
  intuition congruence.
Qed.

(** The notebook of the scenario of the specification. *)
Definition sunset_notebook : value :=
  notebook_of
    [ markdown_cell [txt "# Sunset Generator"];
      code_cell [line "prompt = 'x'"; line "width = 768"; line "steps = 30"] ].

Definition sunset_analysis : NotebookAnalysis :=
  Eval vm_compute in
    match parse_json sunset_notebook (txt "sunset.ipynb") with
    | Ok analysis => analysis
    | Raise _ => default_analysis []
    end.

Example sunset_scenario :
  parse_json sunset_notebook (txt "sunset.ipynb") = Ok sunset_analysis
  /\ title sunset_analysis = txt "Sunset Generator"
  /\ map (fun p => (name p, default_value p)) (parameters sunset_analysis)
     = [ (txt "prompt", VStr []); (txt "width", VInt 768);
         (txt "height", VInt 768); (txt "steps", VInt 30) ]
  /\ model_type sunset_analysis = txt "unknown".
Proof. repeat split; vm_compute; reflexivity. Qed.

Lemma analysis_parameter_kinds_witness :
  NotebookParser.parse_json sunset_notebook (txt "sunset.ipynb") = Ok sunset_analysis
  /\ Forall (fun p => In (param_type p) [TEXTAREA; TEXT; NUMBER; SLIDER; IMAGE]
                      /\ ~ In (param_type p) [CHECKBOX; DROPDOWN; FILE; COLOR])
            (parameters sunset_analysis).
Proof.
  split; [vm_compute; reflexivity|].
  apply (analysis_parameter_kinds sunset_notebook (txt "sunset.ipynb") sunset_analysis).
  vm_compute. reflexivity.
Defined.

End KindsAndNames.

(** ** First detection wins *)

Section FirstWins.

Import NotebookParser.

(** The first parameter of a list that has a given name. *)
Definition find_named (n : text) (l : list Param) : option Param :=
  find (fun q => text_eqb (name q) n) l.

Lemma find_named_app n l1 l2 :
  find_named n (l1 ++ l2) =
  match find_named n l1 with
  | Some q => Some q
  | None => find_named n l2
  end.
Proof.
  unfold find_named. induction l1 as [|q l1 IH]; simpl; [reflexivity|].
  destruct (text_eqb (name q) n); auto.
Qed.

Lemma find_named_none n l : find_named n l = None <-> ~ In n (map name l).
Proof.
  unfold find_named. induction l as [|q l IH]; simpl; [tauto|].
  destruct (text_eqb (name q) n) eqn:E.
  - apply text_eqb_eq in E. split; [discriminate|]. intros H. exfalso. auto.
  - apply text_eqb_neq in E. rewrite IH. tauto.
Qed.

Lemma find_named_some n l q : find_named n l = Some q -> In q l /\ name q = n.
Proof.
  unfold find_named. intros H. apply find_some in H as [H E].
  now apply text_eqb_eq in E.
Qed.

Lemma find_named_NoDup l p :
  NoDup (map name l) -> In p l -> find_named (name p) l = Some p.
Proof.
  unfold find_named. induction l as [|q l IH]; simpl; [tauto|].
  intros Hn [->|Hp].
  - now rewrite text_eqb_refl.
  - inversion Hn as [|? ? Hq Hn']; subst.
    destruct (text_eqb (name q) (name p)) eqn:E; [|auto].
    apply text_eqb_eq in E. exfalso. apply Hq. rewrite E. now apply in_map.
Qed.

Lemma add_params_find n new : forall acc,
  deduplicated acc ->
  find_named n (fst (add_params new acc)) =
  match find_named n (fst acc) with
  | Some q => Some q
  | None => find_named n new
  end.
Proof.
  induction new as [|p new IH]; intros [ps found] D; simpl.
  - now destruct (find_named n ps).
  - destruct (name_in (name p) found) eqn:E.
    + rewrite (IH _ D). simpl.
      destruct (find_named n ps) eqn:F; [reflexivity|].
      unfold find_named at 2. simpl.
      destruct (text_eqb (name p) n) eqn:N; [|reflexivity].
      apply text_eqb_eq in N. subst n.
      apply name_in_In, (proj2 D) in E. simpl in E.
      apply find_named_none in F. contradiction.
    + pose proof (add_params_deduplicated [p] (ps, found) D) as D'.
      simpl in D'. rewrite E in D'.
      rewrite (IH _ D'). simpl. rewrite find_named_app.
      destruct (find_named n ps); [reflexivity|].
      unfold find_named. simpl.
      destruct (text_eqb (name p) n); reflexivity.
Qed.

Lemma deduplicated_nil : deduplicated ([], []).
Proof. split; simpl; [constructor|tauto]. Qed.

(** The parameters kept from a list of detections have distinct names, and
    each is the first detection of its name. *)
Lemma first_detection_wins detected :
  let kept := fst (add_params detected ([], [])) in
  NoDup (map name kept)
  /\ forall n, find_named n kept = find_named n detected.
Proof.
  cbv zeta. split.
  - apply (add_params_deduplicated detected _ deduplicated_nil).
  - intros n. now rewrite (add_params_find n detected _ deduplicated_nil).
Qed.

End FirstWins.

(** ** C2: the names of the parameters *)

Section Names.

Import NotebookParser.

Definition name_chars_ok (p : Param) : Prop := forallb is_name_char (name p) = true.

Lemma sanitized_name_chars_ok p label :
  name p = _sanitize_name label -> name_chars_ok p.
Proof. unfold name_chars_ok. intros ->. apply sanitize_name_sanitized. Qed.

Lemma widget_names code :
  Forall name_chars_ok (_detect_gradio_params code ++ _detect_widget_params code).
Proof.
  unfold _detect_gradio_params, _detect_widget_params. cbn [app].
  repeat (apply Forall_app; split);
    apply Forall_forall; intros p Hp; apply in_map_iff in Hp as [m [<- _]];
    eapply sanitized_name_chars_ok; reflexivity.
Qed.

(** What holds of the names in every parameter list the engine returns:
    they are distinct, and made of lower-case letters, digits and
    underscores only. *)
Lemma detect_parameters_names code ps :
  _detect_parameters code = Ok ps ->
  NoDup (map name ps) /\ Forall name_chars_ok ps.
Proof.
  intros H. apply detect_parameters_shape in H as [standard [Hs ->]].
  apply standard_params_shape in Hs
    as [bw [bh [bs [bc [bt [dw [dh [ds [dc [dt [-> _]]]]]]]]]]].
  cbv zeta.
  match goal with
  | |- context [add_params ?new ?acc] =>
      destruct (first_detection_wins new) as [N _];
      assert (F : Forall name_chars_ok (fst (add_params new acc)))
  end.
  { apply add_params_Forall; [constructor|].
    apply Forall_app. split; [|apply widget_names].
    unfold checklist.
    repeat (apply Forall_app; split); apply Forall_optional; reflexivity. }
  cbv zeta in N.
  destruct (fst _); [|now split].
  split.
  - unfold _get_default_image_params. simpl.
    repeat (constructor; [simpl; intuition discriminate|]). constructor.
  - unfold _get_default_image_params.
    repeat (apply Forall_cons; [reflexivity|]). constructor.
Qed.

Lemma analysis_parameter_names notebook filename analysis :
  parse_json notebook filename = Ok analysis ->
  NoDup (map name (parameters analysis))
  /\ Forall name_chars_ok (parameters analysis).
Proof.
  intros H. apply analysis_parameters in H as [code H].
  now apply detect_parameters_names in H.
Qed.

(** C2: where the code departs from the claim. A text box whose label has
    no letter and no digit is detected as a parameter whose name is empty;
    the empty name does not match [[a-z0-9_]+]. *)
Theorem empty_parameter_name :
  exists analysis,
    NotebookParser.parse_json
      (notebook_of [code_cell [txt "gr.Textbox(label='!')"]]) (txt "demo.ipynb")
    = Ok analysis
    /\ map name (parameters analysis) = [[]]
    /\ map label (parameters analysis) = [txt "!"].
Proof. eexists. split; [vm_compute; reflexivity|]. split; reflexivity. Qed.

End Names.

(** ** The matcher on literals, alternatives and greedy runs *)

Section Matcher.

Import Re.

Lemma flat_map_flat_map {A B C} (f : A -> list B) (g : B -> list C) l :
  flat_map g (flat_map f l) = flat_map (fun a => flat_map g (f a)) l.
Proof.
  induction l as [|a l IH]; simpl; [reflexivity|].
  now rewrite flat_map_app, IH.
Qed.

(** A literal matches the text it spells, in one way, and nothing else. *)
Lemma match_lit_here t : forall sn rs g,
  t <> [] ->
  match_at false (lit_text t) (Cursor sn (t ++ rs) g) = [Cursor (rev t ++ sn) rs g].
Proof.
  induction t as [|x t IH]; intros sn rs g Ht; [contradiction|].
  destruct t as [|y t].
  - simpl. unfold step1, chr_eqb. simpl. destruct (ascii_dec x x); [reflexivity|contradiction].
  - change (lit_text (x :: y :: t)) with (Seq (Chr x) (lit_text (y :: t))).
    change ((x :: y :: t) ++ rs) with (x :: ((y :: t) ++ rs)).
    cbn [match_at]. unfold step1 at 1, chr_eqb. cbn [rest seen groups].
    destruct (ascii_dec x x); [|contradiction].
    cbn [flat_map]. rewrite IH by discriminate. rewrite app_nil_r.
    cbn [rev]. now rewrite <- !app_assoc.
Qed.

Lemma match_lit_only t : forall c c',
  t <> [] ->
  In c' (match_at false (lit_text t) c) ->
  rest c = t ++ rest c' /\ groups c' = groups c.
Proof.
  induction t as [|x t IH]; intros c c' Ht; [contradiction|].
  destruct t as [|y t].
  - simpl. unfold step1, chr_eqb. destruct (rest c) as [|z rs] eqn:R; [intros []|].
    destruct (ascii_dec x z) as [->|]; [|intros []].
    intros [<-|[]]. auto.
  - change (lit_text (x :: y :: t)) with (Seq (Chr x) (lit_text (y :: t))).
    cbn [match_at]. intros H. apply in_flat_map in H as [c1 [H1 H2]].
    unfold step1, chr_eqb in H1. destruct (rest c) as [|z rs] eqn:R; [destruct H1|].
    destruct (ascii_dec x z) as [->|]; [|destruct H1].
    destruct H1 as [<-|[]].
    apply IH in H2 as [E G]; [|discriminate]. simpl in *. now rewrite E.
Qed.

(** The alternatives of a non-empty list are tried one after the other. *)
Lemma match_alt_in ic r rs c c' :
  In c' (match_at ic (alt (r :: rs)) c) <->
  exists r', In r' (r :: rs) /\ In c' (match_at ic r' c).
Proof.
  revert r. induction rs as [|r2 rs IH]; intros r.
  - simpl. split; [eauto|]. intros [r' [[<-|[]] H]]. exact H.
  - change (alt (r :: r2 :: rs)) with (Alt r (alt (r2 :: rs))).
    cbn [match_at]. rewrite in_app_iff, IH. split.
    + intros [H|[r' [Hr H]]]; [exists r|exists r']; simpl; auto.
    + intros [r' [[<-|Hr] H]]; [now left|right; eauto].
Qed.

Lemma match_alt_nonempty ic rs c c' :
  rs <> [] ->
  In c' (match_at ic (alt rs) c) <->
  exists r', In r' rs /\ In c' (match_at ic r' c).
Proof. destruct rs as [|r rs]; [contradiction|]. intros _. apply match_alt_in. Qed.

(** Where a greedy run stops. *)
Fixpoint span_seen (p : ascii -> bool) (sn rs : text) : text :=
  match rs with
  | x :: rs' => if p x then span_seen p (x :: sn) rs' else sn
  | [] => sn
  end.

(** A greedy run followed by something that cannot start with a character
    of the class: only the longest run can be followed. *)
Lemma run_then p g (K : cursor -> list cursor) rs : forall sn,
  (forall sn' x rs', p x = true -> K (Cursor sn' (x :: rs') g) = []) ->
  flat_map K (map (fun sr => Cursor (fst sr) (snd sr) g) (rep_run p sn rs))
  = K (Cursor (span_seen p sn rs) (lstrip_by p rs) g).
Proof.
  induction rs as [|x rs IH]; intros sn HK; simpl.
  - now rewrite app_nil_r.
  - destruct (p x) eqn:Hx; simpl.
    + rewrite map_app, flat_map_app, IH by assumption. simpl.
      rewrite (HK _ _ _ Hx). now rewrite !app_nil_r.
    + now rewrite app_nil_r.
Qed.

Lemma firstn_consumed (l post : text) :
  firstn (length (l ++ post) - length post) (l ++ post) = l.
Proof.
  rewrite length_app.
  replace (length l + length post - length post) with (length l) by lia.
  rewrite firstn_app, Nat.sub_diag, firstn_all. simpl. apply app_nil_r.
Qed.

(** The group of a greedy run: the longest run is the first outcome. *)
Lemma match_group_run p n l post sn g :
  l <> [] -> forallb p l = true -> starts_clean p post ->
  exists c' tl,
    match_at false (Grp n (Rep 1 p)) (Cursor sn (l ++ post) g) = c' :: tl
    /\ groups c' = (n, l) :: g /\ rest c' = post.
Proof.
  intros Hl Hp Hpost.
  assert (Hstrip : forall l', forallb p l' = true -> lstrip_by p (l' ++ post) = post).
  { induction l' as [|y l' IH]; simpl.
    - intros _. now apply lstrip_by_id.
    - intros H. apply andb_true_iff in H as [-> H]. auto. }
  destruct l as [|x l]; [contradiction|].
  simpl in Hp. apply andb_true_iff in Hp as [Hx Hp].
  cbn [match_at seen rest groups app rep]. rewrite Hx.
  destruct (rep_run_head p (l ++ post) (x :: sn)) as [sn' [tl E]].
  rewrite E. cbn [map fst snd]. rewrite (Hstrip _ Hp).
  eexists. eexists. split; [reflexivity|]. cbn [groups rest]. split; [|reflexivity].
  unfold consumed. cbn [rest]. f_equal. f_equal.
  apply (firstn_consumed (x :: l) post).
Qed.

End Matcher.

(** ** Assignment patterns *)

Section Assignment.

Import Re NotebookParser.

Variable names : list string.
Variable p : ascii -> bool.

Hypothesis names_plain :
  forall n, In n names -> txt n <> [] /\ ~ In "="%char (txt n).
Hypothesis literal_not_space : forall c, p c = true -> isspace c = false.

Variables (w2 l post : text).
Hypothesis w2_space : forallb isspace w2 = true.
Hypothesis l_nonempty : l <> [].
Hypothesis l_literal : forallb p l = true.
Hypothesis post_clean : starts_clean p post.

Definition literal_group : regex := Grp 1 (Rep 1 p).
Definition assignment_tail : regex := Seq eq_sign literal_group.

(** The text from the equals sign on. *)
Definition from_equals : text := "="%char :: w2 ++ l ++ post.

Lemma lstrip_spaces_literal : lstrip_by isspace (w2 ++ l ++ post) = l ++ post.
Proof.
  induction w2 as [|x w IH]; simpl.
  - destruct l as [|y l']; [contradiction|].
    simpl in *. apply andb_true_iff in l_literal as [Hy _].
    now rewrite (literal_not_space _ Hy).
  - simpl in w2_space. apply andb_true_iff in w2_space as [-> Hw]. auto.
Qed.

Lemma literal_group_rejects_space sn x rs g :
  isspace x = true -> match_at false literal_group (Cursor sn (x :: rs) g) = [].
Proof.
  intros Hx. unfold literal_group. cbn [match_at seen rest groups rep].
  destruct (p x) eqn:Hp; [|reflexivity].
  apply literal_not_space in Hp. congruence.
Qed.

Lemma match_ws ic sn rs g :
  match_at ic ws (Cursor sn rs g)
  = map (fun sr => Cursor (fst sr) (snd sr) g) (rep_run isspace sn rs).
Proof. reflexivity. Qed.

(** What follows the blanks before the equals sign. *)
Definition after_blanks (c : cursor) : list cursor :=
  flat_map (match_at false literal_group) (match_at false (Seq (Chr "=") ws) c).

Lemma after_blanks_rejects x : forall sn rs g,
  x <> "="%char -> after_blanks (Cursor sn (x :: rs) g) = [].
Proof.
  intros sn rs g Hx. unfold after_blanks. cbn [match_at].
  unfold step1 at 1, chr_eqb. cbn [rest].
  destruct (ascii_dec "=" x) as [<-|]; [contradiction|reflexivity].
Qed.

Lemma tail_after_blanks sn rs g :
  match_at false assignment_tail (Cursor sn rs g)
  = after_blanks (Cursor (span_seen isspace sn rs) (lstrip_by isspace rs) g).
Proof.
  unfold assignment_tail, eq_sign.
  change (seq [ws; Chr "="; ws]) with (Seq ws (Seq (Chr "=") ws)).
  change (match_at false (Seq (Seq ws (Seq (Chr "=") ws)) literal_group)
                   (Cursor sn rs g))
    with (flat_map (match_at false literal_group)
            (flat_map (match_at false (Seq (Chr "=") ws))
                      (match_at false ws (Cursor sn rs g)))).
  rewrite flat_map_flat_map, match_ws.
  rewrite run_then; [reflexivity|].
  intros sn' x rs' Hx. apply after_blanks_rejects. intros ->. discriminate.
Qed.

(** From the equals sign: the blanks, then the longest literal. *)
Lemma after_equals sn g :
  exists s2,
    after_blanks (Cursor sn from_equals g)
    = match_at false literal_group (Cursor s2 (l ++ post) g).
Proof.
  eexists. unfold after_blanks, from_equals.
  change (match_at false (Seq (Chr "=") ws) (Cursor sn ("="%char :: w2 ++ l ++ post) g))
    with (flat_map (match_at false ws)
            (step1 (chr_eqb false "=") (Cursor sn ("="%char :: w2 ++ l ++ post) g))).
  unfold step1, chr_eqb. cbn [rest seen groups].
  destruct (ascii_dec "=" "="); [|contradiction].
  cbn [flat_map]. rewrite app_nil_r, match_ws.
  rewrite run_then.
  - rewrite lstrip_spaces_literal. reflexivity.
  - intros. now apply literal_group_rejects_space.
Qed.

Lemma lstrip_blank_prefix u :
  forallb isspace u = true -> lstrip_by isspace (u ++ from_equals) = from_equals.
Proof.
  induction u as [|y u IH]; simpl; [reflexivity|].
  intros H. apply andb_true_iff in H as [-> H]. auto.
Qed.

Lemma after_nonblank_prefix u : forall s g,
  forallb isspace u = false -> ~ In "="%char u ->
  after_blanks (Cursor s (lstrip_by isspace (u ++ from_equals)) g) = [].
Proof.
  induction u as [|y u IH]; intros s g Hb Hu; [discriminate|].
  cbn [app lstrip_by forallb] in *. destruct (isspace y) eqn:Hy.
  - apply IH; [exact Hb|]. intros H. apply Hu. now right.
  - apply after_blanks_rejects. intros ->. apply Hu. now left.
Qed.

(** The tail of the pattern at a text that reaches the equals sign after
    [u]: it matches only when [u] is blank, and then as [after_equals]
    says. *)
Lemma tail_outcomes u sn g :
  ~ In "="%char u ->
  exists s2,
    match_at false assignment_tail (Cursor sn (u ++ from_equals) g)
    = if forallb isspace u
      then match_at false literal_group (Cursor s2 (l ++ post) g)
      else [].
Proof.
  intros Hu. rewrite tail_after_blanks.
  destruct (forallb isspace u) eqn:Hb.
  - rewrite (lstrip_blank_prefix u Hb). apply after_equals.
  - exists sn. now apply after_nonblank_prefix.
Qed.

(** An outcome list is good when it is empty or headed by an outcome that
    captured the literal. *)
Definition good (g : list (nat * text)) (outs : list cursor) : Prop :=
  match outs with
  | [] => True
  | c' :: _ => groups c' = (1, l) :: g
  end.

Lemma good_flat_map g (F : cursor -> list cursor) xs :
  (forall x, In x xs -> good g (F x)) -> good g (flat_map F xs).
Proof.
  induction xs as [|x xs IH]; simpl; [auto|].
  intros H. pose proof (H x (or_introl eq_refl)) as Hx.
  destruct (F x) as [|c' tl]; simpl; auto.
Qed.

Lemma tail_good u sn g :
  ~ In "="%char u ->
  good g (match_at false assignment_tail (Cursor sn (u ++ from_equals) g)).
Proof.
  intros Hu. destruct (tail_outcomes u sn g Hu) as [s2 ->].
  destruct (forallb isspace u); [|exact I].
  destruct (match_group_run p 1 l post s2 g l_nonempty l_literal post_clean)
    as [c' [tl [E [G _]]]].
  unfold literal_group. rewrite E. exact G.
Qed.

Lemma tail_matches u sn g :
  forallb isspace u = true ->
  match_at false assignment_tail (Cursor sn (u ++ from_equals) g) <> [].
Proof.
  intros Hu.
  assert (Hn : ~ In "="%char u).
  { intros H. rewrite forallb_forall in Hu. apply Hu in H. discriminate. }
  destruct (tail_outcomes u sn g Hn) as [s2 ->]. rewrite Hu.
  destruct (match_group_run p 1 l post s2 g l_nonempty l_literal post_clean)
    as [c' [tl [E _]]].
  unfold literal_group. rewrite E. discriminate.
Qed.

(** A text without the equals sign that starts with a literal without it. *)
Lemma split_before_equals (t v r tail : text) :
  ~ In "="%char t -> ~ In "="%char v ->
  t ++ r = v ++ "="%char :: tail ->
  exists v1, v = t ++ v1 /\ r = v1 ++ "="%char :: tail.
Proof.
  revert v. induction t as [|x t IH]; intros v Ht Hv E.
  - exists v. auto.
  - destruct v as [|y v]; simpl in E.
    + injection E as -> _. exfalso. apply Ht. now left.
    + injection E as -> E.
      destruct (IH v) as [v1 [-> ->]]; auto.
      * intros H. apply Ht. now right.
      * intros H. apply Hv. now right.
      * now exists v1.
Qed.

Definition pattern : regex := assignment names (Rep 1 p).

Lemma pattern_unfold :
  names <> [] ->
  pattern = Seq (alt (map lit names)) assignment_tail.
Proof.
  unfold pattern, assignment. destruct names; [contradiction|reflexivity].
Qed.

(** At any position before the equals sign, with no equals sign before it,
    the pattern fails or captures the literal. *)
Lemma pattern_good v sn :
  names <> [] -> ~ In "="%char v ->
  good [] (match_at false pattern (Cursor sn (v ++ from_equals) [])).
Proof.
  intros Hne Hv. rewrite (pattern_unfold Hne). cbn [match_at].
  apply good_flat_map. intros c1 H1.
  apply match_alt_nonempty in H1 as [r' [Hr H1]].
  2:{ intros E. apply map_eq_nil in E. contradiction. }
  apply in_map_iff in Hr as [n [<- Hn]].
  destruct (names_plain n Hn) as [Hn1 Hn2].
  apply match_lit_only in H1 as [R G]; [|exact Hn1].
  cbn [rest groups] in R, G. symmetry in R. unfold from_equals in R.
  apply split_before_equals in R as [v1 [-> R]]; auto.
  destruct c1 as [s1 r1 g1]. cbn [rest groups] in *. subst r1 g1.
  apply tail_good. intros H. apply Hv. apply in_or_app. now right.
Qed.

(** At the name of an assignment the pattern matches. *)
Lemma pattern_matches n u sn :
  In n names -> forallb isspace u = true ->
  match_at false pattern (Cursor sn (txt n ++ u ++ from_equals) []) <> [].
Proof.
  intros Hn Hu.
  assert (Hne : names <> []) by (destruct names; [destruct Hn|discriminate]).
  rewrite (pattern_unfold Hne). cbn [match_at].
  intros E.
  assert (H1 : In (Cursor (rev (txt n) ++ sn) (u ++ from_equals) [])
                  (match_at false (alt (map lit names))
                            (Cursor sn (txt n ++ u ++ from_equals) []))).
  { apply match_alt_nonempty.
    - intros E'. apply map_eq_nil in E'. contradiction.
    - exists (lit n). split; [now apply in_map|].
      unfold lit. rewrite match_lit_here; [now left|].
      now apply (names_plain n). }
  pose proof (tail_matches u (rev (txt n) ++ sn) [] Hu) as T.
  destruct (match_at false assignment_tail _) as [|c' tl] eqn:ET in T; [contradiction|].
  assert (In c' (flat_map (match_at false assignment_tail)
                   (match_at false (alt (map lit names))
                             (Cursor sn (txt n ++ u ++ from_equals) [])))).
  { apply in_flat_map. eexists. split; [exact H1|]. rewrite ET. now left. }
  rewrite E in H. destruct H.
Qed.

Lemma search_from_unfold ic r sn rs :
  search_from ic r sn rs =
  match try_at ic r sn rs with
  | Some m => Some m
  | None =>
      match rs with
      | x :: rs' => search_from ic r (x :: sn) rs'
      | [] => None
      end
  end.
Proof. destruct rs; reflexivity. Qed.

Lemma try_at_good v sn m :
  names <> [] -> ~ In "="%char v ->
  try_at false pattern sn (v ++ from_equals) = Some m -> group 1 m = l.
Proof.
  intros Hne Hv. pose proof (pattern_good v sn Hne Hv) as G.
  unfold try_at. destruct (match_at false pattern _) as [|c' tl]; [discriminate|].
  intros E. injection E as <-. unfold group. cbn [m_groups].
  simpl in G. rewrite G. reflexivity.
Qed.

(** [re.search] on a blob whose first equals sign belongs to an assignment
    of one of the names: the match captures the assigned literal. *)
Lemma search_assignment n u pre :
  In n names -> forallb isspace u = true -> ~ In "="%char pre ->
  exists m,
    search false pattern (pre ++ txt n ++ u ++ from_equals) = Some m
    /\ group 1 m = l.
Proof.
  intros Hn Hu Hpre. unfold search.
  assert (Hne : names <> []) by (destruct names; [destruct Hn|discriminate]).
  assert (Hnu : ~ In "="%char (txt n ++ u)).
  { intros H. apply in_app_or in H as [H|H].
    - now apply (names_plain n Hn).
    - rewrite forallb_forall in Hu. apply Hu in H. discriminate. }
  replace (pre ++ txt n ++ u ++ from_equals)
    with ((pre ++ (txt n ++ u)) ++ from_equals)
    by now rewrite <- !app_assoc.
  generalize (@nil ascii) as sn.
  induction pre as [|x pre IH]; intros sn.
  - cbn [app]. rewrite search_from_unfold.
    destruct (try_at false pattern sn ((txt n ++ u) ++ from_equals)) as [m|] eqn:E.
    + exists m. split; [reflexivity|]. eapply try_at_good; eauto.
    + exfalso. unfold try_at in E.
      pose proof (pattern_matches n u sn Hn Hu) as M.
      rewrite <- app_assoc in E.
      destruct (match_at false pattern _); [contradiction|discriminate].
  - assert (Hx : ~ In "="%char (x :: pre ++ txt n ++ u)).
    { intros [E|H]; [apply Hpre; now left|].
      apply in_app_or in H as [H|H]; [|contradiction].
      apply Hpre. now right. }
    rewrite search_from_unfold.
    destruct (try_at false pattern sn (((x :: pre) ++ txt n ++ u) ++ from_equals))
      as [m|] eqn:E.
    + exists m. split; [reflexivity|]. eapply try_at_good; eauto.
    + cbn [app]. apply IH. intros H. apply Hpre. now right.
Qed.

(** *** Earlier equals signs *)

(** The names hold no blank and no character of the literal. *)
Hypothesis names_solid :
  forall n c, In n names -> In c (txt n) -> isspace c = false /\ p c = false.

(** One of the names stands right before a position, blanks apart; [sn]
    holds the characters before the position, nearest first. *)
Definition named_before (sn : text) : bool :=
  existsb (fun n => startswith (rev (txt n)) (lstrip_by isspace sn)) names.

(** A character of the literal stands right after a position, blanks
    apart. *)
Definition number_after (s : text) : bool :=
  match lstrip_by isspace s with
  | c :: _ => p c
  | [] => false
  end.

(** A text holds an assignment to one of the names: an equals sign with one
    of the names before it and a character of the literal after it, blanks
    apart. The name may be the end of a longer word. *)
Fixpoint assigned_in (sn s : text) : bool :=
  match s with
  | [] => false
  | c :: s' =>
      ((if ascii_dec "=" c then true else false)
       && named_before sn && number_after s')
      || assigned_in (c :: sn) s'
  end.

Lemma first_equals (v : text) :
  ~ In "="%char v \/ exists v0 b, v = v0 ++ "="%char :: b /\ ~ In "="%char v0.
Proof.
  induction v as [|x v IH]; [left; intros []|].
  destruct (ascii_dec "=" x) as [<-|N].
  - right. exists [], v. split; [reflexivity|intros []].
  - destruct IH as [H|[v0 [b [-> H]]]].
    + left. intros [E|I]; [now apply N|now apply H].
    + right. exists (x :: v0), b. split; [reflexivity|].
      intros [E|I]; [now apply N|now apply H].
Qed.

Lemma assigned_in_app a : forall sn b,
  assigned_in sn (a ++ b) = false -> assigned_in (rev a ++ sn) b = false.
Proof.
  induction a as [|x a IH]; intros sn b H; [exact H|].
  cbn [app assigned_in] in H. apply orb_false_iff in H as [_ H].
  apply IH in H. cbn [rev]. now rewrite <- app_assoc.
Qed.

Lemma assigned_in_here sn b :
  assigned_in sn ("="%char :: b) = false ->
  named_before sn && number_after b = false.
Proof.
  cbn [assigned_in]. intros H. apply orb_false_iff in H as [H _].
  destruct (ascii_dec "=" "="); [exact H|contradiction].
Qed.

Lemma lstrip_by_blank_app a r :
  forallb isspace a = true -> lstrip_by isspace (a ++ r) = lstrip_by isspace r.
Proof.
  induction a as [|x a IH]; simpl; [reflexivity|].
  intros H. apply andb_true_iff in H as [-> H]. auto.
Qed.

Lemma lstrip_by_cons_app (q : ascii -> bool) a c a' r :
  lstrip_by q a = c :: a' -> lstrip_by q (a ++ r) = c :: a' ++ r.
Proof.
  induction a as [|x a IH]; simpl; [discriminate|].
  destruct (q x); [exact IH|]. intros E. injection E as <- <-. reflexivity.
Qed.

Lemma lstrip_by_nil_blank (q : ascii -> bool) a :
  lstrip_by q a = [] -> forallb q a = true.
Proof.
  induction a as [|x a IH]; simpl; [reflexivity|].
  destruct (q x); [exact IH|discriminate].
Qed.

Lemma startswith_self_app (t r : text) : startswith t (t ++ r) = true.
Proof.
  induction t as [|c t IH]; [reflexivity|].
  simpl. destruct (ascii_dec c c); [assumption|contradiction].
Qed.

(** After a name and blanks, what was seen reads as the name. *)
Lemma named_before_name n v1 sn :
  In n names -> forallb isspace v1 = true ->
  named_before (rev (txt n ++ v1) ++ sn) = true.
Proof.
  intros Hn Hv. unfold named_before. apply existsb_exists. exists n.
  split; [assumption|].
  rewrite rev_app_distr, <- app_assoc, lstrip_by_blank_app.
  2:{ rewrite forallb_forall in *. intros x Hx. apply Hv. now apply in_rev. }
  rewrite lstrip_by_id; [apply startswith_self_app|].
  destruct (rev (txt n)) as [|c t] eqn:E.
  { exfalso. apply (proj1 (names_plain n Hn)).
    rewrite <- (rev_involutive (txt n)), E. reflexivity. }
  cbn [app starts_clean].
  apply (names_solid n c Hn). apply in_rev. rewrite E. now left.
Qed.

Lemma literal_group_fails sn rs g :
  match rs with
  | c :: _ => p c
  | [] => false
  end = false ->
  match_at false literal_group (Cursor sn rs g) = [].
Proof.
  intros H. unfold literal_group. cbn [match_at seen rest groups rep].
  destruct rs as [|c rs]; [reflexivity|]. now rewrite H.
Qed.

(** The tail of the pattern at a text that reaches an equals sign after
    [v1]: it matches only when [v1] is blank, and then the literal starts
    after the blanks that follow the sign. *)
Lemma tail_at_equals v1 tail sn g :
  ~ In "="%char v1 ->
  exists s2,
    match_at false assignment_tail (Cursor sn (v1 ++ "="%char :: tail) g)
    = if forallb isspace v1
      then match_at false literal_group (Cursor s2 (lstrip_by isspace tail) g)
      else [].
Proof.
  intros Hv. rewrite tail_after_blanks.
  destruct (forallb isspace v1) eqn:Hb.
  - rewrite (lstrip_by_blank_app v1 _ Hb). cbn [lstrip_by].
    change (isspace "=") with false. cbv iota.
    generalize (span_seen isspace sn (v1 ++ "="%char :: tail)). intros s.
    eexists. unfold after_blanks.
    change (match_at false (Seq (Chr "=") ws) (Cursor s ("="%char :: tail) g))
      with (flat_map (match_at false ws)
              (step1 (chr_eqb false "=") (Cursor s ("="%char :: tail) g))).
    unfold step1, chr_eqb. cbn [rest seen groups].
    destruct (ascii_dec "=" "="); [|contradiction].
    cbn [flat_map]. rewrite app_nil_r, match_ws.
    rewrite run_then; [reflexivity|].
    intros. now apply literal_group_rejects_space.
  - exists sn. clear - Hb Hv. revert sn.
    induction v1 as [|y v1 IH]; intros sn; [discriminate|].
    cbn [app lstrip_by span_seen forallb] in *. destruct (isspace y) eqn:Hy.
    + apply IH; [|exact Hb]. intros H. apply Hv. now right.
    + apply after_blanks_rejects. intros ->. apply Hv. now left.
Qed.

(** At any position before the assignment, when the text from there to the
    assignment holds no assignment to one of the names, the pattern fails
    or captures the literal. *)
Lemma pattern_good_before n u v sn :
  In n names -> forallb isspace u = true ->
  assigned_in sn v = false ->
  good [] (match_at false pattern (Cursor sn (v ++ txt n ++ u ++ from_equals) [])).
Proof.
  intros Hn Hu Ha.
  assert (Hne : names <> []) by (destruct names; [destruct Hn|discriminate]).
  assert (Hnu : ~ In "="%char (txt n ++ u)).
  { intros H. apply in_app_or in H as [H|H].
    - now apply (names_plain n Hn).
    - rewrite forallb_forall in Hu. apply Hu in H. discriminate. }
  destruct (first_equals v) as [Hv|[v0 [b [-> Hv0]]]].
  - replace (v ++ txt n ++ u ++ from_equals) with ((v ++ txt n ++ u) ++ from_equals)
      by now rewrite <- !app_assoc.
    apply pattern_good; [assumption|].
    intros H. apply in_app_or in H as [H|H]; [now apply Hv|now apply Hnu].
  - rewrite (pattern_unfold Hne). cbn [match_at].
    apply good_flat_map. intros c1 H1.
    apply match_alt_nonempty in H1 as [r' [Hr H1]].
    2:{ intros E. apply map_eq_nil in E. contradiction. }
    apply in_map_iff in Hr as [n' [<- Hn']].
    destruct (names_plain n' Hn') as [Hn1 Hn2].
    apply match_lit_only in H1 as [R G]; [|exact Hn1].
    cbn [rest groups] in R, G. symmetry in R.
    rewrite <- app_assoc in R. cbn [app] in R.
    apply split_before_equals in R as [v1 [-> R]]; auto.
    destruct c1 as [s1 r1 g1]. cbn [rest groups] in *. subst r1 g1.
    assert (Hv1 : ~ In "="%char v1).
    { intros H. apply Hv0. apply in_or_app. now right. }
    destruct (tail_at_equals v1 (b ++ txt n ++ u ++ from_equals) s1 [] Hv1)
      as [s2 ->].
    destruct (forallb isspace v1) eqn:Hb; [|exact I].
    apply assigned_in_app, assigned_in_here in Ha.
    rewrite (named_before_name n' v1 sn Hn' Hb) in Ha. cbn [andb] in Ha.
    rewrite literal_group_fails; [exact I|].
    assert (Hhead : exists c t, txt n = c :: t /\ isspace c = false /\ p c = false).
    { destruct (txt n) as [|c t] eqn:E; [now destruct (names_plain n Hn)|].
      exists c, t. split; [reflexivity|].
      apply (names_solid n c Hn). rewrite E. now left. }
    destruct Hhead as [c [t [En [Sc Pc]]]].
    unfold number_after in Ha.
    destruct (lstrip_by isspace b) as [|y b'] eqn:Eb.
    + apply lstrip_by_nil_blank in Eb.
      rewrite (lstrip_by_blank_app b _ Eb), En. cbn [app lstrip_by].
      now rewrite Sc.
    + now rewrite (lstrip_by_cons_app isspace b y b' _ Eb).
Qed.

(** [re.search] on a blob that assigns the literal to one of the names,
    with no assignment to one of the names before: the match captures the
    assigned literal. *)
Lemma search_first_assignment n u pre :
  In n names -> forallb isspace u = true ->
  assigned_in [] pre = false ->
  exists m,
    search false pattern (pre ++ txt n ++ u ++ from_equals) = Some m
    /\ group 1 m = l.
Proof.
  intros Hn Hu. unfold search. generalize (@nil ascii) as sn.
  induction pre as [|x pre IH]; intros sn Ha.
  - cbn [app]. rewrite search_from_unfold.
    pose proof (pattern_good_before n u [] sn Hn Hu Ha) as G.
    pose proof (pattern_matches n u sn Hn Hu) as M.
    cbn [app] in G. unfold try_at.
    destruct (match_at false pattern _) as [|c' tl]; [contradiction|].
    eexists. split; [reflexivity|]. unfold group. cbn [m_groups].
    simpl in G. rewrite G. reflexivity.
  - rewrite search_from_unfold.
    pose proof (pattern_good_before n u (x :: pre) sn Hn Hu Ha) as G.
    unfold try_at.
    destruct (match_at false pattern (Cursor sn ((x :: pre) ++ _) [])) as [|c' tl].
    + cbn [app]. apply IH.
      cbn [assigned_in] in Ha. now apply orb_false_iff in Ha as [_ Ha].
    + eexists. split; [reflexivity|]. unfold group. cbn [m_groups].
      simpl in G. rewrite G. reflexivity.
Qed.

End Assignment.

(** ** C6: assignments and defaults *)

Section SeededDefaults.

Import Re NotebookParser.

(** The parameters of the checklist whose default is read from the blob. *)
Inductive seeded := Width | Height | Steps | CfgScale | Strength.

Definition seeded_name (k : seeded) : text :=
  match k with
  | Width => txt "width"
  | Height => txt "height"
  | Steps => txt "steps"
  | CfgScale => txt "cfg_scale"
  | Strength => txt "strength"
  end.

(** The names its assignment pattern accepts on the left of the sign. *)
Definition seeded_aliases (k : seeded) : list string :=
  match k with
  | Width => ["width"; "w"]
  | Height => ["height"; "h"]
  | Steps => ["steps"; "num_inference_steps"; "inference_steps"]
  | CfgScale => ["cfg_scale"; "guidance_scale"; "cfg"]
  | Strength => ["strength"]
  end%string.

(** The characters of the literal on the right, and its conversion. *)
Definition seeded_class (k : seeded) : ascii -> bool :=
  match k with
  | Width | Height | Steps => isdigit
  | CfgScale | Strength => digit_or_dot
  end.

Definition seeded_convert (k : seeded) : text -> result value :=
  match k with
  | Width | Height | Steps => int_value
  | CfgScale | Strength => float_value
  end.

Definition seeded_pattern (k : seeded) : regex :=
  match k with
  | Width => width_var
  | Height => height_var
  | Steps => steps_var
  | CfgScale => cfg_var
  | Strength => strength_var
  end.

(** The parameter the checklist adds, given its default. *)
Definition seeded_param (k : seeded) (d : value) : Param :=
  match k with
  | Width => standard_width d
  | Height => standard_height d
  | Steps => standard_steps d
  | CfgScale => cfg_scale_param d
  | Strength => strength_param d
  end.

(** The parameters of the checklist whose default is fixed: the keyword
    that adds them, the parameter and its default. *)
Definition fixed_defaults : list (string * Param * value) :=
  [ ("prompt", prompt_param, VStr []);
    ("negative_prompt", negative_prompt_param, VStr []);
    ("seed", seed_param, VInt (-1)) ]%string.

Lemma seeded_pattern_eq k :
  seeded_pattern k = pattern (seeded_aliases k) (seeded_class k).
Proof. destruct k; reflexivity. Qed.

Lemma seeded_aliases_plain k n :
  In n (seeded_aliases k) -> txt n <> [] /\ ~ In "="%char (txt n).
Proof.
  destruct k; simpl; intros H;
    repeat (destruct H as [<-|H]; [split; [discriminate|vm_compute; intuition discriminate]|]);
    destruct H.
Qed.

Lemma seeded_class_not_space k c : seeded_class k c = true -> isspace c = false.
Proof.
  destruct k; destruct c as [[] [] [] [] [] [] [] []]; vm_compute; congruence.
Qed.

Lemma seeded_aliases_solid k n c :
  In n (seeded_aliases k) -> In c (txt n) ->
  isspace c = false /\ seeded_class k c = false.
Proof.
  destruct k; simpl; intros H Hc;
    repeat (destruct H as [<-|H];
            [simpl in Hc;
             repeat (destruct Hc as [<-|Hc]; [split; reflexivity|]);
             destruct Hc|]);
    destruct H.
Qed.

(** The text before an assignment holds an assignment to the parameter: an
    equals sign with one of the names of the pattern before it and a
    character of its literal after it, blanks apart. The patterns have no
    word boundary, so a name counts also as the end of a longer word. *)
Definition assigned_before (k : seeded) (pre : text) : bool :=
  assigned_in (seeded_aliases k) (seeded_class k) [] pre.

(** The name that follows a text stands as a word of its own: the text is
    empty or ends with a character that is no letter, digit or
    underscore. *)
Definition word_starts_after (pre : text) : Prop := ends_clean PyText.isword pre.

Lemma seeded_search k alias pre ws1 ws2 literal post :
  In alias (seeded_aliases k) ->
  assigned_before k pre = false ->
  forallb isspace ws1 = true -> forallb isspace ws2 = true ->
  literal <> [] -> forallb (seeded_class k) literal = true ->
  starts_clean (seeded_class k) post ->
  exists m,
    search false (seeded_pattern k)
           (pre ++ txt alias ++ ws1 ++ "="%char :: ws2 ++ literal ++ post) = Some m
    /\ group 1 m = literal.
Proof.
  intros Ha Hpre H1 H2 Hl Hc Hpost. rewrite seeded_pattern_eq.
  apply (search_first_assignment (seeded_aliases k) (seeded_class k)
           (seeded_aliases_plain k) (seeded_class_not_space k)
           ws2 literal post H2 Hl Hc Hpost (seeded_aliases_solid k)
           alias ws1 pre Ha H1 Hpre).
Qed.

(** *** Looking a name up in the checklist *)

Lemma find_named_optional n b p :
  find_named n (optional b p) = if b && text_eqb (name p) n then Some p else None.
Proof.
  unfold find_named. destruct b; simpl; [|reflexivity].
  destruct (text_eqb (name p) n); reflexivity.
Qed.

Ltac compare_names :=
  repeat match goal with
         | |- context [text_eqb ?a ?b] =>
             let v := eval vm_compute in (text_eqb a b) in
             change (text_eqb a b) with v
         end.

Ltac find_in_checklist :=
  unfold checklist;
  rewrite !find_named_app, !find_named_optional;
  compare_names;
  rewrite ?andb_false_r, ?andb_true_r; cbv iota.

Lemma checklist_find_seeded k code bw bh bs bc bt dw dh ds dc dt :
  find_named (seeded_name k) (checklist code bw bh bs bc bt dw dh ds dc dt)
  = match k with
    | Width => if bw then Some (standard_width dw) else None
    | Height => if bh then Some (standard_height dh) else None
    | Steps => if bs then Some (standard_steps ds) else None
    | CfgScale => if bc then Some (cfg_scale_param dc) else None
    | Strength => if bt then Some (strength_param dt) else None
    end.
Proof.
  destruct k; unfold seeded_name; find_in_checklist;
    match goal with
    | |- context [if ?b then Some ?p else None] => destruct b; reflexivity
    end.
Qed.

Lemma checklist_find_fixed kw p d code bw bh bs bc bt dw dh ds dc dt :
  In (kw, p, d) fixed_defaults ->
  mentions [kw] code = true ->
  find_named (txt kw) (checklist code bw bh bs bc bt dw dh ds dc dt) = Some p.
Proof.
  unfold fixed_defaults. simpl.
  intros [E|[E|[E|[]]]] M; injection E as <- <- <-; find_in_checklist;
    rewrite M; reflexivity.
Qed.

(** What is found in the parameters [_detect_parameters] returns is what is
    found first in the detections. *)
Lemma detect_parameters_find code ps n p :
  _detect_parameters code = Ok ps ->
  (forall standard,
      _detect_standard_image_params code = Ok standard ->
      find_named n standard = Some p) ->
  find_named n ps = Some p.
Proof.
  intros H F. apply detect_parameters_shape in H as [standard [Hs ->]].
  specialize (F standard Hs). cbv zeta.
  match goal with
  | |- context [add_params ?new ?acc] =>
      destruct (first_detection_wins new) as [_ W]; specialize (W n)
  end.
  cbv zeta in W. rewrite find_named_app, F in W.
  destruct (fst _); [discriminate|exact W].
Qed.

(** C6, amended. When the blob assigns a number to width, height, steps,
    the cfg scale or the strength, that is, holds one of the names of the
    parameter's pattern as a word of its own, then an equals sign, then the
    number (blanks allowed around the sign, the number running as far as
    its characters go), and nothing before it in the blob is an assignment
    to the parameter, then the parameter has the assigned number as its
    default, whatever else the blob mentions and whatever is assigned to
    other names before. The defaults of prompt, negative_prompt and seed do
    not come from the blob: when the blob mentions them, the parameter is
    the built-in one, with the defaults empty, empty and -1. *)
Theorem assignment_seeds_default :
  (forall (k : seeded) (alias : string) (pre ws1 ws2 literal post : text)
          (d : value) (ps : list Param),
      In alias (seeded_aliases k) ->
      word_starts_after pre ->
      assigned_before k pre = false ->
      forallb isspace ws1 = true -> forallb isspace ws2 = true ->
      literal <> [] -> forallb (seeded_class k) literal = true ->
      starts_clean (seeded_class k) post ->
      seeded_convert k literal = Ok d ->
      NotebookParser._detect_parameters
        (pre ++ txt alias ++ ws1 ++ "="%char :: ws2 ++ literal ++ post) = Ok ps ->
      find_named (seeded_name k) ps = Some (seeded_param k d)
      /\ default_value (seeded_param k d) = d)
  /\ (forall (code : text) (ps : list Param) (kw : string) (p : Param) (d : value),
        In (kw, p, d) fixed_defaults ->
        mentions [kw] code = true ->
        NotebookParser._detect_parameters code = Ok ps ->
        find_named (txt kw) ps = Some p /\ default_value p = d).
Proof.
  split.
  - intros k alias pre ws1 ws2 literal post d ps Ha _ Hpre H1 H2 Hl Hc Hpost Hd H.
    split; [|destruct k; reflexivity].
    destruct (seeded_search k alias pre ws1 ws2 literal post Ha Hpre H1 H2 Hl Hc Hpost)
      as [m [Hs Hg]].
    apply (detect_parameters_find _ _ _ _ H).
    intros standard Hstd.
    apply standard_params_shape in Hstd
      as [bw [bh [bs [bc [bt [dw [dh [ds [dc [dt [-> [Aw [Ah [As [Ac At]]]]]]]]]]]]]]].
    rewrite checklist_find_seeded.
    unfold assigned_default in *.
    destruct k; cbn [seeded_pattern seeded_convert seeded_param] in *;
      rewrite Hs in *; rewrite Hg in *.
    + destruct Aw as [-> E]. congruence.
    + destruct Ah as [-> E]. congruence.
    + destruct As as [-> E]. congruence.
    + destruct Ac as [-> E]. congruence.
    + destruct At as [-> E]. congruence.
  - intros code ps kw p d Hin M H. split.
    + apply (detect_parameters_find _ _ _ _ H).
      intros standard Hstd.
      apply standard_params_shape in Hstd
        as [bw [bh [bs [bc [bt [dw [dh [ds [dc [dt [-> _]]]]]]]]]]].
      now apply (checklist_find_fixed kw p d).
    + unfold fixed_defaults in Hin. simpl in Hin.
      destruct Hin as [E|[E|[E|[]]]]; injection E as <- <- <-; reflexivity.
Qed.

(** The code of the scenario of the specification: the width is assigned
    after the prompt, the steps after both. *)
Definition scenario_blob : text :=
  line "prompt = 'x'" ++ line "width = 768" ++ line "steps = 30".

Definition scenario_params : list Param :=
  Eval vm_compute in
    match _detect_parameters scenario_blob with
    | Ok ps => ps
    | Raise _ => []
    end.

(** A blob in which the seed is assigned and mentioned again. *)
Definition seeded_blob : text := line "seed = 42" ++ txt "print(seed)".

Lemma assignment_seeds_default_witness :
  ((In "width"%string (seeded_aliases Width)
    /\ word_starts_after (line "prompt = 'x'")
    /\ assigned_before Width (line "prompt = 'x'") = false
    /\ forallb isspace (txt " ") = true /\ forallb isspace (txt " ") = true
    /\ txt "768" <> [] /\ forallb (seeded_class Width) (txt "768") = true
    /\ starts_clean (seeded_class Width) (newline :: line "steps = 30")
    /\ seeded_convert Width (txt "768") = Ok (VInt 768)
    /\ NotebookParser._detect_parameters
         (line "prompt = 'x'" ++ txt "width" ++ txt " "
               ++ "="%char :: txt " " ++ txt "768" ++ newline :: line "steps = 30")
       = Ok scenario_params)
   /\ find_named (seeded_name Width) scenario_params
      = Some (seeded_param Width (VInt 768))
      /\ default_value (seeded_param Width (VInt 768)) = VInt 768)
  /\ ((In "steps"%string (seeded_aliases Steps)
       /\ word_starts_after (line "prompt = 'x'" ++ line "width = 768")
       /\ assigned_before Steps (line "prompt = 'x'" ++ line "width = 768") = false
       /\ NotebookParser._detect_parameters
            ((line "prompt = 'x'" ++ line "width = 768") ++ txt "steps" ++ txt " "
               ++ "="%char :: txt " " ++ txt "30" ++ [newline])
          = Ok scenario_params)
      /\ find_named (seeded_name Steps) scenario_params
         = Some (seeded_param Steps (VInt 30)))
  /\ ((In ("seed"%string, seed_param, VInt (-1)) fixed_defaults
       /\ mentions ["seed"]%string seeded_blob = true
       /\ NotebookParser._detect_parameters seeded_blob = Ok [seed_param])
      /\ find_named (txt "seed") [seed_param] = Some seed_param
         /\ default_value seed_param = VInt (-1)).
Proof.
  split; [|split].
  - split.
    + repeat split; try reflexivity; try discriminate. simpl. auto.
    + apply (proj1 assignment_seeds_default Width "width"%string
               (line "prompt = 'x'") (txt " ") (txt " ") (txt "768")
               (newline :: line "steps = 30") (VInt 768) scenario_params);
        try reflexivity; try discriminate.
      simpl. auto.
  - split.
    + repeat split; try reflexivity. simpl. auto.
    + apply (proj1 assignment_seeds_default Steps "steps"%string
               (line "prompt = 'x'" ++ line "width = 768") (txt " ") (txt " ")
               (txt "30") [newline] (VInt 30) scenario_params);
        try reflexivity; try discriminate.
      simpl. auto.
  - split.
    + repeat split; try reflexivity. simpl. auto.
    + apply (proj2 assignment_seeds_default seeded_blob [seed_param] "seed"%string
               seed_param (VInt (-1))); try reflexivity.
      simpl. auto.
Defined.

(** C6 as stated fails: a blob that assigns the seed and names it again
    gives the seed parameter its built-in default, not the assigned
    number. *)
Lemma assigned_seed_ignored :
  NotebookParser._detect_parameters (line "seed = 42" ++ txt "print(seed)")
  = Ok [seed_param]
  /\ default_value seed_param = VInt (-1)
  /\ default_value seed_param <> VInt 42.
Proof. repeat split; try reflexivity. discriminate. Qed.

(** The pattern of the height accepts the last letter of [width] as the name
    on the left of the sign, so an assigned width is read as a height
    too. *)
Example height_reads_assigned_width :
  NotebookParser._detect_parameters (line "width = 768" ++ txt "height = 512")
  = Ok [standard_width (VInt 768); standard_height (VInt 768)].
Proof. reflexivity. Qed.

(** Such blobs are the ones left out above: the text before the height
    holds an assignment that the pattern of the height reads, and the
    letter it reads as the name is no word of its own. *)
Example height_after_width_left_out :
  assigned_before Height (line "width = 768") = true
  /\ ~ word_starts_after (txt "widt").
Proof. split; [reflexivity|]. unfold word_starts_after, ends_clean. simpl. discriminate. Qed.

End SeededDefaults.

(** ** The accounts of the manager *)

Section Accounts.

Import PyText ColabManagerState.

Definition emails (accounts : list GoogleAccount) : list text := map email accounts.

(** The accounts marked as the default. *)
Definition defaults (accounts : list GoogleAccount) : list GoogleAccount :=
  filter is_default accounts.

Lemma known_email accounts e :
  existsb (fun acc => text_eqb (email acc) e) accounts = true <-> In e (emails accounts).
Proof.
  rewrite existsb_exists. unfold emails. rewrite in_map_iff.
  split; intros [acc [H1 H2]]; exists acc.
  - apply text_eqb_eq in H2. auto.
  - split; [assumption|]. now apply text_eqb_eq.
Qed.

Lemma unknown_email accounts e :
  existsb (fun acc => text_eqb (email acc) e) accounts = false <-> ~ In e (emails accounts).
Proof.
  rewrite <- known_email. destruct (existsb _ accounts); split; congruence.
Qed.

Lemma emails_with_is_default b accounts :
  emails (map (with_is_default b) accounts) = emails accounts.
Proof. unfold emails. rewrite map_map. reflexivity. Qed.

Lemma defaults_cleared accounts : defaults (map (with_is_default false) accounts) = [].
Proof. induction accounts as [|acc accounts IH]; simpl; auto. Qed.

(** The account [add_account] builds. *)
Definition new_account (email' name' : text) (is_default' : bool) : GoogleAccount :=
  mkAccount email'
            match name' with
            | [] => first_piece (split at_sign email')
            | _ :: _ => name'
            end
            None is_default'.

(** X1. [add_account] with an address that is already stored changes
    nothing: the stored account keeps its name and its mark, also when the
    call asks for a default account. With a new address the addresses
    stored are the old ones followed by the new one. *)
Theorem add_account_emails accounts e n d :
  (In e (emails accounts) -> add_account accounts e n d = accounts)
  /\ (~ In e (emails accounts) ->
      emails (add_account accounts e n d) = emails accounts ++ [e]).
Proof.
  unfold add_account. split; intros H.
  - apply known_email in H. now rewrite H.
  - apply unknown_email in H. rewrite H. unfold emails. rewrite map_app. simpl.
    destruct d; [|reflexivity].
    rewrite map_map. reflexivity.
Qed.

(** X2. [add_account] keeps the stored addresses distinct. *)
Theorem add_account_distinct accounts e n d :
  NoDup (emails accounts) -> NoDup (emails (add_account accounts e n d)).
Proof.
  intros H. destruct (in_dec (list_eq_dec ascii_dec) e (emails accounts)) as [I|I].
  - apply known_email in I. unfold add_account. now rewrite I.
  - assert (E : emails (add_account accounts e n d) = emails accounts ++ [e]).
    { unfold add_account. apply unknown_email in I. rewrite I.
      unfold emails. rewrite map_app. simpl.
      destruct d; [|reflexivity]. rewrite map_map. reflexivity. }
    rewrite E. apply NoDup_rev in H. rewrite <- (rev_involutive (_ ++ _)).
    apply NoDup_rev. rewrite rev_app_distr. simpl. constructor; [|assumption].
    now rewrite <- in_rev.
Qed.

Definition two_accounts : list GoogleAccount :=
  [ mkAccount (txt "ada@example.org") (txt "Ada") None true;
    mkAccount (txt "bob@example.org") (txt "bob") None false ].

Lemma add_account_emails_witness :
  In (txt "ada@example.org") (emails two_accounts)
  /\ ColabManagerState.add_account two_accounts (txt "ada@example.org")
                                   (txt "Countess") true
     = two_accounts.
Proof.
  assert (H : In (txt "ada@example.org") (emails two_accounts)) by (left; reflexivity).
  split; [exact H|].
  exact (proj1 (add_account_emails two_accounts (txt "ada@example.org")
                                   (txt "Countess") true) H).
Defined.

Lemma add_account_distinct_witness :
  NoDup (emails two_accounts)
  /\ NoDup (emails (add_account two_accounts (txt "eve@example.org") [] true)).
Proof.
  assert (H : NoDup (emails two_accounts)).
  { repeat constructor; simpl; intuition discriminate. }
  split; [exact H|].
  apply (add_account_distinct two_accounts (txt "eve@example.org") [] true H).
Defined.

(** X3. [add_account] never leaves more than one account marked as the
    default when there was at most one before; a new account added as the
    default is then the only one marked, and [get_default_account] returns
    it. *)
Theorem add_account_one_default accounts e n d :
  length (defaults accounts) <= 1 ->
  length (defaults (add_account accounts e n d)) <= 1
  /\ (~ In e (emails accounts) -> d = true ->
      defaults (add_account accounts e n d) = [new_account e n true]
      /\ get_default_account (add_account accounts e n d)
         = Some (new_account e n true)).
Proof.
  intros H. unfold add_account.
  destruct (existsb _ accounts) eqn:K.
  - split; [assumption|]. intros I. apply unknown_email in I. congruence.
  - fold (new_account e n d). destruct d.
    + assert (E : defaults (map (with_is_default false) accounts ++ [new_account e n true])
                  = [new_account e n true]).
      { unfold defaults. rewrite filter_app. fold (defaults (map (with_is_default false) accounts)).
        now rewrite defaults_cleared. }
      rewrite E. split; [simpl; lia|]. intros _ _. split; [reflexivity|].
      unfold get_default_account.
      assert (F : forall l r, defaults l = [] ->
                  find is_default (l ++ [r]) = find is_default [r]).
      { clear. induction l as [|a l IH]; intros r H; [reflexivity|].
        simpl in *. destruct (is_default a); [discriminate|]. now apply IH. }
      rewrite F by apply defaults_cleared. reflexivity.
    + split; [|discriminate].
      unfold defaults. rewrite filter_app. simpl. rewrite app_nil_r. exact H.
Qed.

Lemma add_account_one_default_witness :
  length (defaults two_accounts) <= 1
  /\ length (defaults (add_account two_accounts (txt "eve@example.org") [] true)) <= 1
  /\ (~ In (txt "eve@example.org") (emails two_accounts) -> true = true ->
      defaults (add_account two_accounts (txt "eve@example.org") [] true)
      = [new_account (txt "eve@example.org") [] true]
      /\ get_default_account (add_account two_accounts (txt "eve@example.org") [] true)
         = Some (new_account (txt "eve@example.org") [] true)).
Proof.
  assert (H : length (defaults two_accounts) <= 1) by (simpl; lia).
  split; [exact H|].
  apply (add_account_one_default two_accounts (txt "eve@example.org") [] true H).
Defined.

(** X4. After [set_default_account] with the address of a stored account,
    [get_default_account] returns the first account with that address,
    marked; every account with another address is unmarked. *)
Theorem set_default_then_get before acc after :
  ~ In (email acc) (emails before) ->
  get_default_account (set_default_account (before ++ acc :: after) (email acc))
  = Some (with_is_default true acc)
  /\ Forall (fun a => is_default a = text_eqb (email a) (email acc))
            (set_default_account (before ++ acc :: after) (email acc)).
Proof.
  intros H. split.
  - unfold get_default_account, set_default_account.
    rewrite map_app. simpl. rewrite text_eqb_refl.
    assert (F : find is_default
                  (map (fun a => with_is_default (text_eqb (email a) (email acc)) a) before
                   ++ with_is_default true acc
                   :: map (fun a => with_is_default (text_eqb (email a) (email acc)) a) after)
                = Some (with_is_default true acc)).
    { induction before as [|b before IH]; [reflexivity|].
      simpl in *. destruct (text_eqb (email b) (email acc)) eqn:E.
      - apply text_eqb_eq in E. tauto.
      - apply IH. tauto. }
    now rewrite F.
  - unfold set_default_account. apply Forall_forall. intros a Ha.
    apply in_map_iff in Ha as [a0 [<- _]]. reflexivity.
Qed.

Lemma set_default_then_get_witness :
  ~ In (email (mkAccount (txt "bob@example.org") (txt "bob") None false))
       (emails [mkAccount (txt "ada@example.org") (txt "Ada") None true])
  /\ get_default_account (set_default_account two_accounts (txt "bob@example.org"))
     = Some (mkAccount (txt "bob@example.org") (txt "bob") None true).
Proof.
  assert (H : ~ In (email (mkAccount (txt "bob@example.org") (txt "bob") None false))
                   (emails [mkAccount (txt "ada@example.org") (txt "Ada") None true])).
  { simpl. intuition discriminate. }
  split; [exact H|].
  exact (proj1 (set_default_then_get
                  [mkAccount (txt "ada@example.org") (txt "Ada") None true]
                  (mkAccount (txt "bob@example.org") (txt "bob") None false) [] H)).
Defined.

(** X5. [set_default_account] with an address that is not stored unmarks
    every account, and [get_default_account] then falls back on the first
    stored account. *)
Theorem set_default_unknown accounts e :
  ~ In e (emails accounts) ->
  defaults (set_default_account accounts e) = []
  /\ get_default_account (set_default_account accounts e)
     = hd_error (map (with_is_default false) accounts).
Proof.
  intros H.
  assert (E : set_default_account accounts e = map (with_is_default false) accounts).
  { unfold set_default_account. apply map_ext_in. intros a Ha.
    replace (text_eqb (email a) e) with false; [reflexivity|].
    symmetry. apply text_eqb_neq. intros <-. apply H. now apply in_map. }
  rewrite E. split; [apply defaults_cleared|].
  unfold get_default_account.
  assert (F : forall l, defaults l = [] -> find is_default l = None).
  { clear. induction l as [|a l IH]; intros H; [reflexivity|].
    simpl in *. destruct (is_default a); [discriminate|]. now apply IH. }
  now rewrite F by apply defaults_cleared.
Qed.

Lemma set_default_unknown_witness :
  ~ In (txt "eve@example.org") (emails two_accounts)
  /\ defaults (set_default_account two_accounts (txt "eve@example.org")) = []
  /\ get_default_account (set_default_account two_accounts (txt "eve@example.org"))
     = hd_error (map (with_is_default false) two_accounts).
Proof.
  assert (H : ~ In (txt "eve@example.org") (emails two_accounts)).
  { simpl. intuition discriminate. }
  split; [exact H|].
  apply (set_default_unknown two_accounts (txt "eve@example.org") H).
Defined.

(** X6. [open_colab_in_browser] appends [authuser=i] where [i] is the
    position of the first stored account with the address, after [&] when
    the address of the notebook holds a question mark and after [?]
    otherwise; with no address or one that is not stored the address of
    the notebook is opened as it is. *)
Theorem open_colab_authuser before acc after url :
  email acc <> [] ->
  ~ In (email acc) (emails before) ->
  open_colab_in_browser (before ++ acc :: after) url (Some (email acc))
  = url ++ (if contains (txt "?") url then txt "&" else txt "?")
        ++ txt "authuser=" ++ str_of_Z (Z.of_nat (length before))
  /\ open_colab_in_browser (before ++ acc :: after) url None = url
  /\ forall e, ~ In e (emails (before ++ acc :: after)) ->
               open_colab_in_browser (before ++ acc :: after) url (Some e) = url.
Proof.
  intros Hne H. split; [|split; [reflexivity|]].
  - unfold open_colab_in_browser.
    destruct (email acc) as [|c e] eqn:E; [congruence|]. rewrite <- E in *. clear Hne.
    assert (G : forall i,
               with_authuser url (email acc) i (before ++ acc :: after)
               = url ++ (if contains (txt "?") url then txt "&" else txt "?")
                     ++ txt "authuser=" ++ str_of_Z (Z.of_nat (i + length before))).
    { induction before as [|b before IH]; intros i.
      - simpl. rewrite text_eqb_refl. now rewrite Nat.add_0_r.
      - cbn [app with_authuser length].
        replace (text_eqb (email b) (email acc)) with false.
        + rewrite IH by (simpl in H; tauto).
          now replace (S i + length before) with (i + S (length before)) by lia.
        + symmetry. apply text_eqb_neq. simpl in H. tauto. }
    apply (G 0).
  - intros e N. unfold open_colab_in_browser. destruct e as [|c e]; [reflexivity|].
    generalize 0. induction (before ++ acc :: after) as [|a l IH]; intros i;
      [reflexivity|].
    cbn [with_authuser].
    replace (text_eqb (email a) (c :: e)) with false.
    + apply IH. intros I. apply N. now right.
    + symmetry. apply text_eqb_neq. intros E. apply N. now left.
Qed.

Lemma open_colab_authuser_witness :
  email (mkAccount (txt "bob@example.org") (txt "bob") None false) <> []
  /\ open_colab_in_browser two_accounts (txt "https://colab.research.google.com/#create=true")
                           (Some (txt "bob@example.org"))
     = txt "https://colab.research.google.com/#create=true?authuser=1".
Proof.
  split; [discriminate|].
  apply (open_colab_authuser
           [mkAccount (txt "ada@example.org") (txt "Ada") None true]
           (mkAccount (txt "bob@example.org") (txt "bob") None false) []
           (txt "https://colab.research.google.com/#create=true")).
  - discriminate.
  - simpl. intuition discriminate.
Defined.

End Accounts.

(** ** The address of the backend *)

Section ApiUrl.

Import ColabManager ColabManagerState.

Lemma lstrip_by_all p s : forallb p s = true -> lstrip_by p s = [].
Proof.
  induction s as [|c s IH]; simpl; [reflexivity|].
  intros H. apply andb_true_iff in H as [Hc Hs]. rewrite Hc. auto.
Qed.

Lemma rstrip_by_all p s : forallb p s = true -> rstrip_by p s = [].
Proof.
  intros H. unfold rstrip_by. rewrite lstrip_by_all; [reflexivity|].
  rewrite forallb_forall in *. intros x Hx. apply H. now apply in_rev.
Qed.

(** X7. The address [set_api_url] stores is the one given without the
    slashes at its end: it does not end with a slash, and storing it again
    changes nothing. *)
Theorem set_api_url_strips url :
  let api_url := fst (set_api_url url) in
  (exists slashes, url = api_url ++ slashes /\ forallb is_slash slashes = true)
  /\ (forall s, api_url <> s ++ txt "/")
  /\ fst (set_api_url api_url) = api_url.
Proof.
  cbn [set_api_url fst]. split; [apply rstrip_by_split|]. split.
  - intros s E. pose proof (rstrip_by_clean is_slash url) as C.
    rewrite E in C. unfold ends_clean in C. rewrite rev_app_distr in C.
    simpl in C. discriminate.
  - apply rstrip_by_id, rstrip_by_clean.
Qed.

(** X8. [set_api_url] reports success for an address made of slashes only
    (or empty), but stores the empty address: [generate] and
    [check_connection] then fail with the message of the missing address,
    whatever the network would do. *)
Theorem set_api_url_slashes_only requests_get requests_post url params :
  forallb is_slash url = true ->
  set_api_url url
  = ([], VDict [(txt "success", VBool true);
                (txt "message", VStr (txt "API-URL gesetzt: "))])
  /\ generate requests_post (fst (set_api_url url)) params
     = inr (failure (txt "Keine API-URL konfiguriert"))
  /\ check_connection requests_get (fst (set_api_url url))
     = inr (failure (txt "Keine API-URL konfiguriert")).
Proof.
  intros H. unfold set_api_url. rewrite (rstrip_by_all _ _ H).
  rewrite app_nil_r. repeat split.
Qed.

Definition no_network_get (_ : text) (_ : Z) : comp response :=
  inl (ConnectionError (txt "unreachable")).
Definition no_network_post (_ : text) (_ : value) (_ : Z) : comp response :=
  inl (ConnectionError (txt "unreachable")).

Lemma set_api_url_slashes_only_witness :
  forallb is_slash (txt "//") = true
  /\ generate no_network_post (fst (set_api_url (txt "//"))) (VDict [])
     = inr (failure (txt "Keine API-URL konfiguriert")).
Proof.
  split; [reflexivity|].
  exact (proj1 (proj2 (set_api_url_slashes_only no_network_get no_network_post
                         (txt "//") (VDict []) eq_refl))).
Defined.

End ApiUrl.

(** ** Injecting the code of the interface *)

Section Injection.

Import PyText ColabManagerState.

Lemma dict_get_replace_same key v items :
  dict_get key items <> None ->
  dict_get key (dict_replace key v items) = Some v.
Proof.
  induction items as [|[k v0] items IH]; simpl; [congruence|].
  destruct (text_eqb k key) eqn:E; simpl; rewrite E; auto.
Qed.

Lemma dict_get_replace_other key k v items :
  k <> key ->
  dict_get k (dict_replace key v items) = dict_get k items.
Proof.
  intros N. induction items as [|[k0 v0] items IH]; simpl; [reflexivity|].
  destruct (text_eqb k0 key) eqn:E; simpl.
  - apply text_eqb_eq in E. subst k0.
    replace (text_eqb key k) with false; [reflexivity|].
    symmetry. apply text_eqb_neq. congruence.
  - now rewrite IH.
Qed.

Lemma dict_replace_keys key v items :
  map fst (dict_replace key v items) = map fst items.
Proof.
  induction items as [|[k0 v0] items IH]; simpl; [reflexivity|].
  destruct (text_eqb k0 key); simpl; congruence.
Qed.

(** X9. On a notebook whose cells are a list, [inject_api_code] returns
    the notebook with one more cell, the new one last; the cells before it
    and every other entry of the notebook stay as they were. *)
Theorem inject_api_code_appends items cells api_code :
  dict_get (txt "cells") items = Some (VList cells) ->
  exists items',
    inject_api_code (VDict items) api_code = inr (VDict items')
    /\ dict_get (txt "cells") items' = Some (VList (cells ++ [api_cell api_code]))
    /\ (forall key, key <> txt "cells" -> dict_get key items' = dict_get key items)
    /\ map fst items' = map fst items.
Proof.
  intros H. unfold inject_api_code. rewrite H.
  eexists. split; [reflexivity|]. split; [|split].
  - apply dict_get_replace_same. congruence.
  - intros key N. now apply dict_get_replace_other.
  - apply dict_replace_keys.
Qed.

Lemma inject_api_code_appends_witness :
  dict_get (txt "cells") [(txt "cells", VList []); (txt "nbformat", VInt 4)]
  = Some (VList [])
  /\ exists items',
       inject_api_code (VDict [(txt "cells", VList []); (txt "nbformat", VInt 4)])
                       (txt "import flask")
       = inr (VDict items')
       /\ dict_get (txt "cells") items'
          = Some (VList ([] ++ [api_cell (txt "import flask")]))
       /\ (forall key, key <> txt "cells" ->
           dict_get key items'
           = dict_get key [(txt "cells", VList []); (txt "nbformat", VInt 4)])
       /\ map fst items'
          = map fst [(txt "cells", VList []); (txt "nbformat", VInt 4)].
Proof.
  split; [reflexivity|].
  apply (inject_api_code_appends [(txt "cells", VList []); (txt "nbformat", VInt 4)]
                                 [] (txt "import flask")).
  reflexivity.
Defined.

(** X10. [inject_api_code] returns a notebook exactly when the notebook is
    a dict whose entry [cells] is a list. *)
Theorem inject_api_code_succeeds notebook api_code :
  (exists notebook', inject_api_code notebook api_code = inr notebook')
  <-> notebook_cells notebook <> None.
Proof.
  unfold inject_api_code, notebook_cells.
  destruct notebook as [| | | | | |items];
    try (split; [intros [n E]; discriminate|congruence]).
  destruct (dict_get (txt "cells") items) as [[| | | | |cells|]|];
    try (split; [intros [n E]; discriminate|congruence]).
  split; [congruence|eauto].
Qed.

Lemma inject_api_code_succeeds_witness :
  notebook_cells (VDict [(txt "cells", VList [])]) <> None
  /\ exists notebook',
       inject_api_code (VDict [(txt "cells", VList [])]) (txt "import flask")
       = inr notebook'.
Proof.
  assert (H : notebook_cells (VDict [(txt "cells", VList [])]) <> None)
    by discriminate.
  split; [exact H|].
  exact (proj2 (inject_api_code_succeeds (VDict [(txt "cells", VList [])])
                                         (txt "import flask")) H).
Defined.

(** X11. A notebook without the entry [cells] makes [inject_api_code] raise
    a [KeyError], while the parser analyses the same notebook as one
    without cells. *)
Theorem inject_api_code_missing_cells items filename api_code :
  dict_get (txt "cells") items = None ->
  inject_api_code (VDict items) api_code = inl KeyError
  /\ NotebookParser.parse_json (VDict items) filename = Ok (default_analysis filename).
Proof.
  intros H. unfold inject_api_code, NotebookParser.parse_json,
              NotebookParser._analyze_notebook.
  rewrite H. split; reflexivity.
Qed.

Lemma inject_api_code_missing_cells_witness :
  dict_get (txt "cells") [(txt "nbformat", VInt 4)] = None
  /\ inject_api_code (VDict [(txt "nbformat", VInt 4)]) (txt "import flask")
     = inl KeyError
  /\ NotebookParser.parse_json (VDict [(txt "nbformat", VInt 4)]) (txt "demo.ipynb")
     = Ok (default_analysis (txt "demo.ipynb")).
Proof.
  split; [reflexivity|].
  apply (inject_api_code_missing_cells [(txt "nbformat", VInt 4)] (txt "demo.ipynb")
                                       (txt "import flask")).
  reflexivity.
Defined.

Lemma newline_test c :
  (if ascii_dec Re.newline c then true else false) = Re.is_newline c.
Proof.
  unfold Re.is_newline. destruct (ascii_dec Re.newline c) as [<-|N]; [reflexivity|].
  symmetry. apply Nat.eqb_neq. intros E. apply N.
  unfold ord in E. rewrite <- (ascii_nat_embedding c), E. reflexivity.
Qed.

Lemma concat_split_newline cur s :
  concat (split_from [Re.newline] 0 cur s)
  = rev cur ++ filter (fun c => negb (Re.is_newline c)) s.
Proof.
  revert cur. induction s as [|c s IH]; intros cur.
  - simpl. now rewrite !app_nil_r.
  - cbn [split_from startswith length Nat.sub filter].
    rewrite newline_test. destruct (Re.is_newline c); cbn [negb concat].
    + rewrite IH. reflexivity.
    + rewrite IH. simpl. now rewrite <- app_assoc.
Qed.

(** X12. The cell [inject_api_code] builds holds the code split at its
    line breaks, the breaks themselves dropped; the parser joins the lines
    of a cell with nothing between them, so it reads the injected code
    back with every line break missing. *)
Theorem injected_cell_read_back api_code :
  NotebookParser.cell_source (api_cell api_code)
  = Ok (VStr (filter (fun c => negb (Re.is_newline c)) api_code))
  /\ has_cell_type "code" (api_cell api_code) = true.
Proof.
  split; [|reflexivity].
  assert (W : well_formed_cell (api_cell api_code) = true).
  { unfold well_formed_cell, api_cell.
    change (dict_get (txt "source") _)
      with (Some (VList (map VStr (split [Re.newline] api_code)))).
    apply forallb_forall. intros v Hv. apply in_map_iff in Hv as [s [<- _]].
    reflexivity. }
  rewrite (cell_source_ok _ W). do 2 f_equal.
  change (cell_text (api_cell api_code))
    with (concat (map line_text (map VStr (split [Re.newline] api_code)))).
  rewrite map_map. cbn [line_text]. rewrite map_id.
  unfold split. now rewrite concat_split_newline.
Qed.

End Injection.

(** ** The wrapper of [generate] in the class ColabAPI *)

Section ApiGenerate.

Import PyText ColabManager.

Variable b64decode : text -> comp ColabAPI.bytes.

(** The body of an answer with status 200 whose JSON could be read. *)
Definition answered (outcome : comp response) : option value :=
  match outcome with
  | inr r =>
      if (status_code r =? 200)%Z
      then match json r with
           | inr v => Some v
           | inl _ => None
           end
      else None
  | inl _ => None
  end.

Definition is_dict (v : value) : bool :=
  match v with
  | VDict _ => true
  | _ => false
  end.

(** What the manager returns: the body of the answer when there is one, a
    failure otherwise. *)
Lemma manager_generate_cases requests_post api_url params :
  (exists message,
      generate requests_post api_url params = inr (failure message) /\ message <> [])
  \/ (api_url <> []
      /\ exists v,
           answered (requests_post (api_url ++ txt "/generate") params 300%Z) = Some v
           /\ generate requests_post api_url params = inr v).
Proof.
  unfold generate, answered. destruct api_url as [|c url].
  - left. eexists. split; [reflexivity|discriminate].
  - destruct (requests_post _ _ _) as [[m|m|m]|r]; simpl;
      try (left; eexists; split; [reflexivity|discriminate]).
    destruct (status_code r =? 200)%Z;
      [|left; eexists; split; [reflexivity|discriminate]].
    destruct (json r) as [[m|m|m]|v]; simpl;
      try (left; eexists; split; [reflexivity|discriminate]).
    right. split; [discriminate|]. eauto.
Qed.

(** X13. Unless the backend answers with status 200 and a body that can be
    read, [ColabAPI.generate] returns a failure with a message and leaves
    the last image as it was; nothing is decoded and nothing is raised. *)
Theorem api_generate_failure requests_post api_url params last_image_data :
  answered (requests_post (api_url ++ txt "/generate") params 300%Z) = None ->
  exists message,
    ColabAPI.generate b64decode (generate requests_post api_url params) last_image_data
    = inr (failure message, last_image_data)
    /\ message <> [].
Proof.
  intros H.
  destruct (manager_generate_cases requests_post api_url params)
    as [[message [E N]]|[_ [v [A _]]]]; [|congruence].
  exists message. rewrite E. split; [reflexivity|assumption].
Qed.

(** X14. When the backend answers with status 200 and a body that is not
    a JSON object, the manager returns that body and [ColabAPI.generate]
    raises on it: the [AttributeError] of the missing [get] is not
    handled. *)
Theorem api_generate_raises requests_post api_url params last_image_data v :
  api_url <> [] ->
  answered (requests_post (api_url ++ txt "/generate") params 300%Z) = Some v ->
  is_dict v = false ->
  ColabAPI.generate b64decode (generate requests_post api_url params) last_image_data
  = inl (OtherException
           (txt "'" ++ type_name v ++ txt "' object has no attribute 'get'")).
Proof.
  intros N A D. unfold generate, answered in *.
  destruct api_url as [|c url]; [congruence|].
  destruct (requests_post _ _ _) as [e|r]; [discriminate|]. simpl.
  destruct (status_code r =? 200)%Z; [|discriminate].
  destruct (json r) as [e|v']; [discriminate|]. injection A as ->.
  destruct v; try discriminate; reflexivity.
Qed.

(** X15. What [ColabAPI.generate] returns is what the manager returned,
    unchanged; the last image changes only when the answer holds a true
    [success] and a text under [image] that is not empty and that
    [b64decode] accepts, and it is then the decoded text. *)
Theorem api_generate_passes_result manager_generate last_image_data result last' :
  ColabAPI.generate b64decode manager_generate last_image_data = inr (result, last') ->
  manager_generate = inr result
  /\ (last' = last_image_data
      \/ exists success image data,
           ColabAPI.result_get result "success" = inr (Some success)
           /\ truthy success = true
           /\ ColabAPI.result_get result "image" = inr (Some (VStr image))
           /\ image <> []
           /\ b64decode image = inr data
           /\ last' = Some data).
Proof.
  unfold ColabAPI.generate. destruct manager_generate as [e|r]; [discriminate|].
  destruct (ColabAPI.result_get r "success") as [e|success] eqn:S; [discriminate|].
  destruct (ColabAPI.option_truthy success) eqn:T.
  - destruct (ColabAPI.result_get r "image") as [e|[image|]] eqn:I; [discriminate| |].
    + destruct (truthy image) eqn:TI.
      * destruct (ColabAPI.decode_image b64decode image) as [e|data] eqn:D;
          [discriminate|].
        intros H. injection H as <- <-. split; [reflexivity|]. right.
        destruct image as [| | | |s| |]; try discriminate.
        destruct success as [success|]; [|discriminate].
        exists success, s, data. split; [|split; [|split; [|split; [|split]]]].
        -- exact S.
        -- exact T.
        -- exact I.
        -- intros ->. discriminate.
        -- exact D.
        -- reflexivity.
      * intros H. injection H as <- <-. auto.
    + intros H. injection H as <- <-. auto.
  - intros H. injection H as <- <-. auto.
Qed.

End ApiGenerate.

(** A decoder for the samples: it accepts every text and returns it. *)
Definition sample_b64decode (s : text) : ColabManager.comp ColabAPI.bytes := inr s.

Definition answering (body : value) (_ : text) (_ : value) (_ : Z)
  : ColabManager.comp ColabManager.response :=
  inr (ColabManager.mkResponse 200 (inr body)).

Definition refusing (_ : text) (_ : value) (_ : Z)
  : ColabManager.comp ColabManager.response :=
  inr (ColabManager.mkResponse 503 (inr VNone)).

Lemma api_generate_failure_witness :
  answered (refusing (txt "https://example.ngrok.io" ++ txt "/generate") (VDict []) 300%Z)
  = None
  /\ exists message,
       ColabAPI.generate sample_b64decode
         (ColabManager.generate refusing (txt "https://example.ngrok.io") (VDict []))
         (Some (txt "old"))
       = inr (ColabManager.failure message, Some (txt "old"))
       /\ message <> [].
Proof.
  split; [reflexivity|].
  apply (api_generate_failure sample_b64decode refusing
           (txt "https://example.ngrok.io") (VDict []) (Some (txt "old"))).
  reflexivity.
Defined.

Lemma api_generate_raises_witness :
  txt "https://example.ngrok.io" <> []
  /\ ColabAPI.generate sample_b64decode
       (ColabManager.generate (answering (VList [])) (txt "https://example.ngrok.io")
                              (VDict []))
       None
     = inl (ColabManager.OtherException (txt "'list' object has no attribute 'get'")).
Proof.
  split; [discriminate|].
  apply (api_generate_raises sample_b64decode (answering (VList []))
           (txt "https://example.ngrok.io") (VDict []) None (VList []));
    [discriminate|reflexivity|reflexivity].
Defined.

Definition image_answer : value :=
  VDict [(txt "success", VBool true); (txt "image", VStr (txt "aGk="))].

Lemma api_generate_passes_result_witness :
  ColabAPI.generate sample_b64decode (inr image_answer) None
  = inr (image_answer, Some (txt "aGk="))
  /\ (inr image_answer : ColabManager.comp value) = inr image_answer
  /\ (Some (txt "aGk=") = None
      \/ exists success image data,
           ColabAPI.result_get image_answer "success" = inr (Some success)
           /\ PyText.truthy success = true
           /\ ColabAPI.result_get image_answer "image" = inr (Some (VStr image))
           /\ image <> []
           /\ sample_b64decode image = inr data
           /\ Some (txt "aGk=") = Some data).
Proof.
  split; [reflexivity|].
  exact (api_generate_passes_result sample_b64decode (inr image_answer) None
           image_answer (Some (txt "aGk=")) eq_refl).
Defined.

(** ** The theme *)

Section Theme.

Import ThemeManager.

Lemma effective_theme_cases sys current_mode :
  get_current_theme sys current_mode = LIGHT
  \/ get_current_theme sys current_mode = DARK.
Proof.
  unfold get_current_theme, detect_system_theme.
  destruct current_mode; auto.
  destruct (is_win32 sys); auto.
  destruct (apps_use_light_theme sys) as [v|]; auto.
  destruct (v =? 1)%Z; auto.
Qed.

(** X16. The theme in force is light or dark for every stored mode and
    every answer of the system, and [get_theme] reports it so: never
    [auto]. *)
Theorem current_theme_never_auto sys current_mode :
  In (get_current_theme sys current_mode) [LIGHT; DARK]
  /\ In (api_get_theme sys current_mode) [txt "light"; txt "dark"].
Proof.
  unfold api_get_theme.
  destruct (effective_theme_cases sys current_mode) as [-> | ->]; simpl; auto.
Qed.

(** X17. [toggle] changes the theme in force to the other one and leaves
    the mode [auto] for good: the stored mode is the new theme itself, the
    colours change sides, and a second [toggle] brings the first theme
    back. *)
Theorem toggle_flips sys current_mode :
  toggle sys current_mode <> AUTO
  /\ get_current_theme sys (toggle sys current_mode) = toggle sys current_mode
  /\ get_current_theme sys (toggle sys current_mode)
     <> get_current_theme sys current_mode
  /\ uses_dark_colors sys (toggle sys current_mode)
     = negb (uses_dark_colors sys current_mode)
  /\ get_current_theme sys (toggle sys (toggle sys current_mode))
     = get_current_theme sys current_mode.
Proof.
  unfold uses_dark_colors, toggle, set_mode, get_current_theme, detect_system_theme.
  destruct current_mode; simpl; try (repeat split; congruence);
    destruct (is_win32 sys); simpl; try (repeat split; congruence);
    destruct (apps_use_light_theme sys) as [v|]; simpl;
    try (repeat split; congruence);
    destruct (v =? 1)%Z; simpl; repeat split; congruence.
Qed.

(** X18. After [set_theme] with [dark] or [light], [get_theme] returns
    that text; with any other text, [auto] among them, the mode becomes
    [auto] and [get_theme] returns another text than the one set, although
    [set_theme] answers with the text it was given. *)
Theorem set_theme_then_get sys save_error theme :
  (api_get_theme sys (fst (api_set_theme save_error theme)) = theme
   <-> theme = txt "dark" \/ theme = txt "light")
  /\ (theme <> txt "dark" -> theme <> txt "light" ->
      fst (api_set_theme save_error theme) = AUTO)
  /\ (save_error = None ->
      snd (api_set_theme save_error theme)
      = VDict [(txt "success", VBool true); (txt "theme", VStr theme)]).
Proof.
  unfold api_set_theme, set_mode. cbn [fst snd].
  destruct (text_eqb theme (txt "dark")) eqn:D.
  { apply text_eqb_eq in D. subst theme. split; [|split].
    - split; auto.
    - congruence.
    - now intros ->. }
  destruct (text_eqb theme (txt "light")) eqn:L.
  { apply text_eqb_eq in L. subst theme. split; [|split].
    - split; auto.
    - congruence.
    - now intros ->. }
  apply text_eqb_neq in D, L. split; [|split].
  - split; [|tauto]. intros E.
    unfold api_get_theme in E.
    destruct (effective_theme_cases sys AUTO) as [H|H]; rewrite H in E;
      symmetry in E; auto.
  - reflexivity.
  - now intros ->.
Qed.

Lemma set_theme_then_get_witness :
  txt "auto" <> txt "dark" /\ txt "auto" <> txt "light"
  /\ fst (api_set_theme None (txt "auto")) = AUTO
  /\ api_get_theme (mkSystem false None) (fst (api_set_theme None (txt "auto")))
     = txt "dark".
Proof.
  assert (D : txt "auto" <> txt "dark") by discriminate.
  assert (L : txt "auto" <> txt "light") by discriminate.
  split; [exact D|]. split; [exact L|]. split; [|reflexivity].
  exact (proj1 (proj2 (set_theme_then_get (mkSystem false None) None (txt "auto"))) D L).
Defined.

End Theme.

(** ** The badge of the model *)

Section Badge.

Import NotebookParser GuiGeneratorBadge.

Lemma analysis_model_type notebook filename analysis :
  parse_json notebook filename = Ok analysis ->
  exists code, model_type analysis = _detect_model_type code.
Proof.
  unfold parse_json, _analyze_notebook. intros H.
  do 6 bind_inv H. apply bind_Ok in H as [[t d] [_ H]].
  bind_inv H. injection H as <-. eexists. reflexivity.
Qed.

Lemma detect_model_type_ladder code :
  _detect_model_type code = first_family family_ladder code.
Proof. reflexivity. Qed.

(** X19. Every family the parser can report but [unknown] has a badge of
    its own: for the analysis of a notebook the badge is the general
    [KI-Modell] exactly when the family is [unknown]. *)
Theorem badge_of_analysis notebook filename analysis :
  parse_json notebook filename = Ok analysis ->
  (_get_model_badge analysis = txt "KI-Modell" <-> model_type analysis = txt "unknown")
  /\ In (_get_model_badge analysis)
        (map txt ["Stable Diffusion"; "SDXL"; "FLUX"; "ControlNet"; "Diffusers";
                  "Transformers"; "KI-Modell"]%string).
Proof.
  intros H. apply analysis_model_type in H as [code E].
  unfold _get_model_badge. rewrite E, detect_model_type_ladder.
  pose proof (first_family_in family_ladder code) as I.
  remember (first_family family_ladder code) as family eqn:F. clear F.
  simpl in I.
  destruct I as [I|[I|[I|[I|[I|[I|[I|[]]]]]]]]; rewrite <- I;
    (split; [split; [try discriminate; reflexivity|try discriminate; reflexivity]
            |vm_compute; tauto]).
Qed.

End Badge.

(** ** What every analysis holds *)

Section Analyses.

Import NotebookParser.

(** The parts of an analysis, as [_analyze_notebook] computes them from the
    code of the notebook and its markdown cells. *)
Lemma analysis_fields notebook filename analysis :
  parse_json notebook filename = Ok analysis ->
  exists code markdown_cells,
    _detect_parameters code = Ok (parameters analysis)
    /\ outputs analysis = _detect_outputs code
    /\ model_type analysis = _detect_model_type code
    /\ _extract_metadata markdown_cells filename
       = Ok (title analysis, analysis_description analysis).
Proof.
  unfold parse_json, _analyze_notebook. intros H.
  do 6 bind_inv H. apply bind_Ok in H as [[t d] [M H]].
  bind_inv H. injection H as <-. eexists. eexists.
  split; [exact E5|]. split; [reflexivity|]. split; [reflexivity|exact M].
Qed.

Lemma detect_parameters_nonempty code ps :
  _detect_parameters code = Ok ps -> ps <> [].
Proof.
  unfold _detect_parameters. intros H. bind_inv H.
  destruct (fst _) as [|p l]; injection H as <-; discriminate.
Qed.

Lemma detect_outputs_choice code :
  exists image audio video : bool,
    _detect_outputs code
    = (if image then [image_output] else [])
      ++ (if audio then [audio_output] else [])
      ++ (if video then [video_output] else [])
    /\ _detect_outputs code <> [].
Proof.
  unfold _detect_outputs.
  destruct (mentions _ code), (mentions _ code), (mentions _ code);
    cbn [app];
    first [ exists true, true, true; split; [reflexivity|discriminate]
          | exists true, true, false; split; [reflexivity|discriminate]
          | exists true, false, true; split; [reflexivity|discriminate]
          | exists true, false, false; split; [reflexivity|discriminate]
          | exists false, true, true; split; [reflexivity|discriminate]
          | exists false, true, false; split; [reflexivity|discriminate]
          | exists false, false, true; split; [reflexivity|discriminate] ].
Qed.

(** X20. An analysis is never without parameters or without outputs: it
    holds at least one parameter, and one to three outputs, which are
    distinct and come in the order image, audio, video. *)
Theorem analysis_never_empty notebook filename analysis :
  parse_json notebook filename = Ok analysis ->
  parameters analysis <> []
  /\ outputs analysis <> []
  /\ NoDup (outputs analysis)
  /\ exists image audio video : bool,
       outputs analysis
       = (if image then [image_output] else [])
         ++ (if audio then [audio_output] else [])
         ++ (if video then [video_output] else []).
Proof.
  intros H. apply analysis_fields in H as [code [md [P [O _]]]].
  split; [now apply detect_parameters_nonempty in P|].
  rewrite O. destruct (detect_outputs_choice code) as [i [a [v [E N]]]].
  split; [exact N|]. split; [|eauto].
  rewrite E.
  destruct i, a, v; cbn [app];
    repeat (constructor; [simpl; intuition discriminate|]); constructor.
Qed.

Lemma analysis_never_empty_witness :
  parse_json sunset_notebook (txt "sunset.ipynb") = Ok sunset_analysis
  /\ parameters sunset_analysis <> []
  /\ outputs sunset_analysis <> [].
Proof.
  assert (H : parse_json sunset_notebook (txt "sunset.ipynb") = Ok sunset_analysis)
    by (vm_compute; reflexivity).
  split; [exact H|].
  pose proof (analysis_never_empty sunset_notebook (txt "sunset.ipynb")
                                   sunset_analysis H) as [P [O _]].
  split; assumption.
Defined.

Lemma metadata_loop_description cells : forall title title' description,
  metadata_loop cells title [] = Ok (title', description) ->
  length description <= 500 /\ starts_clean isspace description.
Proof.
  induction cells as [|c cells IH]; intros t t' d H.
  - injection H as _ <-. simpl. split; [lia|exact I].
  - cbn [metadata_loop] in H. do 2 bind_inv H.
    destruct (prose_of a0) as [|x prose] eqn:Pr.
    + now apply IH in H.
    + cbv beta iota in H.
      remember (firstn 500 (x :: prose)) as cut eqn:Cut.
      injection H as _ <-. subst cut. split.
      * apply (firstn_le_length 500).
      * pose proof (proj1 (strip_by_clean isspace
                             (Re.sub false heading_line [] a0))) as C.
        fold (strip (Re.sub false heading_line [] a0)) in C.
        fold (prose_of a0) in C. rewrite Pr in C. exact C.
Qed.

(** X21. The description of an analysis has at most 500 characters and
    does not begin with white space. *)
Theorem analysis_description_bounded notebook filename analysis :
  parse_json notebook filename = Ok analysis ->
  length (analysis_description analysis) <= 500
  /\ starts_clean isspace (analysis_description analysis).
Proof.
  intros H. apply analysis_fields in H as [code [md [_ [_ [_ M]]]]].
  unfold _extract_metadata in M. now apply metadata_loop_description in M.
Qed.

Lemma analysis_description_bounded_witness :
  parse_json sunset_notebook (txt "sunset.ipynb") = Ok sunset_analysis
  /\ length (analysis_description sunset_analysis) <= 500
  /\ starts_clean isspace (analysis_description sunset_analysis).
Proof.
  assert (H : parse_json sunset_notebook (txt "sunset.ipynb") = Ok sunset_analysis)
    by (vm_compute; reflexivity).
  split; [exact H|].
  apply (analysis_description_bounded sunset_notebook (txt "sunset.ipynb")
                                      sunset_analysis H).
Defined.

Lemma int_value_raises s e : int_value s = Raise e -> e = ValueError.
Proof.
  unfold int_value, int. destruct s as [|c s]; [simpl; congruence|].
  destruct (forallb isdigit (c :: s)); [|simpl; congruence].
  destruct (length (c :: s) <=? int_max_str_digits); simpl; congruence.
Qed.

Lemma float_value_raises s e : float_value s = Raise e -> e = ValueError.
Proof.
  unfold float_value. destruct (float s) as [q|e'] eqn:F; simpl; [discriminate|].
  intros H. injection H as <-. unfold float in F.
  repeat match type of F with
         | context [match ?x with _ => _ end] => destruct x; try discriminate
         | context [if ?x then _ else _] => destruct x; try discriminate
         end; congruence.
Qed.

Lemma detect_assigned_raises pattern keywords convert fallback make code params e :
  (forall s e', convert s = Raise e' -> e' = ValueError) ->
  detect_assigned pattern keywords convert fallback make code params = Raise e ->
  e = ValueError.
Proof.
  intros C. unfold detect_assigned.
  destruct (Re.search false pattern code) as [m|].
  - destruct (convert (Re.group 1 m)) as [d|e'] eqn:V; simpl; [discriminate|].
    intros H. injection H as <-. eauto.
  - destruct (mentions keywords code); discriminate.
Qed.

Lemma detect_standard_raises code e :
  _detect_standard_image_params code = Raise e -> e = ValueError.
Proof.
  unfold _detect_standard_image_params. cbv zeta.
  repeat match goal with
         | |- bind (detect_assigned ?p ?k ?c ?f ?m ?s ?ps) _ = Raise _ -> _ =>
             let E := fresh "E" in
             let H := fresh "H" in
             destruct (detect_assigned p k c f m s ps) eqn:E; cbn [bind];
             [|intros H; injection H as <-;
               eapply detect_assigned_raises; [|exact E];
               first [exact int_value_raises|exact float_value_raises]]
         end.
  discriminate.
Qed.

Lemma detect_parameters_raises code e :
  _detect_parameters code = Raise e -> e = ValueError.
Proof.
  unfold _detect_parameters. cbv zeta.
  destruct (_detect_standard_image_params code) as [standard|e'] eqn:S; cbn [bind].
  - destruct (fst _); discriminate.
  - intros H. injection H as <-. now apply detect_standard_raises in S.
Qed.

(** X22. The analysis of a notebook whose cells are well formed returns an
    analysis or raises [ValueError], the error of a number that cannot be
    converted; it raises nothing else. *)
Theorem analysis_raises_value_error notebook filename cells :
  notebook_cells notebook = Some cells ->
  forallb well_formed_cell cells = true ->
  (exists analysis, parse_json notebook filename = Ok analysis)
  \/ parse_json notebook filename = Raise ValueError.
Proof.
  intros N W. rewrite (analyze_notebook_well_formed notebook filename cells N W).
  destruct (_detect_parameters (all_code_of cells)) as [ps|e] eqn:P; cbn [bind].
  - left. eauto.
  - right. apply detect_parameters_raises in P. now subst.
Qed.

(** A notebook whose guidance scale is written with two points. *)
Definition two_points_notebook : value :=
  notebook_of [code_cell [txt "guidance_scale = 7.5.1"]].

Lemma analysis_raises_value_error_witness :
  notebook_cells two_points_notebook
  = Some [code_cell [txt "guidance_scale = 7.5.1"]]
  /\ forallb well_formed_cell [code_cell [txt "guidance_scale = 7.5.1"]] = true
  /\ parse_json two_points_notebook (txt "demo.ipynb") = Raise ValueError.
Proof.
  split; [reflexivity|]. split; [reflexivity|].
  destruct (analysis_raises_value_error two_points_notebook (txt "demo.ipynb")
              [code_cell [txt "guidance_scale = 7.5.1"]] eq_refl eq_refl)
    as [[analysis E]|E].
  - vm_compute in E. discriminate.
  - exact E.
Defined.

End Analyses.

(** The analysis of a notebook that loads FLUX. *)
Definition flux_notebook : value :=
  notebook_of [code_cell [txt "from diffusers import FluxPipeline"]].

Definition flux_analysis : NotebookParser.NotebookAnalysis :=
  Eval vm_compute in
    match NotebookParser.parse_json flux_notebook (txt "flux.ipynb") with
    | Ok analysis => analysis
    | Raise _ => default_analysis []
    end.

Lemma badge_of_analysis_witness :
  NotebookParser.parse_json flux_notebook (txt "flux.ipynb") = Ok flux_analysis
  /\ GuiGeneratorBadge._get_model_badge flux_analysis <> txt "KI-Modell".
Proof.
  assert (H : NotebookParser.parse_json flux_notebook (txt "flux.ipynb")
              = Ok flux_analysis) by (vm_compute; reflexivity).
  split; [exact H|].
  intros B.
  apply (proj1 (badge_of_analysis flux_notebook (txt "flux.ipynb") flux_analysis H))
    in B.
  vm_compute in B. discriminate.
Defined.

(** ** Addresses *)

Section Addresses.

Import PyText ColabManagerState NotebookLoading.

Lemma replace_absent old new s :
  contains old s = false -> replace old new s = s.
Proof.
  unfold replace. induction s as [|c s IH]; [reflexivity|].
  cbn [contains replace_from]. intros H. apply orb_false_iff in H as [H1 H2].
  rewrite H1, IH by assumption. reflexivity.
Qed.

(** No occurrence starts inside a text that lacks the first character of
    what is looked for. *)
Lemma replace_skips c0 old new a b :
  ~ In c0 a ->
  replace_from (c0 :: old) new 0 (a ++ b) = a ++ replace_from (c0 :: old) new 0 b.
Proof.
  induction a as [|x a IH]; intros H; [reflexivity|].
  cbn [app replace_from startswith].
  destruct (ascii_dec c0 x) as [->|N]; [exfalso; apply H; now left|].
  rewrite IH; [reflexivity|]. intros I. apply H. now right.
Qed.

Lemma startswith_app needle s : startswith needle (needle ++ s) = true.
Proof.
  induction needle as [|c needle IH]; [reflexivity|].
  simpl. destruct (ascii_dec c c); [assumption|contradiction].
Qed.

Lemma contains_app needle a b : contains needle (a ++ needle ++ b) = true.
Proof.
  induction a as [|x a IH].
  - simpl. destruct (needle ++ b) eqn:E; simpl; rewrite <- E, startswith_app;
      reflexivity.
  - cbn [app contains]. rewrite IH. apply orb_true_r.
Qed.

(** A segment that is not [blob] and holds no slash does not complete an
    occurrence of [/blob/]. *)
Lemma not_blob_segment w s :
  ~ In "/"%char w -> w <> txt "blob" ->
  startswith (txt "blob/") (w ++ txt "/" ++ s) = false.
Proof.
  intros S N.
  destruct w as [|c1 w]; [reflexivity|].
  cbn [app txt list_ascii_of_string startswith].
  destruct (ascii_dec "b" c1) as [<-|]; [|reflexivity].
  destruct w as [|c2 w]; [reflexivity|].
  cbn [app startswith].
  destruct (ascii_dec "l" c2) as [<-|]; [|reflexivity].
  destruct w as [|c3 w]; [reflexivity|].
  cbn [app startswith].
  destruct (ascii_dec "o" c3) as [<-|]; [|reflexivity].
  destruct w as [|c4 w]; [reflexivity|].
  cbn [app startswith].
  destruct (ascii_dec "b" c4) as [<-|]; [|reflexivity].
  destruct w as [|c5 w]; [exfalso; now apply N|].
  cbn [app startswith].
  destruct (ascii_dec "/" c5) as [<-|]; [|reflexivity].
  exfalso. apply S. simpl. tauto.
Qed.

Lemma replace_host tail :
  replace (txt "github.com") (txt "raw.githubusercontent.com")
          (txt "https://github.com" ++ tail)
  = txt "https://raw.githubusercontent.com"
        ++ replace (txt "github.com") (txt "raw.githubusercontent.com") tail.
Proof. reflexivity. Qed.

Lemma replace_blob_raw_host tail :
  replace (txt "/blob/") (txt "/") (txt "https://raw.githubusercontent.com" ++ tail)
  = txt "https://raw.githubusercontent.com" ++ replace (txt "/blob/") (txt "/") tail.
Proof. reflexivity. Qed.

Lemma replace_blob_slash tail :
  startswith (txt "blob/") tail = false ->
  replace (txt "/blob/") (txt "/") ("/"%char :: tail)
  = "/"%char :: replace (txt "/blob/") (txt "/") tail.
Proof.
  intros H. unfold replace. cbn [replace_from].
  change (startswith (txt "/blob/") ("/"%char :: tail))
    with (startswith (txt "blob/") tail).
  now rewrite H.
Qed.

Lemma replace_blob_here tail :
  replace (txt "/blob/") (txt "/") (txt "/blob/" ++ tail)
  = txt "/" ++ replace (txt "/blob/") (txt "/") tail.
Proof. reflexivity. Qed.

Lemma replace_blob_segment w tail :
  ~ In "/"%char w ->
  replace (txt "/blob/") (txt "/") (w ++ tail)
  = w ++ replace (txt "/blob/") (txt "/") tail.
Proof. intros H. unfold replace. now apply (replace_skips "/"%char). Qed.

(** X23. The address of a notebook on GitHub, [https://github.com/] then
    owner, repository, [blob] and the path, is converted to the raw address
    of the same owner and repository; in the path that follows the first
    [/blob/], every further [/blob/] is replaced by a slash as well. *)
Theorem raw_url_of_blob_address owner repo path :
  ~ In "/"%char owner -> ~ In "/"%char repo ->
  owner <> txt "blob" -> repo <> txt "blob" ->
  contains (txt "github.com") (owner ++ txt "/" ++ repo ++ txt "/blob/" ++ path) = false ->
  raw_url (txt "https://github.com/" ++ owner ++ txt "/" ++ repo ++ txt "/blob/" ++ path)
  = txt "https://raw.githubusercontent.com/" ++ owner ++ txt "/" ++ repo ++ txt "/"
        ++ replace (txt "/blob/") (txt "/") path.
Proof.
  intros So Sr No Nr G. unfold raw_url.
  assert (C1 : contains (txt "github.com")
                 (txt "https://github.com/" ++ owner ++ txt "/" ++ repo
                      ++ txt "/blob/" ++ path) = true) by reflexivity.
  assert (C2 : contains (txt "/blob/")
                 (txt "https://github.com/" ++ owner ++ txt "/" ++ repo
                      ++ txt "/blob/" ++ path) = true).
  { rewrite !app_assoc. rewrite <- (app_assoc _ (txt "/blob/") path).
    apply contains_app. }
  rewrite C1, C2. cbn [andb].
  change (txt "https://github.com/" ++ owner ++ txt "/" ++ repo ++ txt "/blob/" ++ path)
    with (txt "https://github.com"
              ++ "/"%char :: (owner ++ txt "/" ++ repo ++ txt "/blob/" ++ path)).
  rewrite replace_host.
  rewrite (replace_absent (txt "github.com") _
             ("/"%char :: (owner ++ txt "/" ++ repo ++ txt "/blob/" ++ path))).
  2:{ cbn [contains]. rewrite G.
      change (startswith (txt "github.com") ("/"%char :: _)) with false.
      reflexivity. }
  rewrite replace_blob_raw_host.
  rewrite replace_blob_slash by now apply not_blob_segment.
  rewrite replace_blob_segment by assumption.
  change (txt "/" ++ repo ++ txt "/blob/" ++ path)
    with ("/"%char :: (repo ++ txt "/" ++ txt "blob/" ++ path)).
  rewrite replace_blob_slash by now apply not_blob_segment.
  rewrite replace_blob_segment by assumption.
  change (txt "/" ++ txt "blob/" ++ path) with (txt "/blob/" ++ path).
  rewrite replace_blob_here. reflexivity.
Qed.

Lemma raw_url_of_blob_address_witness :
  ~ In "/"%char (txt "octo") /\ ~ In "/"%char (txt "demo")
  /\ raw_url (txt "https://github.com/octo/demo/blob/main/a/blob/nb.ipynb")
     = txt "https://raw.githubusercontent.com/octo/demo/main/a/nb.ipynb".
Proof.
  assert (So : ~ In "/"%char (txt "octo")) by (simpl; intuition discriminate).
  assert (Sr : ~ In "/"%char (txt "demo")) by (simpl; intuition discriminate).
  split; [exact So|]. split; [exact Sr|].
  apply (raw_url_of_blob_address (txt "octo") (txt "demo") (txt "main/a/blob/nb.ipynb")
           So Sr); [discriminate|discriminate|reflexivity].
Defined.

(** X24. [generate_colab_url] turns an address that begins with
    [https://github.com] into the address of Colab for it: the host is
    replaced, and so is every further [https://github.com] in what
    follows. An address of GitHub written in another way, without
    [https://] before the host, is returned as it is: what comes back is
    then no address of Colab. *)
Theorem generate_colab_url_github notebook_path :
  (forall tail,
      generate_colab_url notebook_path (Some (txt "https://github.com" ++ tail))
      = COLAB_BASE_URL ++ txt "/github"
          ++ replace (txt "https://github.com") (COLAB_BASE_URL ++ txt "/github") tail)
  /\ (forall url,
         contains (txt "github.com") url = true ->
         contains (txt "https://github.com") url = false ->
         generate_colab_url notebook_path (Some url) = url).
Proof.
  split.
  - intros tail. unfold generate_colab_url.
    change (txt "https://github.com" ++ tail)
      with ("h"%char :: (txt "ttps://github.com" ++ tail)).
    cbv beta iota zeta.
    change ("h"%char :: (txt "ttps://github.com" ++ tail))
      with (txt "https://github.com" ++ tail).
    replace (contains (txt "github.com") (txt "https://github.com" ++ tail))
      with true by reflexivity.
    change (replace (txt "https://github.com") (COLAB_BASE_URL ++ txt "/github")
              (txt "https://github.com" ++ tail))
      with ((COLAB_BASE_URL ++ txt "/github")
              ++ replace (txt "https://github.com") (COLAB_BASE_URL ++ txt "/github")
                         tail).
    now rewrite <- app_assoc.
  - intros url G H. unfold generate_colab_url.
    destruct url as [|c u]; [discriminate|].
    rewrite G. now apply replace_absent.
Qed.

Lemma generate_colab_url_github_witness :
  contains (txt "github.com") (txt "http://github.com/octo/demo/blob/main/nb.ipynb")
  = true
  /\ generate_colab_url None (Some (txt "http://github.com/octo/demo/blob/main/nb.ipynb"))
     = txt "http://github.com/octo/demo/blob/main/nb.ipynb"
  /\ generate_colab_url None (Some (txt "https://github.com/octo/demo/blob/main/nb.ipynb"))
     = txt "https://colab.research.google.com/github/octo/demo/blob/main/nb.ipynb".
Proof.
  split; [reflexivity|]. split.
  - apply (proj2 (generate_colab_url_github None)); reflexivity.
  - apply (proj1 (generate_colab_url_github None) (txt "/octo/demo/blob/main/nb.ipynb")).
Defined.

Lemma split_from_nonempty sep s : forall skip cur, split_from sep skip cur s <> [].
Proof.
  induction s as [|c s IH]; intros skip cur; [discriminate|].
  cbn [split_from]. destruct skip; [|apply IH].
  destruct (startswith sep (c :: s)); [discriminate|apply IH].
Qed.

Lemma last_cons {A} (a : A) l d : l <> [] -> last (a :: l) d = last l d.
Proof. destruct l; [contradiction|reflexivity]. Qed.

(** The last piece of a text split at a character: what follows the last
    occurrence of the character. *)
Lemma split_last c s : forall cur,
  ~ In c cur ->
  let piece := last_piece (split_from [c] 0 cur s) in
  ~ In c piece
  /\ exists before,
       rev cur ++ s = before ++ piece
       /\ (before = [] \/ exists b, before = b ++ [c]).
Proof.
  unfold last_piece. induction s as [|x s IH]; intros cur H.
  - cbn [split_from last]. split.
    + now rewrite <- in_rev.
    + exists []. rewrite app_nil_r. auto.
  - cbn [split_from startswith length Nat.sub].
    destruct (ascii_dec c x) as [<-|N].
    + rewrite last_cons by apply split_from_nonempty.
      destruct (IH [] (fun I => I)) as [P [before [E B]]].
      split; [exact P|]. exists (rev cur ++ c :: before). split.
      * rewrite <- app_assoc. cbn [app]. do 2 f_equal. exact E.
      * right. destruct B as [->|[b ->]].
        -- exists (rev cur). reflexivity.
        -- exists (rev cur ++ c :: b). now rewrite <- app_assoc.
    + destruct (IH (x :: cur)) as [P [before [E B]]].
      { intros [<-|I]; [now apply N|now apply H]. }
      split; [exact P|]. exists before. split; [|exact B].
      rewrite <- E. cbn [rev]. now rewrite <- app_assoc.
Qed.

(** X25. [parse_url] fetches the address [download_notebook_from_github]
    fetches and fails as it does; a notebook received is analysed under
    the name of what follows the last slash of the converted address, a
    name that holds no slash. *)
Theorem parse_url_filename requests_get url :
  exists directory filename,
    raw_url url = directory ++ filename
    /\ ~ In "/"%char filename
    /\ (directory = [] \/ exists d, directory = d ++ txt "/")
    /\ parse_url requests_get url
       = match download_notebook_from_github requests_get url with
         | inl e => inl (Download e)
         | inr notebook =>
             match NotebookParser._analyze_notebook notebook filename with
             | Ok analysis => inr analysis
             | Raise e => inl (Analysis e)
             end
         end.
Proof.
  destruct (split_last "/"%char (raw_url url) [] (fun I => I)) as [P [before [E B]]].
  exists before, (last_piece (split (txt "/") (raw_url url))).
  split; [exact E|]. split; [exact P|]. split; [exact B|].
  unfold parse_url, download_notebook_from_github. fold (raw_url url).
  destruct (requests_get (raw_url url) 30%Z) as [e|response]; [reflexivity|].
  destruct (raise_for_status response); [reflexivity|].
  destruct (ColabManager.json response); reflexivity.
Qed.

End Addresses.

(** ** The packages of a notebook *)

Section PackageNames.

Import Re PyText NotebookParser NotebookLoading.

(** A character a package name may hold: no mark of a version and no white
    space. *)
Definition name_character (c : ascii) : bool :=
  negb (is_version_mark c) && negb (isspace c).

(** What is asked of a reported package. *)
Definition package_name (pkg : text) : Prop :=
  pkg <> []
  /\ startswith (txt "-") pkg = false
  /\ forallb name_character pkg = true.

Lemma split_ws_from_pieces s : forall cur piece,
  forallb (fun c => negb (isspace c)) cur = true ->
  In piece (split_ws_from cur s) ->
  piece <> [] /\ forallb (fun c => negb (isspace c)) piece = true.
Proof.
  assert (R : forall x cur, forallb (fun c => negb (isspace c)) (x :: cur) = true ->
                rev (x :: cur) <> []
                /\ forallb (fun c => negb (isspace c)) (rev (x :: cur)) = true).
  { intros x cur H. split.
    - intros E. apply (f_equal (@length _)) in E. rewrite length_rev in E.
      discriminate.
    - rewrite forallb_forall in *. intros y Hy. apply H. now apply in_rev. }
  induction s as [|c s IH]; intros cur piece H I.
  - destruct cur as [|x cur]; [destruct I|].
    destruct I as [<-|[]]. now apply R.
  - cbn [split_ws_from] in I. destruct (isspace c) eqn:Hc.
    + destruct cur as [|x cur]; [now apply (IH [])|].
      destruct I as [<-|I]; [now apply R|now apply (IH [])].
    + apply (IH (c :: cur)); [|assumption]. simpl. now rewrite Hc.
Qed.

(** What comes before the first mark of a version. *)
Fixpoint before_mark (s : text) : text :=
  match s with
  | [] => []
  | c :: s' => if is_version_mark c then [] else c :: before_mark s'
  end.

Lemma before_mark_chars s c :
  In c (before_mark s) -> In c s /\ is_version_mark c = false.
Proof.
  induction s as [|x s IH]; [intros []|].
  simpl. destruct (is_version_mark x) eqn:M; [intros []|].
  intros [<-|I]; [auto|]. apply IH in I. tauto.
Qed.

Lemma sub_from_skip_all r rs : forall sn,
  sub_from false r [] (length rs) sn rs = [].
Proof.
  induction rs as [|x rs IH]; intros sn.
  - cbn [length sub_from]. destruct (try_at false r sn []) as [m|]; [|reflexivity].
    destruct (m_text m); reflexivity.
  - cbn [length sub_from]. apply IH.
Qed.

Lemma try_at_version_tail sn x rs :
  forallb any_char rs = true ->
  try_at false version_tail sn (x :: rs)
  = if is_version_mark x then Some (Match (length sn) (x :: rs) []) else None.
Proof.
  intros H. unfold try_at, version_tail.
  cbn [match_at step1 rest seen groups].
  destruct (is_version_mark x); [|reflexivity].
  cbn [flat_map match_at rep seen rest groups]. rewrite app_nil_r.
  destruct (rep_run_head any_char rs (x :: sn)) as [sn' [tl E]].
  rewrite E, (lstrip_by_all _ _ H). cbn [map fst snd groups].
  unfold consumed. cbn [rest].
  replace (length (x :: rs) - length (@nil ascii)) with (length (x :: rs))
    by (cbn [length]; lia).
  now rewrite (firstn_all (x :: rs)).
Qed.

Lemma sub_version_tail rs : forall sn,
  forallb any_char rs = true ->
  sub_from false version_tail [] 0 sn rs = before_mark rs.
Proof.
  induction rs as [|x rs IH]; intros sn H; [reflexivity|].
  cbn [forallb] in H. apply andb_true_iff in H as [_ H].
  cbn [sub_from before_mark]. rewrite (try_at_version_tail _ _ _ H).
  destruct (is_version_mark x).
  - cbn [m_text app].
    replace (length (x :: rs) - 1) with (length rs) by (cbn [length]; lia).
    apply sub_from_skip_all.
  - now rewrite IH.
Qed.

Lemma any_char_of_nonspace c : isspace c = false -> any_char c = true.
Proof.
  unfold any_char, is_newline, isspace, between.
  destruct (Nat.eqb_spec (ord c) 10) as [->|]; [discriminate|reflexivity].
Qed.

(** A word of an install line, cleaned: what comes before its first mark. *)
Lemma clean_package_chars piece :
  forallb (fun c => negb (isspace c)) piece = true ->
  forallb name_character (clean_package piece) = true.
Proof.
  intros H. unfold clean_package, sub.
  rewrite sub_version_tail.
  2:{ rewrite forallb_forall in *. intros c Hc. apply any_char_of_nonspace.
      specialize (H c Hc). now destruct (isspace c). }
  destruct (strip_by_split isspace (before_mark piece)) as [pre [suf E]].
  rewrite forallb_forall in *. intros c Hc.
  assert (I : In c (before_mark piece)).
  { rewrite E. apply in_or_app. right. apply in_or_app. now left. }
  apply before_mark_chars in I as [I M]. unfold name_character.
  rewrite M. now rewrite (H c I).
Qed.

Lemma line_packages_names m pkg : In pkg (line_packages m) -> package_name pkg.
Proof.
  unfold line_packages. intros H. apply filter_In in H as [H F].
  apply andb_true_iff in F as [F1 F2].
  apply in_map_iff in H as [piece [<- H]].
  apply (split_ws_from_pieces _ [] piece eq_refl) in H as [_ H].
  split; [|split].
  - intros E. rewrite E in F1. discriminate.
  - now destruct (startswith (txt "-") (clean_package piece)).
  - now apply clean_package_chars.
Qed.

(** How far a repetition gets: over a run of characters of its class. *)
Lemma rep_run_outcome p rs : forall sn sn' rs',
  In (sn', rs') (rep_run p sn rs) ->
  exists run, rs = run ++ rs' /\ forallb p run = true.
Proof.
  induction rs as [|x rs IH]; intros sn sn' rs' H.
  - destruct H as [E|[]]. injection E as _ <-. now exists [].
  - cbn [rep_run] in H. destruct (p x) eqn:Hx.
    + apply in_app_or in H as [H|[E|[]]].
      * apply IH in H as [run [-> F]]. exists (x :: run). simpl. now rewrite Hx.
      * injection E as _ <-. now exists [].
    + destruct H as [E|[]]. injection E as _ <-. now exists [].
Qed.

Lemma rep_outcome p lo : forall rs sn sn' rs',
  In (sn', rs') (rep lo p sn rs) ->
  exists run, rs = run ++ rs' /\ forallb p run = true /\ lo <= length run.
Proof.
  induction lo as [|lo IH]; intros rs sn sn' rs' H.
  - apply rep_run_outcome in H as [run [E F]]. exists run. auto with arith.
  - destruct rs as [|x rs]; [destruct H|]. cbn [rep] in H.
    destruct (p x) eqn:Hx; [|destruct H].
    apply IH in H as [run [-> [F L]]]. exists (x :: run). simpl.
    rewrite Hx. auto with arith.
Qed.

Lemma match_rep_groups ic lo p c c' :
  In c' (match_at ic (Rep lo p) c) -> groups c' = groups c.
Proof.
  cbn [match_at]. intros H. apply in_map_iff in H as [sr [<- _]]. reflexivity.
Qed.

(** The group of a run of word characters holds such a run. *)
Lemma match_word_group ic n c c' :
  In c' (match_at ic (Grp n (Rep 1 isword)) c) ->
  exists w, groups c' = (n, w) :: groups c /\ w <> [] /\ forallb isword w = true.
Proof.
  cbn [match_at]. intros H. apply in_map_iff in H as [c1 [<- H]].
  apply in_map_iff in H as [[sn' rs'] [<- H]].
  apply rep_outcome in H as [run [E [F L]]].
  exists run. cbn [groups seen rest fst snd]. unfold consumed. cbn [rest].
  rewrite E, firstn_consumed. split; [reflexivity|]. split; [|assumption].
  intros ->. simpl in L. lia.
Qed.

Lemma import_clause_groups keyword n c c' :
  txt keyword <> [] ->
  In c' (match_at false
           (seq [Bol; lit keyword; Rep 1 isspace; Grp n (Rep 1 isword)]) c) ->
  exists w, groups c' = (n, w) :: groups c /\ w <> [] /\ forallb isword w = true.
Proof.
  intros K H.
  change (seq [Bol; lit keyword; Rep 1 isspace; Grp n (Rep 1 isword)])
    with (Seq Bol (Seq (lit keyword) (Seq (Rep 1 isspace) (Grp n (Rep 1 isword)))))
    in H.
  cbn [match_at] in H.
  apply in_flat_map in H as [c1 [H1 H]].
  destruct (at_bol c); [|destruct H1]. destruct H1 as [<-|[]].
  apply in_flat_map in H as [c2 [H2 H]].
  apply (match_lit_only _ _ _ K) in H2 as [_ G2].
  apply in_flat_map in H as [c3 [H3 H]].
  apply in_map_iff in H3 as [sr [<- _]].
  apply (match_word_group false n) in H as [w [G W]].
  exists w. split; [|assumption]. rewrite G. cbn [groups]. now rewrite G2.
Qed.

Lemma import_line_groups sn rs c' :
  In c' (match_at false import_line (Cursor sn rs [])) ->
  exists n w, groups c' = [(n, w)] /\ w <> [] /\ forallb isword w = true.
Proof.
  unfold import_line. cbn [match_at]. intros H.
  apply in_app_or in H as [H|H];
    apply import_clause_groups in H; try discriminate;
    destruct H as [w [G W]]; eauto.
Qed.

Lemma finditer_from_try_at ic r rs : forall skip sn m,
  In m (finditer_from ic r skip sn rs) ->
  exists sn' rs', try_at ic r sn' rs' = Some m.
Proof.
  induction rs as [|x rs IH]; intros skip sn m H.
  - destruct skip; [|destruct H]. cbn [finditer_from] in H.
    destruct (try_at ic r sn []) as [m'|] eqn:T; [|destruct H].
    destruct H as [<-|[]]. eauto.
  - destruct skip; cbn [finditer_from] in H; [|now apply IH in H].
    destruct (try_at ic r sn (x :: rs)) as [m'|] eqn:T.
    + destruct H as [<-|H]; [eauto|now apply IH in H].
    + now apply IH in H.
Qed.

Lemma isword_name_character c : isword c = true -> name_character c = true.
Proof.
  destruct c as [b0 b1 b2 b3 b4 b5 b6 b7].
  destruct b0, b1, b2, b3, b4, b5, b6, b7; vm_compute; congruence.
Qed.

Lemma word_package_name w :
  w <> [] -> forallb isword w = true -> package_name w.
Proof.
  intros N F. split; [assumption|]. split.
  - destruct w as [|c w]; [contradiction|]. simpl in F.
    apply andb_true_iff in F as [F _]. cbn [txt list_ascii_of_string startswith].
    destruct (ascii_dec "-" c) as [<-|]; [discriminate|reflexivity].
  - rewrite forallb_forall in *. intros c Hc. now apply isword_name_character, F.
Qed.

Lemma import_packages_names code m pkg :
  In m (finditer false import_line code) ->
  In pkg (import_packages m) -> package_name pkg.
Proof.
  intros Hm Hp. apply finditer_from_try_at in Hm as [sn [rs T]].
  unfold try_at in T.
  destruct (match_at false import_line (Cursor sn rs [])) as [|c' tl] eqn:M;
    [discriminate|].
  injection T as <-.
  destruct (import_line_groups sn rs c') as [n [w [G [N F]]]];
    [rewrite M; now left|].
  unfold import_packages, group in Hp. cbn [m_groups] in Hp. rewrite G in Hp.
  cbn [lookup_group] in Hp.
  destruct (n =? 1) eqn:N1, (n =? 2) eqn:N2;
    destruct w as [|x w]; try contradiction; cbn in Hp;
    try (destruct Hp as [<-|[]]; now apply word_package_name);
    destruct Hp.
Qed.

(** X26. Every package [_detect_packages] reports is a text that is not
    empty, does not begin with a hyphen, and holds no white space and none
    of the marks of a version. *)
Theorem detected_packages_names
    (list_of_set : list text -> list text) (code : text) :
  (forall added pkg, In pkg (list_of_set added) -> In pkg added) ->
  Forall package_name (_detect_packages list_of_set code).
Proof.
  intros S. apply Forall_forall. intros pkg H. apply S in H.
  unfold packages_added in H.
  apply in_app_or in H as [H|H]; [|apply in_app_or in H as [H|H]];
    apply in_flat_map in H as [m [Hm Hp]].
  - now apply line_packages_names in Hp.
  - now apply line_packages_names in Hp.
  - now apply (import_packages_names code m).
Qed.

End PackageNames.

(** The elements of a set in the order in which they were first added. *)
Definition insertion_order (added : list text) : list text :=
  rev (nodup (list_eq_dec ascii_dec) (rev added)).

Definition install_code : text :=
  txt "!pip install -q torch==2.1 'numpy<2' diffusers" ++ Re.newline
      :: txt "import torch" ++ Re.newline :: txt "from PIL import Image".

Example detect_packages_sample :
  NotebookLoading._detect_packages insertion_order install_code
  = map txt ["torch"; "'numpy"; "diffusers"; "PIL"]%string.
Proof. vm_compute. reflexivity. Qed.

Lemma detected_packages_names_witness :
  (forall added pkg, In pkg (insertion_order added) -> In pkg added)
  /\ Forall package_name (NotebookLoading._detect_packages insertion_order install_code).
Proof.
  assert (S : forall added pkg, In pkg (insertion_order added) -> In pkg added).
  { unfold insertion_order. intros added pkg H.
    apply in_rev in H. apply nodup_In in H. now apply in_rev. }
  split; [exact S|].
  apply (detected_packages_names insertion_order install_code S).
Defined.

(** ** The health check *)

Section HealthCheck.

Import ColabManager.

(** [data.get(key, default)] on a dict. *)
Definition get_or (items : list (text * value)) (key : string) (default : string)
  : value :=
  match dict_get (txt key) items with
  | Some v => v
  | None => VStr (txt default)
  end.

(** X27. [check_connection] raises nothing, whatever the network does: it
    returns a failure with a message, or, when the backend answers with
    status 200 and a JSON object, the success dict with the message and the
    status of the answer, the defaults where the answer has none. *)
Theorem check_connection_answers requests_get api_url :
  (exists message,
      check_connection requests_get api_url = inr (failure message)
      /\ message <> [])
  \/ (exists items,
         api_url <> []
         /\ answered (requests_get (api_url ++ txt "/health") 10%Z) = Some (VDict items)
         /\ check_connection requests_get api_url
            = inr (VDict [(txt "success", VBool true);
                          (txt "message", get_or items "message" "Verbindung erfolgreich!");
                          (txt "status", get_or items "status" "online")])).
Proof.
  unfold check_connection, answered. destruct api_url as [|c url].
  - left. eexists. split; [reflexivity|discriminate].
  - destruct (requests_get _ _) as [[m|m|m]|r]; simpl;
      try (left; eexists; split; [reflexivity|discriminate]).
    destruct (status_code r =? 200)%Z;
      [|left; eexists; split; [reflexivity|discriminate]].
    destruct (json r) as [[m|m|m]|v]; simpl;
      try (left; eexists; split; [reflexivity|discriminate]).
    destruct v as [| | | | | |items];
      try (left; eexists; split; [reflexivity|discriminate]).
    right. exists items. split; [discriminate|]. split; [reflexivity|].
    unfold data_get, get_or.
    destruct (dict_get (txt "message") items), (dict_get (txt "status") items);
      reflexivity.
Qed.

End HealthCheck.

(** ** Names that come out empty, and names that stay *)

Section SanitizedNames.

Import NotebookParser.

(** A letter of the ASCII alphabet or a digit. *)
Definition ascii_letter_or_digit (c : ascii) : bool :=
  isdigit c || between 65 90 (ord c) || between 97 122 (ord c).

Lemma strip_by_nil p s : strip_by p s = [] <-> forallb p s = true.
Proof.
  split.
  - intros E. unfold strip_by in E.
    destruct (lstrip_by_split p s) as [pre [E1 F1]].
    destruct (rstrip_by_split p (lstrip_by p s)) as [suf [E2 F2]].
    rewrite E in E2. rewrite E2 in E1. rewrite E1. cbn [app].
    rewrite forallb_app, F1, F2. reflexivity.
  - intros F. unfold strip_by. rewrite (lstrip_by_all p s F). reflexivity.
Qed.

Lemma squeeze_all p u (pu : p u = true) s : forall b,
  forallb p (squeeze p u b s) = forallb p s.
Proof.
  induction s as [|c s IH]; intros b; [reflexivity|].
  cbn [squeeze forallb]. destruct (p c) eqn:Hc.
  - destruct b; cbn [forallb]; rewrite ?pu, IH; reflexivity.
  - cbn [forallb]. now rewrite Hc.
Qed.

Lemma underscore_of_char c :
  is_underscore (to_name_char (lower_char c)) = negb (ascii_letter_or_digit c).
Proof.
  destruct c as [b0 b1 b2 b3 b4 b5 b6 b7].
  destruct b0, b1, b2, b3, b4, b5, b6, b7; vm_compute; reflexivity.
Qed.

(** X28. On the labels of the modelled range, those whose characters all
    lie between U+0000 and U+00FF, the sanitizer returns the empty name
    exactly when the label holds no letter of the ASCII alphabet and no
    digit. Nothing is said of labels beyond that range, where [lower] can
    turn a character into an ASCII letter. *)
Theorem sanitize_name_empty label :
  _sanitize_name label = []
  <-> forallb (fun c => negb (ascii_letter_or_digit c)) label = true.
Proof.
  rewrite sanitize_name_stages, strip_by_nil, squeeze_all by reflexivity.
  unfold lower. rewrite map_map.
  assert (E : forallb is_underscore (map (fun c => to_name_char (lower_char c)) label)
              = forallb (fun c => negb (ascii_letter_or_digit c)) label).
  { induction label as [|c label IH]; [reflexivity|].
    cbn [map forallb]. now rewrite IH, underscore_of_char. }
  now rewrite E.
Qed.

(** A parameter whose name the sanitizer leaves as it is. *)
Definition name_kept (p : Param) : Prop := _sanitize_name (name p) = name p.

Lemma widget_names_kept code :
  Forall name_kept (_detect_gradio_params code ++ _detect_widget_params code).
Proof.
  unfold _detect_gradio_params, _detect_widget_params. cbn [app].
  repeat (apply Forall_app; split);
    apply Forall_forall; intros p Hp; apply in_map_iff in Hp as [m [<- _]];
    apply sanitize_name_fixed, sanitize_name_sanitized.
Qed.

(** X29. The names of the parameters of an analysis are distinct, and the
    sanitizer leaves each of them as it is: lower-case letters, digits and
    single underscores, with no underscore at either end. *)
Theorem analysis_names_kept notebook filename analysis :
  parse_json notebook filename = Ok analysis ->
  NoDup (map name (parameters analysis))
  /\ Forall name_kept (parameters analysis)
  /\ Forall (fun p => sanitized (name p)) (parameters analysis).
Proof.
  intros H. apply analysis_parameters in H as [code H].
  assert (K : NoDup (map name (parameters analysis))
              /\ Forall name_kept (parameters analysis)).
  { apply detect_parameters_shape in H as [standard [Hs ->]].
    apply standard_params_shape in Hs
      as [bw [bh [bs [bc [bt [dw [dh [ds [dc [dt [-> _]]]]]]]]]]].
    cbv zeta.
    match goal with
    | |- context [add_params ?new ?acc] =>
        destruct (first_detection_wins new) as [N _];
        assert (F : Forall name_kept (fst (add_params new acc)))
    end.
    { apply add_params_Forall; [constructor|].
      apply Forall_app. split; [|apply widget_names_kept].
      unfold checklist.
      repeat (apply Forall_app; split); apply Forall_optional;
        vm_compute; reflexivity. }
    cbv zeta in N.
    destruct (fst _); [|now split].
    split.
    - unfold _get_default_image_params. simpl.
      repeat (constructor; [simpl; intuition discriminate|]). constructor.
    - unfold _get_default_image_params.
      repeat (apply Forall_cons; [vm_compute; reflexivity|]). constructor. }
  destruct K as [N F]. split; [exact N|]. split; [exact F|].
  rewrite Forall_forall in *. intros p Hp. rewrite <- (F p Hp).
  apply sanitize_name_sanitized.
Qed.

Lemma analysis_names_kept_witness :
  parse_json sunset_notebook (txt "sunset.ipynb") = Ok sunset_analysis
  /\ NoDup (map name (parameters sunset_analysis))
  /\ Forall name_kept (parameters sunset_analysis)
  /\ Forall (fun p => sanitized (name p)) (parameters sunset_analysis).
Proof.
  assert (H : parse_json sunset_notebook (txt "sunset.ipynb") = Ok sunset_analysis)
    by (vm_compute; reflexivity).
  split; [exact H|].
  apply (analysis_names_kept sunset_notebook (txt "sunset.ipynb") sunset_analysis H).
Defined.

End SanitizedNames.
